(** * Struktos gRPC adapter: context bridge and interceptor pipeline

    A shallow embedding of the parts of [@struktos/adapter-grpc] that the
    specification talks about, followed by the properties proved of them.

    Conventions of the embedding.
    - A JavaScript number that holds a millisecond clock value, a status
      code or a counter is a [Z]; only integer values occur in the code
      paths modelled here.
    - A JavaScript string is a [string] of 8-bit characters; [toLowerCase]
      acts on the letters A-Z.
    - [undefined]/[null] results are [None].
    - Code that awaits every promise it creates is modelled sequentially:
      a rejected promise that is awaited is a thrown error. A promise
      that nothing awaits (the one an async handler returns to the
      wrapped method, the wrapper's own) is followed explicitly: it may
      stay pending, and its rejection is the event [Uncaught]. *)

From Stdlib Require Import ZArith List Ascii String Bool Lia.
From stdpp Require Import gmap strings.
Import ListNotations.

Local Open Scope string_scope.
Local Open Scope Z_scope.

(** ** src/utils/id-generator.ts *)

Module IdGenerator.

(** [Number.prototype.toString(36)] on an integer: the digits
    [0-9a-z], most significant first, with a leading minus sign for a
    negative value. *)
Definition digit36 (d : Z) : ascii :=
  if d <? 10 then ascii_of_nat (Z.to_nat (48 + d))
  else ascii_of_nat (Z.to_nat (87 + d)).

Fixpoint digits36 (fuel : nat) (n : Z) (rest : string) : string :=
  match fuel with
  | O => rest
  | S f =>
      let rest' := String (digit36 (n mod 36)) rest in
      if n / 36 =? 0 then rest' else digits36 f (n / 36) rest'
  end.

Definition digit_budget (n : Z) : nat := S (Z.to_nat (Z.log2 n)).

Definition toString36 (n : Z) : string :=
  if n <? 0 then String "-" (digits36 (digit_budget (- n)) (- n) "")
  else digits36 (digit_budget n) n "".

(** [String.prototype.split('-')]. *)
Fixpoint split_dash (s : string) : list string :=
  match s with
  | EmptyString => [EmptyString]
  | String c s' =>
      match split_dash s' with
      | [] => [EmptyString]
      | p :: ps =>
          if Ascii.eqb c "-" then EmptyString :: p :: ps
          else String c p :: ps
      end
  end.

(** [parseInt(s, 36)]: leading white space is skipped, one sign is
    accepted, then the longest prefix of base-36 digits (either case) is
    read; no digit at all gives NaN, here [None]. *)
Definition digit_val (c : ascii) : option Z :=
  let n := Z.of_nat (nat_of_ascii c) in
  if (48 <=? n) && (n <=? 57) then Some (n - 48)
  else if (97 <=? n) && (n <=? 122) then Some (n - 87)
  else if (65 <=? n) && (n <=? 90) then Some (n - 55)
  else None.

Definition is_space (c : ascii) : bool :=
  let n := nat_of_ascii c in
  ((9 <=? n) && (n <=? 13))%nat || (n =? 32)%nat.

Fixpoint trim_start (s : string) : string :=
  match s with
  | String c s' => if is_space c then trim_start s' else s
  | EmptyString => EmptyString
  end.

Fixpoint parse_digits (s : string) (acc : Z) (seen : bool) : option Z :=
  match s with
  | EmptyString => if seen then Some acc else None
  | String c s' =>
      match digit_val c with
      | Some d => parse_digits s' (acc * 36 + d) true
      | None => if seen then Some acc else None
      end
  end.

Definition parseInt36 (s : string) : option Z :=
  match trim_start s with
  | EmptyString => None
  | String c s' =>
      if Ascii.eqb c "-" then option_map Z.opp (parse_digits s' 0 false)
      else if Ascii.eqb c "+" then parse_digits s' 0 false
      else parse_digits (String c s') 0 false
  end.

(** [generateTraceId()], with its two reads of the environment made
    arguments: [now] is [Date.now()] and [rnd] is
    [Math.random().toString(36)]. *)
Definition generateTraceId (now : Z) (rnd : string) : string :=
  let timestamp := toString36 now in
  let random := String.substring 2 8 rnd in
  "grpc-" ++ timestamp ++ "-" ++ random.

Definition generateRequestId (now : Z) (rnd : string) : string :=
  let timestamp := toString36 now in
  let random := String.substring 2 4 rnd in
  "req-" ++ timestamp ++ "-" ++ random.

(** The object returned by [parseTraceId]; an absent property is [None]. *)
Record ParsedTraceId := {
  timestamp : option Z;
  type : option string
}.

Definition emptyParsed : ParsedTraceId :=
  {| timestamp := None; type := None |}.

Definition parseTraceId (traceId : string) : ParsedTraceId :=
  match split_dash traceId with
  | ty :: seg :: _ =>
      match parseInt36 seg with
      | Some ts => {| timestamp := Some ts; type := Some ty |}
      | None => emptyParsed
      end
  | _ => emptyParsed
  end.

End IdGenerator.

(** ** Status codes and the error shapes that carry them *)

(** The [status] enumeration of [@grpc/grpc-js], with the numbers the gRPC
    protocol assigns. *)
Module GrpcStatus.
Definition OK : Z := 0.
Definition CANCELLED : Z := 1.
Definition UNKNOWN : Z := 2.
Definition INVALID_ARGUMENT : Z := 3.
Definition DEADLINE_EXCEEDED : Z := 4.
Definition NOT_FOUND : Z := 5.
Definition ALREADY_EXISTS : Z := 6.
Definition PERMISSION_DENIED : Z := 7.
Definition RESOURCE_EXHAUSTED : Z := 8.
Definition FAILED_PRECONDITION : Z := 9.
Definition ABORTED : Z := 10.
Definition OUT_OF_RANGE : Z := 11.
Definition UNIMPLEMENTED : Z := 12.
Definition INTERNAL : Z := 13.
Definition UNAVAILABLE : Z := 14.
Definition DATA_LOSS : Z := 15.
Definition UNAUTHENTICATED : Z := 16.
End GrpcStatus.

(** The value of an error's [code] property: Node errors carry strings,
    gRPC status objects carry numbers. *)
Inductive CodeVal :=
| NumCode (n : Z)
| StrCode (s : string).

(** A thrown or called-back error, seen through the four properties the
    adapter reads from it. *)
Record JsError := {
  err_message : string;
  err_statusCode : option Z;
  err_status : option Z;
  err_code : option CodeVal
}.

Record StatusObject := {
  so_code : Z;
  so_details : string;
  so_metadata : list (string * string)
}.

(** [a || b] on possibly absent numbers: [undefined] and [0] are falsy. *)
Definition js_or_num (a b : option Z) : option Z :=
  match a with
  | Some n => if n =? 0 then b else a
  | None => b
  end.

(** [a || b] on a possibly absent string with a string default: the empty
    string is falsy. *)
Definition js_or_str (a : option string) (b : string) : string :=
  match a with
  | Some EmptyString | None => b
  | Some s => s
  end.

(** The TypeError raised by reading a property of [null]. *)
Definition typeErrorNull : JsError :=
  {| err_message := "Cannot read properties of null (reading 'message')";
     err_statusCode := None; err_status := None; err_code := None |}.

(** ** Metadata values of the transport library

    [Metadata.set] of grpc-js validates what it is given: a value under
    a key that does not end in [-bin] has to match [/^[ -~]*$/], the
    printable ASCII characters, and [set] throws when it does not. *)
Definition isPrintable (c : ascii) : bool :=
  let n := nat_of_ascii c in ((32 <=? n) && (n <=? 126))%nat.

Fixpoint isLegalNonBinaryValue (value : string) : bool :=
  match value with
  | EmptyString => true
  | String c rest => isPrintable c && isLegalNonBinaryValue rest
  end.

Definition doubleQuote : string := String (ascii_of_nat 34) EmptyString.

Definition illegalCharacters (value : string) : JsError :=
  {| err_message := "Metadata string value " ++ doubleQuote ++ value
                    ++ doubleQuote ++ " contains illegal characters";
     err_statusCode := None; err_status := None; err_code := None |}.

(** [metadata.set(key, value)] on a [Metadata] seen as the map from its
    keys to their values; the keys the adapter uses are legal. *)
Definition Metadata_set (key value : string)
    (metadata : gmap string (list string))
  : JsError + gmap string (list string) :=
  if isLegalNonBinaryValue value then inr (<[key := [value]]> metadata)
  else inl (illegalCharacters value).

Module StatusTranslator.

(** The object literal [mapping] of [httpStatusToGrpcStatus]. *)
Definition mapping : gmap Z Z :=
  <[200 := GrpcStatus.OK]> (
  <[400 := GrpcStatus.INVALID_ARGUMENT]> (
  <[401 := GrpcStatus.UNAUTHENTICATED]> (
  <[403 := GrpcStatus.PERMISSION_DENIED]> (
  <[404 := GrpcStatus.NOT_FOUND]> (
  <[409 := GrpcStatus.ALREADY_EXISTS]> (
  <[429 := GrpcStatus.RESOURCE_EXHAUSTED]> (
  <[499 := GrpcStatus.CANCELLED]> (
  <[500 := GrpcStatus.INTERNAL]> (
  <[501 := GrpcStatus.UNIMPLEMENTED]> (
  <[503 := GrpcStatus.UNAVAILABLE]> (
  <[504 := GrpcStatus.DEADLINE_EXCEEDED]> ∅))))))))))).

Definition httpStatusToGrpcStatus (httpStatus : Z) : Z :=
  match mapping !! httpStatus with
  | Some c => c
  | None => GrpcStatus.INTERNAL
  end.

Definition defaultErrorTransformer (error : JsError) : StatusObject :=
  let statusCode := js_or_num (err_statusCode error) (err_status error) in
  let grpcCode := GrpcStatus.INTERNAL in
  let grpcCode :=
    match statusCode with
    | Some sc => if sc =? 0 then grpcCode else httpStatusToGrpcStatus sc
    | None => grpcCode
    end in
  let grpcCode :=
    match err_code error with
    | Some (NumCode c) => c
    | _ => grpcCode
    end in
  {| so_code := grpcCode; so_details := err_message error; so_metadata := [] |}.

(** The generic statuses the table is written for. *)
Definition taxonomy : list Z :=
  [200; 400; 401; 403; 404; 409; 429; 499; 500; 501; 503; 504].

End StatusTranslator.

(** ** src/types: the shapes the adapter passes around *)

Inductive GrpcCallType :=
| unary
| server_streaming
| client_streaming
| bidirectional.

Record MethodDefinition := {
  md_service : string;
  md_method : string;
  md_path : string;
  md_requestStream : bool;
  md_responseStream : bool
}.

Module METADATA_KEYS.
Definition TRACE_ID : string := "x-trace-id".
Definition REQUEST_ID : string := "x-request-id".
Definition USER_ID : string := "x-user-id".
End METADATA_KEYS.

(** What [getDeadline()] of the transport can hand back. *)
Inductive DeadlineVal :=
| DlInfinity
| DlDate (t : Z)
| DlNumber (t : Z).

(** The transport's call object, reduced to what the adapter reads:
    [metadata], [getPeer?.()], [getDeadline?.()] and whether the stream
    members [writable]/[readable] are defined. Header values are strings;
    a header maps to the list of its values. *)
Record GrpcCall := {
  call_metadata : option (gmap string (list string));
  call_peer : option string;
  call_deadline : option DeadlineVal;
  call_isStream : bool
}.

Record GrpcContextData := {
  traceId : string;
  requestId : string;
  userId : option string;
  ctx_timestamp : Z;
  serviceName : string;
  methodName : string;
  methodPath : string;
  callType : GrpcCallType;
  peer : option string;
  ctx_metadata : gmap string (list string);
  isStreaming : bool;
  deadline : option Z
}.

(** The keys a metadata transformer may return that collide with the
    identifiers of the context; [Some] means the key is present. *)
Record ContextPatch := {
  patch_traceId : option string;
  patch_requestId : option string;
  patch_userId : option string
}.

(** [GrpcAdapterOptions]. A configured generator is a nullary impure
    function: it is represented by what it returns at this call, [None]
    standing for a nullish result. The callbacks consulted while the
    context is built (the generators, the user-id extractor, the
    metadata transformer) are represented by what they return. The error
    transformer returns a status object or throws. The completion hook
    returns nothing: it is represented by whether it is configured and,
    if so, by the error it throws at this call, if any. *)
Record GrpcAdapterOptions := {
  opt_generateTraceId : option (option string);
  opt_generateRequestId : option (option string);
  opt_extractUserId : option (gmap string (list string) -> option string);
  opt_metadataTransformer : option (gmap string (list string) -> ContextPatch);
  opt_enableCancellation : option bool;
  opt_errorTransformer : option (JsError -> JsError + StatusObject);
  opt_onRequestComplete : option (option JsError)
}.

Definition defaultOptions : GrpcAdapterOptions :=
  {| opt_generateTraceId := None; opt_generateRequestId := None;
     opt_extractUserId := None; opt_metadataTransformer := None;
     opt_enableCancellation := None; opt_errorTransformer := None;
     opt_onRequestComplete := None |}.

(** ** String helpers of the host language *)

Definition lower_ascii (c : ascii) : ascii :=
  let n := nat_of_ascii c in
  if ((65 <=? n) && (n <=? 90))%nat then ascii_of_nat (n + 32) else c.

Fixpoint toLowerCase (s : string) : string :=
  match s with
  | EmptyString => EmptyString
  | String c s' => String (lower_ascii c) (toLowerCase s')
  end.

Fixpoint startsWith (s p : string) {struct p} : bool :=
  match p, s with
  | EmptyString, _ => true
  | String a p', String b s' => Ascii.eqb a b && startsWith s' p'
  | String _ _, EmptyString => false
  end.

(** [s.includes(needle)] *)
Fixpoint includes (s needle : string) : bool :=
  startsWith s needle ||
  match s with
  | EmptyString => false
  | String _ s' => includes s' needle
  end.

(** ** The request context of the host framework

    [RequestContext] belongs to [@struktos/core]. The adapter uses its
    cancellation token through [cancel], [isCancelled] and [onCancel]: a
    one-way flag whose cleanup callbacks run when it is set. The only
    callback the adapter registers clears the deadline timer, so the token
    carries the armed timer (its delay in milliseconds) beside the flag. *)

Record CancellationToken := {
  tok_cancelled : bool;
  tok_timer : option Z
}.

Definition activeToken : CancellationToken :=
  {| tok_cancelled := false; tok_timer := None |}.

Definition cancel (tok : CancellationToken) : CancellationToken :=
  {| tok_cancelled := true; tok_timer := None |}.

Definition isCancelled (tok : CancellationToken) : bool := tok_cancelled tok.

(** Consultations of the pluggable identifier sources, in call order. *)
Inductive Consulted :=
| CustomTraceIdGenerator
| BuiltinTraceIdGenerator
| CustomRequestIdGenerator
| BuiltinRequestIdGenerator
| CustomUserIdExtractor.

(** What the transport can emit on the call object, and the expiry of
    the timer armed by the bridge. *)
Inductive CallEvent :=
| OnCancelled
| OnClose
| OnError (error : JsError)
| OnDeadlineTimer.

(** ** src/context/factory.ts *)

Module ContextFactory.

Definition metadata_get (metadata : gmap string (list string)) (key : string)
  : list string :=
  default [] (metadata !! key).

Definition extractMetadata (call : GrpcCall) : gmap string (list string) :=
  default ∅ (call_metadata call).

Definition extractTraceId (metadata : gmap string (list string)) : option string :=
  match metadata_get metadata METADATA_KEYS.TRACE_ID with
  | v :: _ => Some v
  | [] => None
  end.

Definition extractRequestId (metadata : gmap string (list string)) : option string :=
  match metadata_get metadata METADATA_KEYS.REQUEST_ID with
  | v :: _ => Some v
  | [] => None
  end.

Definition extractUserId (metadata : gmap string (list string)) : option string :=
  match metadata_get metadata METADATA_KEYS.USER_ID with
  | v :: _ => Some v
  | [] => None
  end.

Definition extractPeer (call : GrpcCall) : option string := call_peer call.

Definition extractDeadline (call : GrpcCall) : option Z :=
  match call_deadline call with
  | Some (DlDate t) => Some t
  | Some (DlNumber t) => if t =? 0 then None else Some t
  | Some DlInfinity | None => None
  end.

Definition determineCallType (methodDef : MethodDefinition) : GrpcCallType :=
  if md_requestStream methodDef && md_responseStream methodDef then bidirectional
  else if md_requestStream methodDef then client_streaming
  else if md_responseStream methodDef then server_streaming
  else unary.

(** [extracted || (custom?.() ?? builtin())], with the consultations it
    makes. The built-in generator is only run when it is reached. *)
Definition idOrGenerate (extracted : option string)
    (custom : option (option string)) (builtin : string)
    (askedCustom askedBuiltin : Consulted) : string * list Consulted :=
  match extracted with
  | Some (String c s) => (String c s, [])
  | _ =>
      match custom with
      | Some (Some v) => (v, [askedCustom])
      | Some None => (builtin, [askedCustom; askedBuiltin])
      | None => (builtin, [askedBuiltin])
      end
  end.

Definition applyPatch (d : GrpcContextData) (p : ContextPatch) : GrpcContextData :=
  {| traceId := default (traceId d) (patch_traceId p);
     requestId := default (requestId d) (patch_requestId p);
     userId := match patch_userId p with Some u => Some u | None => userId d end;
     ctx_timestamp := ctx_timestamp d;
     serviceName := serviceName d;
     methodName := methodName d;
     methodPath := methodPath d;
     callType := callType d;
     peer := peer d;
     ctx_metadata := ctx_metadata d;
     isStreaming := isStreaming d;
     deadline := deadline d |}.

(** [createContext]. [now] is [Date.now()]; [rnd1] and [rnd2] are the
    renderings [Math.random().toString(36)] the two built-in generators
    would draw. The second component lists the pluggable sources that
    were called. *)
Definition createContext (options : GrpcAdapterOptions) (now : Z)
    (rnd1 rnd2 : string) (call : GrpcCall) (methodDef : MethodDefinition)
  : GrpcContextData * list Consulted :=
  let metadata := extractMetadata call in
  let callType := determineCallType methodDef in
  let '(traceId, asked1) :=
    idOrGenerate (extractTraceId metadata) (opt_generateTraceId options)
      (IdGenerator.generateTraceId now rnd1)
      CustomTraceIdGenerator BuiltinTraceIdGenerator in
  let '(requestId, asked2) :=
    idOrGenerate (extractRequestId metadata) (opt_generateRequestId options)
      (IdGenerator.generateRequestId now rnd2)
      CustomRequestIdGenerator BuiltinRequestIdGenerator in
  let '(userId, asked3) :=
    match opt_extractUserId options with
    | Some f =>
        (match f metadata with
         | Some u => Some u
         | None => extractUserId metadata
         end, [CustomUserIdExtractor])
    | None => (extractUserId metadata, [])
    end in
  let contextData :=
    {| traceId := traceId; requestId := requestId; userId := userId;
       ctx_timestamp := now;
       serviceName := md_service methodDef;
       methodName := md_method methodDef;
       methodPath := md_path methodDef;
       callType := callType;
       peer := extractPeer call;
       ctx_metadata := metadata;
       isStreaming := md_requestStream methodDef || md_responseStream methodDef;
       deadline := extractDeadline call |} in
  let contextData :=
    match opt_metadataTransformer options with
    | Some f => applyPatch contextData (f metadata)
    | None => contextData
    end in
  (contextData, (asked1 ++ asked2 ++ asked3)%list).

Definition isCancellationError (error : JsError) : bool :=
  let message := toLowerCase (err_message error) in
  includes message "cancelled" ||
  includes message "canceled" ||
  includes message "deadline" ||
  match err_code error with
  | Some (NumCode 1) => true
  | _ => false
  end.

(** A [Date] holds a time value of at most 8.64e15 ms either side of the
    epoch. A deadline outside that range stands for an invalid [Date]
    (what [new Date(n)] is for such a number): its [getTime()] is NaN. *)
Definition maxTimeValue : Z := 8640000000000000.

Definition isValidTime (t : Z) : bool :=
  (- maxTimeValue <=? t) && (t <=? maxTimeValue).

(** [setTimeout] of Node keeps a delay between 1 and 2^31-1 ms and
    replaces any other by 1 ms. *)
Definition TIMEOUT_MAX : Z := 2147483647.

Definition timerDelay (ms : Z) : Z :=
  if (1 <=? ms) && (ms <=? TIMEOUT_MAX) then ms else 1.

(** The synchronous part of [setupCancellation]: arm the timer for a
    deadline still ahead, cancel at once for one that is not. For an
    invalid [Date] the difference is NaN and [NaN > 0] is false. *)
Definition setupCancellation (now : Z) (call : GrpcCall)
    (tok : CancellationToken) : CancellationToken :=
  match extractDeadline call with
  | Some d =>
      let timeoutMs := d - now in
      if isValidTime d && (timeoutMs >? 0) then
        {| tok_cancelled := tok_cancelled tok;
           tok_timer := Some (timerDelay timeoutMs) |}
      else cancel tok
  | None => tok
  end.

(** The listeners [setupCancellation] registers, as the reaction of the
    token to one event. *)
Definition onEvent (ev : CallEvent) (tok : CancellationToken)
  : CancellationToken :=
  match ev with
  | OnCancelled => cancel tok
  | OnClose => tok
  | OnError error => if isCancellationError error then cancel tok else tok
  | OnDeadlineTimer =>
      match tok_timer tok with
      | Some _ => if isCancelled tok then tok else cancel tok
      | None => tok
      end
  end.

(** With [enableCancellation: false] nothing is registered. *)
Definition bridgeAttached (options : GrpcAdapterOptions) : bool :=
  match opt_enableCancellation options with
  | Some false => false
  | _ => true
  end.

Definition deliver (options : GrpcAdapterOptions) (ev : CallEvent)
    (tok : CancellationToken) : CancellationToken :=
  if bridgeAttached options then onEvent ev tok else tok.

Record RequestContext := {
  rc_data : GrpcContextData;
  rc_token : CancellationToken
}.

(** [runWithContext]: build the context, attach the bridge, run [fn].
    The context-created hook is represented as returning: it returns
    nothing and has no part in what follows. *)
Definition runWithContext {T} (options : GrpcAdapterOptions) (now : Z)
    (rnd1 rnd2 : string) (call : GrpcCall) (methodDef : MethodDefinition)
    (fn : RequestContext -> T) : T :=
  let contextData := fst (createContext options now rnd1 rnd2 call methodDef) in
  let tok :=
    if bridgeAttached options then setupCancellation now call activeToken
    else activeToken in
  fn {| rc_data := contextData; rc_token := tok |}.

End ContextFactory.

(** ** src/context/factory.ts: response metadata *)

Module ResponseMetadata.

(** [createResponseMetadata]: a fresh [Metadata] on which each identifier
    that is truthy is [set] under its canonical key. [set] throws for an
    identifier that holds a character metadata cannot carry. *)
Definition createResponseMetadata (ctx : ContextFactory.RequestContext)
  : JsError + gmap string (list string) :=
  let metadata : gmap string (list string) := ∅ in
  let traceId := traceId (ContextFactory.rc_data ctx) in
  match
    match traceId with
    | EmptyString => inr metadata
    | _ => Metadata_set METADATA_KEYS.TRACE_ID traceId metadata
    end
  with
  | inl thrown => inl thrown
  | inr metadata =>
      let requestId := requestId (ContextFactory.rc_data ctx) in
      match requestId with
      | EmptyString => inr metadata
      | _ => Metadata_set METADATA_KEYS.REQUEST_ID requestId metadata
      end
  end.

End ResponseMetadata.

(** ** src/interceptors/struktos-interceptor.ts *)

(** [response.body] as far as [sendErrorResponse] looks into it: absent,
    [null], an object (with its [message] property and the string
    [JSON.stringify] makes of it), an object on which [JSON.stringify]
    throws (a cyclic one, say), or a primitive shown as text (the empty
    text for a falsy one). *)
Inductive Body :=
| BodyUndefined
| BodyNull
| BodyObject (message : option string) (json : string)
| BodyText (text : string)
| BodyUnserializable (message : option string) (thrown : JsError).

Record StruktosResponse := {
  resp_status : Z;
  resp_body : Body;
  resp_sent : bool
}.

Record StruktosRequest := {
  req_path : string;
  req_service : string;
  req_method : string;
  req_ip : option string
}.

Record MiddlewareContext := {
  context : ContextFactory.RequestContext;
  request : StruktosRequest;
  response : StruktosResponse
}.

(** Everything the code of a middleware can reach: the context it is
    handed, the clock, and the map the rate limiter keeps in its closure. *)
Record MiddlewareState := {
  ms_ctx : MiddlewareContext;
  ms_now : Z;
  ms_requests : gmap string (list Z)
}.

Definition ms_response (s : MiddlewareState) : StruktosResponse :=
  response (ms_ctx s).

Definition ms_token (s : MiddlewareState) : CancellationToken :=
  ContextFactory.rc_token (context (ms_ctx s)).

Definition set_response (r : StruktosResponse) (s : MiddlewareState)
  : MiddlewareState :=
  {| ms_ctx := {| context := context (ms_ctx s);
                  request := request (ms_ctx s);
                  response := r |};
     ms_now := ms_now s;
     ms_requests := ms_requests s |}.

Definition set_token (t : CancellationToken) (s : MiddlewareState)
  : MiddlewareState :=
  {| ms_ctx := {| context :=
                    {| ContextFactory.rc_data :=
                         ContextFactory.rc_data (context (ms_ctx s));
                       ContextFactory.rc_token := t |};
                  request := request (ms_ctx s);
                  response := response (ms_ctx s) |};
     ms_now := ms_now s;
     ms_requests := ms_requests s |}.

Definition set_requests (m : gmap string (list Z)) (s : MiddlewareState)
  : MiddlewareState :=
  {| ms_ctx := ms_ctx s; ms_now := ms_now s; ms_requests := m |}.

(** The body of a middleware's [invoke(ctx, next)]: straight-line code
    over the state it can reach, tests on that state, [await next()],
    [throw] and [return]. *)
Inductive Prog :=
| Ret
| Throw (error : JsError)
| Step (f : MiddlewareState -> MiddlewareState) (k : Prog)
| Branch (test : MiddlewareState -> bool) (kt kf : Prog)
| Proceed (k : Prog).

Record IStruktosMiddleware := { invoke : Prog }.

(** What the handler's callback is called with. *)
Inductive CallbackArg :=
| CbResponse (body : string)
| CbStatus (error : StatusObject)
| CbRawError (error : JsError).

(** The calls an invocation makes that are visible from outside, and
    [Uncaught]: an exception or a promise rejection, of the handler's
    own code or of the wrapper, that nothing handles. *)
Inductive Event :=
| MiddlewareInvoked (i : nat)
| MetadataSent (traceId requestId : string)
| HandlerInvoked
| CallbackCalled (arg : CallbackArg)
| ConsoleError (error : JsError)
| RequestCompleteHook
| Uncaught (error : JsError).

Record Run := {
  run_state : MiddlewareState;
  run_index : nat;
  run_events : list Event
}.

Definition emit (e : Event) (r : Run) : Run :=
  {| run_state := run_state r;
     run_index := run_index r;
     run_events := (run_events r ++ [e])%list |}.

(** The token is one-way: code that runs on a cancelled context cannot
    make it active again. *)
Definition after_step (f : MiddlewareState -> MiddlewareState) (r : Run) : Run :=
  let s := run_state r in
  let s' := f s in
  {| run_state := if isCancelled (ms_token s) then set_token (ms_token s) s' else s';
     run_index := run_index r;
     run_events := run_events r |}.

Inductive Completion :=
| Normal
| Thrown (error : JsError)
| OutOfFuel.

(** A promise the wrapper awaits. *)
Inductive Settled :=
| Pending
| Resolved
| Rejected (error : JsError).

(** What the original method does with the callback it is given.
    [h_calls]: the calls it makes before it returns, in order.
    [h_return]: how the call of the method ends. A plain function
    returns or throws; an async function returns a promise, and an
    exception in its body is the rejection of that promise.
    [h_later]: the calls it makes after it has returned (after an
    [await], from a timer), in order, each in a later turn of the event
    loop; the promise of an async function settles after the last of
    them. *)
Inductive HandlerCall :=
| RespondOk (body : string)
| RespondError (error : JsError).

Inductive PromiseFate :=
| Fulfils
| RejectsWith (error : JsError)
| StaysPending.

Inductive HandlerReturn :=
| Returns
| Throws (error : JsError)
| Async (fate : PromiseFate).

Record Handler := {
  h_calls : list HandlerCall;
  h_return : HandlerReturn;
  h_later : list HandlerCall
}.

(** How the promise returned by a wrapped method ends. [Returned]: it
    settles (a rejection, which nothing handles, shows as an [Uncaught]
    event); [Hung]: it never settles, because the wrapper awaits a
    promise that stays pending; [Unfinished]: the run of the chain was
    cut short for lack of fuel. *)
Inductive Outcome :=
| Returned
| Hung
| Unfinished.

(** The TypeError raised by calling an absent callback. *)
Definition typeErrorNotFunction : JsError :=
  {| err_message := "callback is not a function";
     err_statusCode := None; err_status := None; err_code := None |}.

Module StruktosInterceptor.

Import StatusTranslator.

(** Running the body of one [invoke] against a given [next]. *)
Fixpoint exec (next : Run -> Completion * Run) (p : Prog) (r : Run)
  : Completion * Run :=
  match p with
  | Ret => (Normal, r)
  | Throw e => (Thrown e, r)
  | Step f k => exec next k (after_step f r)
  | Branch test kt kf =>
      if test (run_state r) then exec next kt r else exec next kf r
  | Proceed k =>
      match next r with
      | (Normal, r') => exec next k r'
      | other => other
      end
  end.

(** The closure [next] of [executePipeline]; [run_index] is the shared
    variable [index]. Each call that runs a middleware advances the
    cursor, so as many units of fuel as there are middleware left
    suffice. *)
Fixpoint next (middlewares : list IStruktosMiddleware) (fuel : nat) (r : Run)
  : Completion * Run :=
  if (run_index r <? length middlewares)%nat then
    match fuel with
    | O => (OutOfFuel, r)
    | S fuel' =>
        match nth_error middlewares (run_index r) with
        | Some middleware =>
            let r' :=
              {| run_state := run_state r;
                 run_index := S (run_index r);
                 run_events :=
                   (run_events r ++ [MiddlewareInvoked (run_index r)])%list |} in
            exec (next middlewares fuel') (invoke middleware) r'
        | None => (Normal, r)
        end
    end
  else (Normal, r).

Definition executePipeline (middlewares : list IStruktosMiddleware) (r : Run)
  : Completion * Run :=
  next middlewares (length middlewares) r.

Definition createMiddlewareContext (call : GrpcCall)
    (methodDef : MethodDefinition) (ctx : ContextFactory.RequestContext)
  : MiddlewareContext :=
  {| context := ctx;
     request := {| req_path := md_path methodDef;
                   req_service := md_service methodDef;
                   req_method := md_method methodDef;
                   req_ip := call_peer call |};
     response := {| resp_status := 200;
                    resp_body := BodyUndefined;
                    resp_sent := false |} |}.

Definition sendErrorResponse (callback : bool) (response : StruktosResponse)
    (r : Run) : Completion * Run :=
  if negb callback then (Normal, r)
  else
    let grpcStatus := httpStatusToGrpcStatus (resp_status response) in
    match resp_body response with
    | BodyNull => (Thrown typeErrorNull, r)
    | BodyObject message json =>
        if isLegalNonBinaryValue json then
          let error :=
            {| so_code := grpcStatus;
               so_details := js_or_str message "Error";
               so_metadata := [("error-details", json)] |} in
          (Normal, emit (CallbackCalled (CbStatus error)) r)
        else (Thrown (illegalCharacters json), r)
    | BodyUnserializable message thrown => (Thrown thrown, r)
    | BodyText text =>
        let error :=
          {| so_code := grpcStatus;
             so_details := js_or_str (Some text) "Error";
             so_metadata := [] |} in
        (Normal, emit (CallbackCalled (CbStatus error)) r)
    | BodyUndefined =>
        let error :=
          {| so_code := grpcStatus;
             so_details := "Error";
             so_metadata := [] |} in
        (Normal, emit (CallbackCalled (CbStatus error)) r)
    end.

Definition sendCancelledResponse (callback : bool) (r : Run) : Run :=
  if negb callback then r
  else
    emit (CallbackCalled (CbStatus
            {| so_code := GrpcStatus.CANCELLED;
               so_details := "Request was cancelled";
               so_metadata := [] |})) r.

(** [handleError] is the last thing the wrapper does, in its [catch]
    block: what the error transformer throws is thrown by the wrapper
    itself, and nothing handles the rejection of its promise. *)
Definition handleError (options : GrpcAdapterOptions) (error : JsError)
    (callback : bool) (r : Run) : Run :=
  if negb callback then emit (ConsoleError error) r
  else
    match
      match opt_errorTransformer options with
      | Some transformer => transformer error
      | None => inr (defaultErrorTransformer error)
      end
    with
    | inr statusObject => emit (CallbackCalled (CbStatus statusObject)) r
    | inl thrown => emit (Uncaught thrown) r
    end.

(** The method is handed the caller's own callback (stream shape) or
    none at all; calling an absent callback throws. *)
Fixpoint callDirect (callback : bool) (calls : list HandlerCall) (r : Run)
  : Completion * Run :=
  match calls with
  | [] => (Normal, r)
  | c :: rest =>
      if negb callback then (Thrown typeErrorNotFunction, r)
      else
        let arg := match c with
                   | RespondOk body => CbResponse body
                   | RespondError e => CbRawError e
                   end in
        callDirect callback rest (emit (CallbackCalled arg) r)
  end.

Definition settle (now new : Settled) : Settled :=
  match now with
  | Pending => new
  | _ => now
  end.

(** The method is handed [wrappedCallback]. *)
Fixpoint callWrapped (calls : list HandlerCall) (p : Settled) (r : Run)
  : Settled * Run :=
  match calls with
  | [] => (p, r)
  | RespondError e :: rest => callWrapped rest (settle p (Rejected e)) r
  | RespondOk body :: rest =>
      callWrapped rest (settle p Resolved)
        (emit (CallbackCalled (CbResponse body)) r)
  end.

(** [callOriginalMethod] up to the return of the method: the state of
    the promise it made. What the method returns is dropped, so an
    exception in the body of an async method goes unnoticed here. *)
Definition callOriginalMethod (method : Handler) (call : GrpcCall)
    (callback : bool) (r : Run) : Settled * Run :=
  let r := emit HandlerInvoked r in
  let direct :=
    match callDirect callback (h_calls method) r with
    | (Thrown e, r') =>
        match h_return method with
        | Async _ => (Resolved, r')
        | _ => (Rejected e, r')
        end
    | (_, r') =>
        match h_return method with
        | Throws e => (Rejected e, r')
        | _ => (Resolved, r')
        end
    end in
  if call_isStream call then direct
  else if callback then
    let '(p, r') := callWrapped (h_calls method) Pending r in
    match h_return method with
    | Throws e => (settle p (Rejected e), r')
    | _ => (p, r')
    end
  else direct.

(** What the wrapper does when the promise of [callOriginalMethod] has
    settled: the completion hook after a fulfilment, the [catch] block
    after a rejection. The hook runs inside the [try], so what it throws
    is caught and handled like any other error. *)
Definition complete (options : GrpcAdapterOptions) (callback : bool)
    (p : Settled) (r : Run) : Outcome * Run :=
  match p with
  | Pending => (Hung, r)
  | Rejected e => (Returned, handleError options e callback r)
  | Resolved =>
      match opt_onRequestComplete options with
      | None => (Returned, r)
      | Some None => (Returned, emit RequestCompleteHook r)
      | Some (Some e) =>
          (Returned, handleError options e callback (emit RequestCompleteHook r))
      end
  end.

(** The calls the method makes after it has returned. [wrapped]: it was
    handed [wrappedCallback], whose first call settles a promise that is
    still pending ([Hung]) and so resumes the wrapper. At the end the
    promise of an async method may reject; nothing handles that. *)
Fixpoint laterCalls (options : GrpcAdapterOptions) (wrapped callback : bool)
    (calls : list HandlerCall) (rejection : option JsError) (o : Outcome)
    (r : Run) : Outcome * Run :=
  match calls with
  | [] =>
      (o, match rejection with
          | Some e => emit (Uncaught e) r
          | None => r
          end)
  | c :: rest =>
      if wrapped then
        let r := match c with
                 | RespondOk body => emit (CallbackCalled (CbResponse body)) r
                 | RespondError _ => r
                 end in
        match o with
        | Hung =>
            let '(o', r') :=
              complete options callback
                match c with
                | RespondOk _ => Resolved
                | RespondError e => Rejected e
                end r in
            laterCalls options wrapped callback rest rejection o' r'
        | _ => laterCalls options wrapped callback rest rejection o r
        end
      else if callback then
        let arg := match c with
                   | RespondOk body => CbResponse body
                   | RespondError e => CbRawError e
                   end in
        laterCalls options wrapped callback rest rejection o
          (emit (CallbackCalled arg) r)
      else (o, emit (Uncaught typeErrorNotFunction) r)
  end.

(** What the method's own code does after it has returned. A body that
    called an absent callback stopped there: with an exception the
    wrapper has seen (plain function) or with a rejection nothing
    handles (async function). *)
Definition afterReturn (options : GrpcAdapterOptions) (method : Handler)
    (call : GrpcCall) (callback : bool) (o : Outcome) (r : Run)
  : Outcome * Run :=
  match callback, h_calls method with
  | false, _ :: _ =>
      (o, match h_return method with
          | Async _ => emit (Uncaught typeErrorNotFunction) r
          | _ => r
          end)
  | _, _ =>
      laterCalls options (negb (call_isStream call) && callback) callback
        (h_later method)
        match h_return method with
        | Async (RejectsWith e) => Some e
        | _ => None
        end o r
  end.

(** The function [wrapMethod] returns, applied to a call and a callback
    ([callback] tells whether one was passed). [requests] is the rate
    limiter's map as earlier invocations left it. *)
Definition wrapMethod (options : GrpcAdapterOptions)
    (middlewares : list IStruktosMiddleware) (method : Handler)
    (methodDef : MethodDefinition) (now : Z) (rnd1 rnd2 : string)
    (requests : gmap string (list Z)) (call : GrpcCall) (callback : bool)
  : Outcome * Run :=
  ContextFactory.runWithContext options now rnd1 rnd2 call methodDef
    (fun ctx =>
       let middlewareCtx := createMiddlewareContext call methodDef ctx in
       let r0 := {| run_state := {| ms_ctx := middlewareCtx;
                                    ms_now := now;
                                    ms_requests := requests |};
                    run_index := O;
                    run_events := [] |} in
       match executePipeline middlewares r0 with
       | (OutOfFuel, r) => (Unfinished, r)
       | (Thrown e, r) => (Returned, handleError options e callback r)
       | (Normal, r) =>
           if resp_sent (ms_response (run_state r)) then
             match sendErrorResponse callback (ms_response (run_state r)) r with
             | (Thrown e, r') => (Returned, handleError options e callback r')
             | (_, r') => (Returned, r')
             end
           else if isCancelled (ms_token (run_state r)) then
             (Returned, sendCancelledResponse callback r)
           else
             match ResponseMetadata.createResponseMetadata
                     (context (ms_ctx (run_state r))) with
             | inl e => (Returned, handleError options e callback r)
             | inr responseMetadata =>
                 let data :=
                   ContextFactory.rc_data (context (ms_ctx (run_state r))) in
                 let r := emit (MetadataSent (traceId data) (requestId data)) r in
                 let '(p, r') := callOriginalMethod method call callback r in
                 let '(o, r'') := complete options callback p r' in
                 afterReturn options method call callback o r''
             end
       end).

(** [createRateLimitInterceptor(maxRequests, windowMs)]: the key of the
    client, and its timestamps that lie inside the window. *)
Definition rateLimitKey (s : MiddlewareState) : string :=
  js_or_str (req_ip (request (ms_ctx s))) "unknown".

Definition rateLimitWindow (windowMs : Z) (s : MiddlewareState) : list Z :=
  let windowStart := ms_now s - windowMs in
  List.filter (fun t => t >? windowStart)
    (default [] (ms_requests s !! rateLimitKey s)).

Definition quoted (s : string) : string :=
  String (ascii_of_nat 34) (s ++ String (ascii_of_nat 34) EmptyString).

Definition tooManyRequests : Body :=
  BodyObject (Some "Rate limit exceeded")
    ("{" ++ quoted "error" ++ ":" ++ quoted "Too Many Requests" ++ ","
         ++ quoted "message" ++ ":" ++ quoted "Rate limit exceeded" ++ "}").

(** The two arms of the limiter: refuse, or record the request. *)
Definition rateLimitRefuse (s : MiddlewareState) : MiddlewareState :=
  set_response {| resp_status := 429;
                  resp_body := tooManyRequests;
                  resp_sent := true |} s.

Definition rateLimitRecord (windowMs : Z) (s : MiddlewareState)
  : MiddlewareState :=
  set_requests
    (<[rateLimitKey s := (rateLimitWindow windowMs s ++ [ms_now s])%list]>
       (ms_requests s)) s.

Definition rateLimitFull (maxRequests windowMs : Z) (s : MiddlewareState)
  : bool :=
  Z.of_nat (length (rateLimitWindow windowMs s)) >=? maxRequests.

Definition createRateLimitInterceptor (maxRequests windowMs : Z)
  : IStruktosMiddleware :=
  {| invoke :=
       Branch (rateLimitFull maxRequests windowMs)
         (Step rateLimitRefuse Ret)
         (Step (rateLimitRecord windowMs) (Proceed Ret)) |}.

End StruktosInterceptor.

(** * Vocabulary of the statements *)

Fixpoint dashless (s : string) : bool :=
  match s with
  | EmptyString => true
  | String c s' => negb (Ascii.eqb c "-") && dashless s'
  end.

(** An input has no parseable second segment when [split('-')] yields
    fewer than two parts or [parseInt] of the second part is NaN. *)
Definition unparseable (s : string) : Prop :=
  match IdGenerator.split_dash s with
  | _ :: seg :: _ => IdGenerator.parseInt36 seg = None
  | _ => True
  end.

(** The numeric protocol code an error carries in [code], if any. *)
Definition numericCode (e : JsError) : option Z :=
  match err_code e with
  | Some (NumCode c) => Some c
  | _ => None
  end.

(** [error.statusCode || error.status] *)
Definition httpLikeStatus (e : JsError) : option Z :=
  js_or_num (err_statusCode e) (err_status e).

(** An error with neither a numeric protocol code nor a status the table
    recognises. *)
Definition unmapped (e : JsError) : Prop :=
  numericCode e = None /\
  forall h, httpLikeStatus e = Some h -> ~ In h StatusTranslator.taxonomy.

(** The lower-cased message of an error contains a word. *)
Definition mentions (e : JsError) (word : string) : Prop :=
  exists pre post, toLowerCase (err_message e) = pre ++ word ++ post.

(** The first value of the trace-id header of a call, if it has one. *)
Definition traceHeader (call : GrpcCall) : option string :=
  ContextFactory.extractTraceId (ContextFactory.extractMetadata call).

(** The configured metadata transformer, if any, returns no [traceId]
    key for this call. *)
Definition keepsTraceId (options : GrpcAdapterOptions) (call : GrpcCall) : Prop :=
  forall f, opt_metadataTransformer options = Some f ->
            patch_traceId (f (ContextFactory.extractMetadata call)) = None.

(** Shapes of middleware bodies. [returns]: no path throws. [quiet]: no
    path throws or calls [next]. [proceeds]: every path calls [next] at
    least once and none throws. [proceeds_once]: every path calls [next]
    exactly once and none throws. *)
Inductive returns : Prog -> Prop :=
| returns_ret : returns Ret
| returns_step f k : returns k -> returns (Step f k)
| returns_branch t k1 k2 : returns k1 -> returns k2 -> returns (Branch t k1 k2)
| returns_proceed k : returns k -> returns (Proceed k).

Inductive quiet : Prog -> Prop :=
| quiet_ret : quiet Ret
| quiet_step f k : quiet k -> quiet (Step f k)
| quiet_branch t k1 k2 : quiet k1 -> quiet k2 -> quiet (Branch t k1 k2).

Inductive proceeds : Prog -> Prop :=
| proceeds_here k : returns k -> proceeds (Proceed k)
| proceeds_step f k : proceeds k -> proceeds (Step f k)
| proceeds_branch t k1 k2 :
    proceeds k1 -> proceeds k2 -> proceeds (Branch t k1 k2).

Inductive proceeds_once : Prog -> Prop :=
| once_here k : quiet k -> proceeds_once (Proceed k)
| once_step f k : proceeds_once k -> proceeds_once (Step f k)
| once_branch t k1 k2 :
    proceeds_once k1 -> proceeds_once k2 -> proceeds_once (Branch t k1 k2).

(** How often the middleware at position [i] was invoked. *)
Definition timesInvoked (i : nat) (events : list Event) : nat :=
  length (List.filter (fun e => match e with
                                | MiddlewareInvoked j => Nat.eqb i j
                                | _ => false
                                end) events).

(** How often the caller's callback was called. *)
Definition callbackCount (events : list Event) : nat :=
  length (List.filter (fun e => match e with
                                | CallbackCalled _ => true
                                | _ => false
                                end) events).

(** The invocations of the middleware at positions [from], [from+1], ...
    [from+count-1], in that order. *)
Definition invocations (from count : nat) : list Event :=
  map MiddlewareInvoked (seq from count).

(** The state a pipeline run starts from. *)
Definition startRun (s : MiddlewareState) : Run :=
  {| run_state := s; run_index := O; run_events := [] |}.

(** [r'] is reached from [r] by running middleware code of a pipeline of
    [n] middleware: the cursor did not go back and stayed within [n], the
    events added are the invocations of the positions passed, and a
    cancelled token stayed cancelled. *)
Definition advanced (n : nat) (r r' : Run) : Prop :=
  (run_index r <= run_index r')%nat
  /\ ((run_index r <= n)%nat -> (run_index r' <= n)%nat)
  /\ run_events r'
     = (run_events r
        ++ invocations (run_index r) (run_index r' - run_index r))%list
  /\ (isCancelled (ms_token (run_state r)) = true ->
      isCancelled (ms_token (run_state r')) = true).

(** The state the wrapped method hands to the first middleware. *)
Definition initialState (options : GrpcAdapterOptions)
    (methodDef : MethodDefinition) (now : Z) (rnd1 rnd2 : string)
    (requests : gmap string (list Z)) (call : GrpcCall) : MiddlewareState :=
  ContextFactory.runWithContext options now rnd1 rnd2 call methodDef
    (fun ctx =>
       {| ms_ctx := StruktosInterceptor.createMiddlewareContext call methodDef ctx;
          ms_now := now;
          ms_requests := requests |}).

(** The run as the chain leaves it, before the wrapper looks at it. *)
Definition chainResult (options : GrpcAdapterOptions)
    (middlewares : list IStruktosMiddleware) (methodDef : MethodDefinition)
    (now : Z) (rnd1 rnd2 : string) (requests : gmap string (list Z))
    (call : GrpcCall) : Completion * Run :=
  StruktosInterceptor.executePipeline middlewares
    (startRun (initialState options methodDef now rnd1 rnd2 requests call)).

(** What the wrapped method does once the chain has ended. *)
Definition afterChain (options : GrpcAdapterOptions) (method : Handler)
    (call : GrpcCall) (callback : bool) (cr : Completion * Run)
  : Outcome * Run :=
  match cr with
  | (OutOfFuel, r) => (Unfinished, r)
  | (Thrown e, r) => (Returned, StruktosInterceptor.handleError options e callback r)
  | (Normal, r) =>
      if resp_sent (ms_response (run_state r)) then
        match StruktosInterceptor.sendErrorResponse callback
                (ms_response (run_state r)) r with
        | (Thrown e, r') => (Returned, StruktosInterceptor.handleError options e callback r')
        | (_, r') => (Returned, r')
        end
      else if isCancelled (ms_token (run_state r)) then
        (Returned, StruktosInterceptor.sendCancelledResponse callback r)
      else
        match ResponseMetadata.createResponseMetadata
                (context (ms_ctx (run_state r))) with
        | inl e => (Returned, StruktosInterceptor.handleError options e callback r)
        | inr responseMetadata =>
            let data := ContextFactory.rc_data (context (ms_ctx (run_state r))) in
            let r := emit (MetadataSent (traceId data) (requestId data)) r in
            let '(p, r') :=
              StruktosInterceptor.callOriginalMethod method call callback r in
            let '(o, r'') := StruktosInterceptor.complete options callback p r' in
            StruktosInterceptor.afterReturn options method call callback o r''
        end
  end.


(** The identifiers of a context can be put on metadata. *)
Definition legalIds (ctx : ContextFactory.RequestContext) : bool :=
  isLegalNonBinaryValue (traceId (ContextFactory.rc_data ctx))
  && isLegalNonBinaryValue (requestId (ContextFactory.rc_data ctx)).

(** A response body [sendErrorResponse] can deliver: not [null], and for
    an object one that [JSON.stringify] renders within printable ASCII. *)
Definition deliverable (body : Body) : bool :=
  match body with
  | BodyNull => false
  | BodyObject _ json => isLegalNonBinaryValue json
  | BodyUnserializable _ _ => false
  | BodyUndefined | BodyText _ => true
  end.

(** What [sendErrorResponse] throws on a body it cannot deliver. *)
Definition undeliverable (body : Body) : option JsError :=
  match body with
  | BodyNull => Some typeErrorNull
  | BodyObject _ json =>
      if isLegalNonBinaryValue json then None
      else Some (illegalCharacters json)
  | BodyUnserializable _ thrown => Some thrown
  | BodyUndefined | BodyText _ => None
  end.


(** * Sample inputs *)

Definition plainError : JsError :=
  {| err_message := "boom"; err_statusCode := None; err_status := Some 418;
     err_code := Some (StrCode "ECONNRESET") |}.

Definition resetError : JsError :=
  {| err_message := "read ECONNRESET"; err_statusCode := None;
     err_status := None; err_code := Some (StrCode "ECONNRESET") |}.

Definition deadlineError : JsError :=
  {| err_message := "Deadline exceeded"; err_statusCode := None;
     err_status := None; err_code := Some (NumCode 4) |}.

Definition sayHello : MethodDefinition :=
  {| md_service := "example.Greeter"; md_method := "SayHello";
     md_path := "/example.Greeter/SayHello";
     md_requestStream := false; md_responseStream := false |}.

Definition callWithTraceHeader : GrpcCall :=
  {| call_metadata := Some {[ "x-trace-id" := ["custom-trace-123"] ]};
     call_peer := Some "127.0.0.1:12345";
     call_deadline := None;
     call_isStream := false |}.

Definition plainCall : GrpcCall :=
  {| call_metadata := Some ∅;
     call_peer := Some "127.0.0.1:12345";
     call_deadline := None;
     call_isStream := false |}.

Definition optionsWithGenerator : GrpcAdapterOptions :=
  {| opt_generateTraceId := Some (Some "custom-generated-trace");
     opt_generateRequestId := None;
     opt_extractUserId := None; opt_metadataTransformer := None;
     opt_enableCancellation := None; opt_errorTransformer := None;
     opt_onRequestComplete := None |}.

(** A middleware that returns at once, one that only calls [next], and
    a handler that answers. *)
Definition returnsAtOnce : IStruktosMiddleware := {| invoke := Ret |}.

Definition passThrough : IStruktosMiddleware := {| invoke := Proceed Ret |}.

Definition echoHandler : Handler :=
  {| h_calls := [RespondOk "Echo: Hello"]; h_return := Returns; h_later := [] |}.

(** A middleware that marks the response sent with status 400 and then
    calls [next], and one that does so and returns. *)
Definition markBadRequest (s : MiddlewareState) : MiddlewareState :=
  set_response {| resp_status := 400;
                  resp_body := resp_body (ms_response s);
                  resp_sent := true |} s.

Definition badRequestThenNext : IStruktosMiddleware :=
  {| invoke := Step markBadRequest (Proceed Ret) |}.

Definition rejectBadRequest : IStruktosMiddleware :=
  {| invoke := Step markBadRequest Ret |}.

(** A server-streaming method and a call to it: stream members present,
    no callback passed. *)
Definition listUsers : MethodDefinition :=
  {| md_service := "example.Users"; md_method := "ListUsers";
     md_path := "/example.Users/ListUsers";
     md_requestStream := false; md_responseStream := true |}.

Definition streamCall : GrpcCall :=
  {| call_metadata := Some ∅;
     call_peer := Some "127.0.0.1:12345";
     call_deadline := None;
     call_isStream := true |}.

(** A call whose deadline lies one millisecond before the clock value
    1700000000000 used in the samples. *)
Definition expiredCall : GrpcCall :=
  {| call_metadata := Some ∅;
     call_peer := Some "127.0.0.1:12345";
     call_deadline := Some (DlDate 1699999999999);
     call_isStream := false |}.

Definition validationError : JsError :=
  {| err_message := "Name is required"; err_statusCode := Some 400;
     err_status := None; err_code := None |}.

Definition throwsValidation : IStruktosMiddleware :=
  {| invoke := Throw validationError |}.

Definition markNullBody (s : MiddlewareState) : MiddlewareState :=
  set_response {| resp_status := 400; resp_body := BodyNull; resp_sent := true |} s.

Definition rejectWithNullBody : IStruktosMiddleware :=
  {| invoke := Step markNullBody Ret |}.

(** The limiter of the specification's scenario, and the run a call from
    peer 127.0.0.1:12345 starts from at a given clock value and with a
    given content of the limiter's map. *)
Definition twoPerTenSeconds : IStruktosMiddleware :=
  StruktosInterceptor.createRateLimitInterceptor 2 10000.

Definition runAt (now : Z) (requests : gmap string (list Z)) : Run :=
  startRun (initialState defaultOptions sayHello now "0.4fzyo82mvyr" "0.k2j5"
              requests plainCall).

(** A [next] that leaves a mark. *)
Definition markingNext (r : Run) : Completion * Run :=
  (Normal, emit HandlerInvoked r).

(** A middleware that calls [next] twice. *)
Definition proceedsTwice : IStruktosMiddleware :=
  {| invoke := Proceed (Proceed Ret) |}.

(** * Further code of the repository *)

(** ** src/utils/id-generator.ts: the remaining generators *)

Module IdGeneratorMore.

(** [Number.prototype.toString(16)] on an integer. *)
Definition digit16 (d : Z) : ascii :=
  if d <? 10 then ascii_of_nat (Z.to_nat (48 + d))
  else ascii_of_nat (Z.to_nat (87 + d)).

Fixpoint digits16 (fuel : nat) (n : Z) (rest : string) : string :=
  match fuel with
  | O => rest
  | S f =>
      let rest' := String (digit16 (n mod 16)) rest in
      if n / 16 =? 0 then rest' else digits16 f (n / 16) rest'
  end.

Definition toString16 (n : Z) : string :=
  if n <? 0
  then String "-" (digits16 (IdGenerator.digit_budget (- n)) (- n) "")
  else digits16 (IdGenerator.digit_budget n) n "".

(** [generateShortId()]; [rnd] is [Math.random().toString(36)]. *)
Definition generateShortId (rnd : string) : string := String.substring 2 8 rnd.

Definition uuidTemplate : string := "xxxxxxxx-xxxx-4xxx-yxxx-xxxxxxxxxxxx".

(** The callback handed to [replace(/[xy]/g, ...)]; [r] is
    [(Math.random() * 16) | 0]. *)
Definition uuidDigit (c : ascii) (r : Z) : string :=
  let v := if Ascii.eqb c "x" then r else Z.lor (Z.land r 3) 8 in
  toString16 v.

(** [replace] walks the template from left to right; the k-th match
    takes the k-th draw [rand k]. *)
Fixpoint uuidFill (template : string) (k : nat) (rand : nat -> Z) : string :=
  match template with
  | EmptyString => EmptyString
  | String c rest =>
      if Ascii.eqb c "x" || Ascii.eqb c "y"
      then uuidDigit c (rand k) ++ uuidFill rest (S k) rand
      else String c (uuidFill rest k rand)
  end.

Definition generateUUID (rand : nat -> Z) : string :=
  uuidFill uuidTemplate 0 rand.

End IdGeneratorMore.

(** Characters of the lower-case alphanumeric and hexadecimal alphabets. *)
Definition isLowerAlnum (c : ascii) : bool :=
  let n := nat_of_ascii c in
  (((48 <=? n) && (n <=? 57)) || ((97 <=? n) && (n <=? 122)))%nat.

Definition isHex (c : ascii) : bool :=
  let n := nat_of_ascii c in
  (((48 <=? n) && (n <=? 57)) || ((97 <=? n) && (n <=? 102)))%nat.

Fixpoint allChars (p : ascii -> bool) (s : string) : bool :=
  match s with
  | EmptyString => true
  | String c s' => p c && allChars p s'
  end.

(** Draws that are what [(Math.random() * 16) | 0] can be. *)
Definition nibbles (rand : nat -> Z) : Prop := forall k, 0 <= rand k < 16.

Definition countUp (k : nat) : Z := Z.of_nat k mod 16.

(** A string follows a template in which [x] stands for any hexadecimal
    digit, [y] for one of [8], [9], [a], [b], and every other character
    for itself. *)
Fixpoint matchesTemplate (template s : string) : bool :=
  match template, s with
  | EmptyString, EmptyString => true
  | String p template', String c s' =>
      (if Ascii.eqb p "x" then isHex c
       else if Ascii.eqb p "y"
            then Ascii.eqb c "8" || Ascii.eqb c "9" || Ascii.eqb c "a"
                 || Ascii.eqb c "b"
            else Ascii.eqb p c)
      && matchesTemplate template' s'
  | _, _ => false
  end.

(** The first value of the request-id header of a call, if it has one. *)
Definition requestHeader (call : GrpcCall) : option string :=
  ContextFactory.extractRequestId (ContextFactory.extractMetadata call).

(** The first value of the user-id header of a call, if it has one. *)
Definition userHeader (call : GrpcCall) : option string :=
  ContextFactory.extractUserId (ContextFactory.extractMetadata call).

(** Delivery of a sequence of transport events, in order. *)
Definition deliverAll (options : GrpcAdapterOptions) (events : list CallEvent)
    (tok : CancellationToken) : CancellationToken :=
  fold_left (fun t ev => ContextFactory.deliver options ev t) events tok.

(** Events that are no cancellation signal: "close", and errors that are
    not cancellation-related. *)
Definition benign (ev : CallEvent) : Prop :=
  match ev with
  | OnClose => True
  | OnError e => ContextFactory.isCancellationError e = false
  | OnCancelled | OnDeadlineTimer => False
  end.

(** The call an upstream service would make with the metadata this
    adapter sent back. *)
Definition callCarrying (metadata : gmap string (list string)) : GrpcCall :=
  {| call_metadata := Some metadata;
     call_peer := None;
     call_deadline := None;
     call_isStream := false |}.

Definition futureCall : GrpcCall :=
  {| call_metadata := Some ∅;
     call_peer := Some "127.0.0.1:12345";
     call_deadline := Some (DlNumber 1700000005000);
     call_isStream := false |}.

(** A deadline thirty days ahead of the clock of the samples. *)
Definition distantCall : GrpcCall :=
  {| call_metadata := Some ∅;
     call_peer := Some "127.0.0.1:12345";
     call_deadline := Some (DlNumber 1702592000000);
     call_isStream := false |}.

(** A numeric deadline no [Date] can hold. *)
Definition unrepresentableDeadlineCall : GrpcCall :=
  {| call_metadata := Some ∅;
     call_peer := Some "127.0.0.1:12345";
     call_deadline := Some (DlNumber 9000000000000000);
     call_isStream := false |}.

Definition callWithIds : GrpcCall :=
  {| call_metadata :=
       Some (<[ "x-request-id" := ["req-456"] ]>
               (<[ "x-user-id" := ["user-789"] ]>
                  {[ "x-trace-id" := ["custom-trace-123"] ]}));
     call_peer := Some "127.0.0.1:12345";
     call_deadline := None;
     call_isStream := false |}.

Definition optionsWithExtractor : GrpcAdapterOptions :=
  {| opt_generateTraceId := None;
     opt_generateRequestId := Some (Some "custom-req-id");
     opt_extractUserId := Some (fun _ => Some "custom-user");
     opt_metadataTransformer := None;
     opt_enableCancellation := None; opt_errorTransformer := None;
     opt_onRequestComplete := None |}.

Definition optionsWithTransformer : GrpcAdapterOptions :=
  {| opt_generateTraceId := None;
     opt_generateRequestId := None;
     opt_extractUserId := None;
     opt_metadataTransformer :=
       Some (fun _ => {| patch_traceId := Some "tenant-trace";
                         patch_requestId := None;
                         patch_userId := None |});
     opt_enableCancellation := None; opt_errorTransformer := None;
     opt_onRequestComplete := None |}.

(** ** Vocabulary for the further properties of the pipeline *)

(** [throws e p]: every path of the body ends in [throw e], without a
    call of [next] before it. *)
Inductive throws (e : JsError) : Prog -> Prop :=
| throws_here : throws e (Throw e)
| throws_step f k : throws e k -> throws e (Step f k)
| throws_branch t k1 k2 :
    throws e k1 -> throws e k2 -> throws e (Branch t k1 k2).

(** What a piece of straight-line middleware code does to the state it
    runs on. *)
Definition guarded (f : MiddlewareState -> MiddlewareState)
    (s : MiddlewareState) : MiddlewareState :=
  run_state (after_step f (startRun s)).

(** A middleware that runs [before], awaits [next()], then runs [after]. *)
Definition around (layer : (MiddlewareState -> MiddlewareState)
                           * (MiddlewareState -> MiddlewareState))
  : IStruktosMiddleware :=
  {| invoke := Step (fst layer) (Proceed (Step (snd layer) Ret)) |}.

(** The layers applied as nested brackets: the code before [next()] of
    the first, then of the second, ... and the code after [next()] in the
    opposite order. *)
Fixpoint nested (layers : list ((MiddlewareState -> MiddlewareState)
                                * (MiddlewareState -> MiddlewareState)))
    (s : MiddlewareState) : MiddlewareState :=
  match layers with
  | [] => s
  | layer :: rest => guarded (snd layer) (nested rest (guarded (fst layer) s))
  end.

(** What the configured (else the default) error transformer makes of
    an error: a status object, or what it throws. *)
Definition transformed (options : GrpcAdapterOptions) (e : JsError)
  : JsError + StatusObject :=
  match opt_errorTransformer options with
  | Some transformer => transformer e
  | None => inr (StatusTranslator.defaultErrorTransformer e)
  end.

(** How an error is reported. With a callback: one call of it with the
    status object the error transformer makes of the error, or, when the
    transformer throws, no call at all and an error nothing handles.
    Without a callback: a line on the console. *)
Definition report (options : GrpcAdapterOptions) (callback : bool)
    (e : JsError) : Event :=
  if callback then
    match transformed options e with
    | inr statusObject => CallbackCalled (CbStatus statusObject)
    | inl thrown => Uncaught thrown
    end
  else ConsoleError e.


(** What the wrapper does once the promise of [callOriginalMethod] has
    settled: after a fulfilment the completion hook, and the report of
    what the hook throws; after a rejection the report of the error. *)
Definition completion (options : GrpcAdapterOptions) (callback : bool)
    (p : Settled) : list Event :=
  match p with
  | Pending => []
  | Rejected e => [report options callback e]
  | Resolved =>
      match opt_onRequestComplete options with
      | None => []
      | Some None => [RequestCompleteHook]
      | Some (Some e) => [RequestCompleteHook; report options callback e]
      end
  end.

(** Events that follow the entry into the handler, or take its place. *)
Definition isAftermath (ev : Event) : bool :=
  match ev with
  | CallbackCalled _ | ConsoleError _ | RequestCompleteHook | Uncaught _ => true
  | MiddlewareInvoked _ | MetadataSent _ _ | HandlerInvoked => false
  end.

(** The handler is reached: the chain completed, the response is not
    marked sent and the context is not cancelled. *)
Definition handlerReached (chain : Completion * Run) : Prop :=
  fst chain = Normal
  /\ resp_sent (ms_response (run_state (snd chain))) = false
  /\ isCancelled (ms_token (run_state (snd chain))) = false.

(** The responses among the calls a handler makes. *)
Fixpoint responses (calls : list HandlerCall) : list Event :=
  match calls with
  | [] => []
  | RespondOk body :: rest => CallbackCalled (CbResponse body) :: responses rest
  | RespondError _ :: rest => responses rest
  end.

(** What a call of [wrappedCallback] does to a pending promise. *)
Definition signalOf (c : HandlerCall) : Settled :=
  match c with
  | RespondOk _ => Resolved
  | RespondError e => Rejected e
  end.

(** The first thing a handler signals before it returns decides the
    promise: a call of the callback, or else a throw. *)
Definition firstSignal (method : Handler) : Settled :=
  match h_calls method with
  | c :: _ => signalOf c
  | [] => match h_return method with
          | Throws e => Rejected e
          | _ => Pending
          end
  end.

(** The rejection of an async handler's promise, which nothing handles. *)
Definition uncaught (method : Handler) : list Event :=
  match h_return method with
  | Async (RejectsWith e) => [Uncaught e]
  | _ => []
  end.

(** What follows the calls a unary handler made before it returned, for
    an invocation that was passed a callback: if the promise has settled
    by then, the completion and then every response passed later; if it
    is still pending, the first later call settles it, and the
    completion follows that call. *)
Definition resumed (options : GrpcAdapterOptions) (p : Settled)
    (later : list HandlerCall) : list Event :=
  match p, later with
  | Pending, [] => []
  | Pending, c :: rest =>
      (responses [c] ++ completion options true (signalOf c)
       ++ responses rest)%list
  | _, _ => (completion options true p ++ responses later)%list
  end.

Definition setStatus (status : Z) (s : MiddlewareState) : MiddlewareState :=
  set_response {| resp_status := status;
                  resp_body := resp_body (ms_response s);
                  resp_sent := resp_sent (ms_response s) |} s.

Definition notFoundError : JsError :=
  {| err_message := "User not found"; err_statusCode := None;
     err_status := None; err_code := Some (NumCode 5) |}.

(** A run with further events appended. *)
Definition addEvents (events : list Event) (r : Run) : Run :=
  {| run_state := run_state r;
     run_index := run_index r;
     run_events := (run_events r ++ events)%list |}.

(** What the caller's callback receives when the handler is handed the
    callback itself. *)
Definition directEvents (calls : list HandlerCall) : list Event :=
  map (fun c => CallbackCalled match c with
                               | RespondOk body => CbResponse body
                               | RespondError e => CbRawError e
                               end) calls.

(** The trailing metadata and the entry into the handler. *)
Definition handlerEntry (r : Run) : list Event :=
  let data := ContextFactory.rc_data (context (ms_ctx (run_state r))) in
  [MetadataSent (traceId data) (requestId data); HandlerInvoked].

Definition respondsThenFails : Handler :=
  {| h_calls := [RespondOk "Echo: Hello"; RespondError notFoundError];
     h_return := Returns; h_later := [] |}.

Definition failsThenResponds : Handler :=
  {| h_calls := [RespondError notFoundError; RespondOk "Echo: Hello"];
     h_return := Returns; h_later := [] |}.

Definition silentHandler : Handler := {| h_calls := []; h_return := Returns; h_later := [] |}.

Definition optionsWithHook : GrpcAdapterOptions :=
  {| opt_generateTraceId := None; opt_generateRequestId := None;
     opt_extractUserId := None; opt_metadataTransformer := None;
     opt_enableCancellation := None; opt_errorTransformer := None;
     opt_onRequestComplete := Some None |}.

Definition clientStreamCall : GrpcCall :=
  {| call_metadata := Some ∅;
     call_peer := Some "127.0.0.1:12345";
     call_deadline := None;
     call_isStream := true |}.

(** The events by which the wrapper reports an outcome itself: a status
    object passed to the callback, a line on the console, or what the
    error transformer threw. *)
Definition isReport (ev : Event) : Prop :=
  (exists s, ev = CallbackCalled (CbStatus s))
  \/ (exists e, ev = ConsoleError e)
  \/ (exists e, ev = Uncaught e).

(** An async handler that throws before it has called back. *)
Definition asyncThrower : Handler :=
  {| h_calls := []; h_return := Async (RejectsWith notFoundError);
     h_later := [] |}.

(** An async handler that answers after an [await]. *)
Definition answersLater : Handler :=
  {| h_calls := []; h_return := Async Fulfils;
     h_later := [RespondOk "Echo: Hello"] |}.

Definition hookError : JsError :=
  {| err_message := "metrics sink unavailable"; err_statusCode := None;
     err_status := None; err_code := None |}.

Definition transformerError : JsError :=
  {| err_message := "Cannot read properties of undefined (reading 'code')";
     err_statusCode := None; err_status := None; err_code := None |}.

(** An error transformer that throws on every error. *)
Definition optionsWithThrowingTransformer : GrpcAdapterOptions :=
  {| opt_generateTraceId := None; opt_generateRequestId := None;
     opt_extractUserId := None; opt_metadataTransformer := None;
     opt_enableCancellation := None;
     opt_errorTransformer := Some (fun _ => inl transformerError);
     opt_onRequestComplete := None |}.

Definition optionsWithThrowingHook : GrpcAdapterOptions :=
  {| opt_generateTraceId := None; opt_generateRequestId := None;
     opt_extractUserId := None; opt_metadataTransformer := None;
     opt_enableCancellation := None; opt_errorTransformer := None;
     opt_onRequestComplete := Some (Some hookError) |}.


(** Every list of the limiter's map has at most [bound] entries. *)
Definition listsWithin (bound : Z) (requests : gmap string (list Z)) : Prop :=
  forall k stamps, requests !! k = Some stamps -> Z.of_nat (length stamps) <= bound.

(** The run the limiter hands on: refused, or recorded. *)
Definition limited (maxRequests windowMs : Z) (r : Run) : Run :=
  if StruktosInterceptor.rateLimitFull maxRequests windowMs (run_state r)
  then after_step StruktosInterceptor.rateLimitRefuse r
  else after_step (StruktosInterceptor.rateLimitRecord windowMs) r.

Definition stoppingNext (r : Run) : Completion * Run := (Normal, r).

(** ** src/interceptors/struktos-interceptor.ts: wrapping a service *)

(** An entry of a service implementation object: a function, or some
    other value. *)
Inductive ImplEntry :=
| ImplFunction (method : Handler)
| ImplValue (value : string).

(** An entry of the wrapped object: [WrappedFunction method methodDef]
    is [wrapMethod(method.bind(implementation), methodDef)]. *)
Inductive WrappedEntry :=
| WrappedFunction (method : Handler) (methodDef : MethodDefinition)
| WrappedValue (value : string).

Module StruktosInterceptorMore.

Import StruktosInterceptor.

(** [wrapService]; an object is the list of its entries in
    [Object.entries] order. *)
Definition wrapService (serviceName : string)
    (implementation : list (string * ImplEntry))
    (methodDefinitions : gmap string MethodDefinition)
  : list (string * WrappedEntry) :=
  map (fun entry =>
         let '(methodName, originalMethod) := entry in
         match originalMethod with
         | ImplValue value => (methodName, WrappedValue value)
         | ImplFunction method =>
             let methodDef :=
               match methodDefinitions !! methodName with
               | Some def => def
               | None =>
                   {| md_service := serviceName;
                      md_method := methodName;
                      md_path := "/" ++ serviceName ++ "/" ++ methodName;
                      md_requestStream := false;
                      md_responseStream := false |}
               end in
             (methodName, WrappedFunction method methodDef)
         end) implementation.

(** [await next(call, callback)]: [next] is handed the caller's callback
    as it is. What a plain function does after it has returned comes
    after the wrapper has moved on; the promise of an async function is
    awaited, so what its body does later comes first, and an exception
    in its body is thrown by the [await]. *)
Definition awaitNext (options : GrpcAdapterOptions) (next : Handler)
    (callback : bool) (r : Run) : Outcome * Run :=
  let r := emit HandlerInvoked r in
  match callDirect callback (h_calls next) r with
  | (Thrown e, r') => (Returned, handleError options e callback r')
  | (_, r') =>
      match h_return next with
      | Throws e =>
          laterCalls options false callback (h_later next) None Returned
            (handleError options e callback r')
      | Returns =>
          let '(o, r'') := complete options callback Resolved r' in
          laterCalls options false callback (h_later next) None o r''
      | Async fate =>
          match callDirect callback (h_later next) r' with
          | (Thrown e, r'') => (Returned, handleError options e callback r'')
          | (_, r'') =>
              complete options callback
                match fate with
                | Fulfils => Resolved
                | RejectsWith e => Rejected e
                | StaysPending => Pending
                end r''
          end
      end
  end.

(** The function [createInterceptor] returns. *)
Definition createInterceptor (options : GrpcAdapterOptions)
    (middlewares : list IStruktosMiddleware) (methodDef : MethodDefinition)
    (now : Z) (rnd1 rnd2 : string) (requests : gmap string (list Z))
    (call : GrpcCall) (callback : bool) (next : Handler) : Outcome * Run :=
  ContextFactory.runWithContext options now rnd1 rnd2 call methodDef
    (fun ctx =>
       let middlewareCtx := createMiddlewareContext call methodDef ctx in
       let r0 := {| run_state := {| ms_ctx := middlewareCtx;
                                    ms_now := now;
                                    ms_requests := requests |};
                    run_index := O;
                    run_events := [] |} in
       match executePipeline middlewares r0 with
       | (OutOfFuel, r) => (Unfinished, r)
       | (Thrown e, r) => (Returned, handleError options e callback r)
       | (Normal, r) =>
           if resp_sent (ms_response (run_state r)) then
             match sendErrorResponse callback (ms_response (run_state r)) r with
             | (Thrown e, r') => (Returned, handleError options e callback r')
             | (_, r') => (Returned, r')
             end
           else if isCancelled (ms_token (run_state r)) then
             (Returned, sendCancelledResponse callback r)
           else awaitNext options next callback r
       end).

End StruktosInterceptorMore.

Definition greeterImplementation : list (string * ImplEntry) :=
  [("SayHello", ImplFunction echoHandler);
   ("version", ImplValue "1.0");
   ("SayGoodbye", ImplFunction silentHandler)].

(** What the function returned by [createInterceptor] does once the
    chain has ended. *)
Definition afterChainDirect (options : GrpcAdapterOptions) (next : Handler)
    (callback : bool) (cr : Completion * Run) : Outcome * Run :=
  match cr with
  | (OutOfFuel, r) => (Unfinished, r)
  | (Thrown e, r) => (Returned, StruktosInterceptor.handleError options e callback r)
  | (Normal, r) =>
      if resp_sent (ms_response (run_state r)) then
        match StruktosInterceptor.sendErrorResponse callback
                (ms_response (run_state r)) r with
        | (Thrown e, r') => (Returned, StruktosInterceptor.handleError options e callback r')
        | (_, r') => (Returned, r')
        end
      else if isCancelled (ms_token (run_state r)) then
        (Returned, StruktosInterceptor.sendCancelledResponse callback r)
      else StruktosInterceptorMore.awaitNext options next callback r
  end.

(** An async [next] whose promise never settles. *)
Definition neverSettles : Handler :=
  {| h_calls := []; h_return := Async StaysPending; h_later := [] |}.

(** ** src/adapter/grpc-adapter.ts *)

From Stdlib Require DecimalString.

(** [ServingStatus] of src/types. *)
Inductive ServingStatus :=
| UNKNOWN
| SERVING
| NOT_SERVING
| SERVICE_UNKNOWN.

(** A method of a grpc-js service definition, as far as the adapter
    reads it; an absent property is [None]. *)
Record MethodEntry := {
  me_path : option string;
  me_requestStream : option bool;
  me_responseStream : option bool
}.

(** A service definition is the list of its entries in [Object.entries]
    order. *)
Definition ServiceDefinition : Type := list (string * MethodEntry).

Record GrpcServiceDefinition := {
  gs_definition : ServiceDefinition;
  gs_implementation : list (string * ImplEntry)
}.

(** What [start] hands to the server for a service: the implementation
    as registered, or the object [wrapService] made of it. *)
Inductive ServiceImplementation :=
| PlainImplementation (implementation : list (string * ImplEntry))
| WrappedImplementation (implementation : list (string * WrappedEntry)).

(** The grpc-js server, as far as the adapter fills it. *)
Definition Server : Type := list (ServiceDefinition * ServiceImplementation).

Record ServerInfo := {
  si_protocol : string;
  si_host : string;
  si_port : Z;
  si_url : string;
  si_services : list string
}.

(** The constructor's options: the options the interceptor reads, the
    adapter's name and [serverOptions['grpc.health_check_enabled']]. *)
Record AdapterOptions := {
  ao_options : GrpcAdapterOptions;
  ao_name : option string;
  ao_healthCheckEnabled : option bool
}.

(** The raw call [transformRequest] is given. *)
Record RawCall := {
  raw_call : GrpcCall;
  raw_path : option string
}.

(** [s.split('/')]. *)
Fixpoint split_slash (s : string) : list string :=
  match s with
  | EmptyString => [EmptyString]
  | String c s' =>
      match split_slash s' with
      | [] => [EmptyString]
      | p :: ps =>
          if Ascii.eqb c "/" then EmptyString :: p :: ps
          else String c p :: ps
      end
  end.

(** An integer in a template literal: its decimal digits. *)
Definition toString10 (n : Z) : string :=
  DecimalString.NilZero.string_of_int (Z.to_int n).

(** [Map.prototype.set] on a map whose iteration order matters: an
    existing key keeps its place. *)
Fixpoint map_set {A : Type} (key : string) (value : A)
    (entries : list (string * A)) : list (string * A) :=
  match entries with
  | [] => [(key, value)]
  | (k, v) :: rest =>
      if String.eqb k key then (key, value) :: rest
      else (k, v) :: map_set key value rest
  end.

Definition alreadyRunning : JsError :=
  {| err_message := "gRPC server is already running";
     err_statusCode := None; err_status := None; err_code := None |}.

Module GrpcStruktosAdapter.

Record Adapter := {
  options : AdapterOptions;
  server : option Server;
  running : bool;
  services : list (string * GrpcServiceDefinition);
  methodDefinitions : gmap string (gmap string MethodDefinition);
  interceptor : option (list IStruktosMiddleware);
  healthStatus : gmap string ServingStatus
}.

(** The constructor. *)
Definition new (opts : AdapterOptions) : Adapter :=
  {| options := opts;
     server := None;
     running := false;
     services := [];
     methodDefinitions := ∅;
     interceptor := None;
     healthStatus := {[ "" := SERVING ]} |}.

Definition name (a : Adapter) : string :=
  match ao_name (options a) with
  | Some n => n
  | None => "grpc-adapter"
  end.

Definition init (middlewares : list IStruktosMiddleware) (a : Adapter)
  : Adapter :=
  {| options := options a;
     server := server a;
     running := running a;
     services := services a;
     methodDefinitions := methodDefinitions a;
     interceptor := Some middlewares;
     healthStatus := healthStatus a |}.

Definition isRunning (a : Adapter) : bool := running a.

Definition addHealthCheckService (health : gmap string ServingStatus)
  : gmap string ServingStatus :=
  <[ "__health_check_enabled__" := SERVING ]> health.

(** [start]. [bind] is what [bindAsync] reports: an error or the bound
    port. The lifecycle hooks are not defined by the class. A service
    whose method definitions are missing would make [wrapService] fail;
    [addService] always stores them. The server is taken to accept every
    registered service: [server.addService] throws for a service
    definition without methods and for a method registered twice, and
    [start] then fails before the health check is added. *)
Definition start (port : option Z) (host : option string)
    (bind : JsError + Z) (a : Adapter) : (JsError + ServerInfo) * Adapter :=
  if running a then (inl alreadyRunning, a)
  else
    let actualPort := default 50051 port in
    let actualHost := default "0.0.0.0" host in
    let srv : Server :=
      map (fun entry : string * GrpcServiceDefinition =>
             let '(serviceName, service) := entry in
             (gs_definition service,
              match interceptor a with
              | Some _ =>
                  WrappedImplementation
                    (StruktosInterceptorMore.wrapService serviceName
                       (gs_implementation service)
                       (default ∅ (methodDefinitions a !! serviceName)))
              | None => PlainImplementation (gs_implementation service)
              end)) (services a) in
    let health :=
      match ao_healthCheckEnabled (options a) with
      | Some false => healthStatus a
      | _ => addHealthCheckService (healthStatus a)
      end in
    match bind with
    | inl error =>
        (inl error,
         {| options := options a;
            server := Some srv;
            running := false;
            services := services a;
            methodDefinitions := methodDefinitions a;
            interceptor := interceptor a;
            healthStatus := health |})
    | inr boundPort =>
        (inr {| si_protocol := "grpc";
                si_host := actualHost;
                si_port := boundPort;
                si_url := "grpc://" ++ actualHost ++ ":" ++ toString10 boundPort;
                si_services := map fst (services a) |},
         {| options := options a;
            server := Some srv;
            running := true;
            services := services a;
            methodDefinitions := methodDefinitions a;
            interceptor := interceptor a;
            healthStatus := health |})
    end.

Definition stop (a : Adapter) : Adapter :=
  match running a, server a with
  | true, Some _ =>
      {| options := options a;
         server := None;
         running := false;
         services := services a;
         methodDefinitions := methodDefinitions a;
         interceptor := interceptor a;
         healthStatus := healthStatus a |}
  | _, _ => a
  end.

(** [transformRequest], the fields of the request that are modelled. *)
Definition transformRequest (raw : RawCall) : StruktosRequest :=
  let path := js_or_str (raw_path raw) "/unknown/method" in
  let parts := split_slash path in
  {| req_path := path;
     req_service := js_or_str (nth_error parts 1) "";
     req_method := js_or_str (nth_error parts 2) "";
     req_ip := call_peer (raw_call raw) |}.

Fixpoint extractServiceName (definition : ServiceDefinition) (now : Z)
  : string :=
  match definition with
  | [] => "service_" ++ toString10 now
  | (_, method) :: rest =>
      match me_path method with
      | Some path =>
          match split_slash path with
          | _ :: serviceName :: _ => serviceName
          | _ => extractServiceName rest now
          end
      | None => extractServiceName rest now
      end
  end.

Definition extractMethodDefinitions (serviceName : string)
    (definition : ServiceDefinition) : gmap string MethodDefinition :=
  fold_left
    (fun (methods : gmap string MethodDefinition)
         (entry : string * MethodEntry) =>
       let '(methodName, method) := entry in
       <[ methodName :=
            {| md_service := serviceName;
               md_method := methodName;
               md_path := js_or_str (me_path method)
                            ("/" ++ serviceName ++ "/" ++ methodName);
               md_requestStream := default false (me_requestStream method);
               md_responseStream := default false (me_responseStream method) |} ]>
         methods)
    definition ∅.

Definition addService (definition : ServiceDefinition)
    (implementation : list (string * ImplEntry)) (now : Z) (a : Adapter)
  : Adapter :=
  let serviceName := extractServiceName definition now in
  {| options := options a;
     server := server a;
     running := running a;
     services := map_set serviceName
                   {| gs_definition := definition;
                      gs_implementation := implementation |} (services a);
     methodDefinitions :=
       <[ serviceName := extractMethodDefinitions serviceName definition ]>
         (methodDefinitions a);
     interceptor := interceptor a;
     healthStatus := <[ serviceName := SERVING ]> (healthStatus a) |}.

Definition setHealthStatus (serviceName : string) (status : ServingStatus)
    (a : Adapter) : Adapter :=
  {| options := options a;
     server := server a;
     running := running a;
     services := services a;
     methodDefinitions := methodDefinitions a;
     interceptor := interceptor a;
     healthStatus := <[ serviceName := status ]> (healthStatus a) |}.

(** [getHealthStatus(serviceName = '')]. *)
Definition getHealthStatus (serviceName : option string) (a : Adapter)
  : ServingStatus :=
  default SERVICE_UNKNOWN (healthStatus a !! default "" serviceName).

End GrpcStruktosAdapter.

(** The calls a program can make on an adapter. *)
Inductive AdapterCall :=
| CallInit (middlewares : list IStruktosMiddleware)
| CallStart (port : option Z) (host : option string) (bind : JsError + Z)
| CallStop
| CallAddService (definition : ServiceDefinition)
    (implementation : list (string * ImplEntry)) (now : Z)
| CallSetHealthStatus (serviceName : string) (status : ServingStatus).

Definition adapterCall (a : GrpcStruktosAdapter.Adapter) (c : AdapterCall)
  : GrpcStruktosAdapter.Adapter :=
  match c with
  | CallInit middlewares => GrpcStruktosAdapter.init middlewares a
  | CallStart port host bind =>
      snd (GrpcStruktosAdapter.start port host bind a)
  | CallStop => GrpcStruktosAdapter.stop a
  | CallAddService definition implementation now =>
      GrpcStruktosAdapter.addService definition implementation now a
  | CallSetHealthStatus serviceName status =>
      GrpcStruktosAdapter.setHealthStatus serviceName status a
  end.

(** The adapter after a sequence of calls on a new one. *)
Definition adapterAfter (opts : AdapterOptions) (calls : list AdapterCall)
  : GrpcStruktosAdapter.Adapter :=
  fold_left adapterCall calls (GrpcStruktosAdapter.new opts).

Fixpoint slashless (s : string) : bool :=
  match s with
  | EmptyString => true
  | String c s' => negb (Ascii.eqb c "/") && slashless s'
  end.

Definition defaultAdapterOptions : AdapterOptions :=
  {| ao_options := defaultOptions; ao_name := None;
     ao_healthCheckEnabled := None |}.

Definition greeterDefinition : ServiceDefinition :=
  [("SayHello",
    {| me_path := Some "/example.Greeter/SayHello";
       me_requestStream := Some false; me_responseStream := Some false |});
   ("SayGoodbye",
    {| me_path := None; me_requestStream := None;
       me_responseStream := None |})].

Definition bindRefused : JsError :=
  {| err_message := "address already in use";
     err_statusCode := None; err_status := None;
     err_code := Some (StrCode "EADDRINUSE") |}.

(** The method definition [extractMethodDefinitions] stores for an
    entry. *)
Definition methodDefinitionOf (serviceName methodName : string)
    (method : MethodEntry) : MethodDefinition :=
  {| md_service := serviceName;
     md_method := methodName;
     md_path := js_or_str (me_path method)
                  ("/" ++ serviceName ++ "/" ++ methodName);
     md_requestStream := default false (me_requestStream method);
     md_responseStream := default false (me_responseStream method) |}.

(** What holds of an adapter between calls. *)
Record adapterConsistent (a : GrpcStruktosAdapter.Adapter) : Prop := {
  consistent_keys : List.NoDup (map fst (GrpcStruktosAdapter.services a));
  consistent_methods :
    forall serviceName service,
      In (serviceName, service) (GrpcStruktosAdapter.services a) ->
      GrpcStruktosAdapter.methodDefinitions a !! serviceName
      = Some (GrpcStruktosAdapter.extractMethodDefinitions serviceName
                (gs_definition service));
  consistent_health :
    forall serviceName,
      In serviceName (map fst (GrpcStruktosAdapter.services a)) ->
      is_Some (GrpcStruktosAdapter.healthStatus a !! serviceName);
  consistent_overall : is_Some (GrpcStruktosAdapter.healthStatus a !! "");
  consistent_running :
    GrpcStruktosAdapter.running a = true ->
    is_Some (GrpcStruktosAdapter.server a)
}.

(** * Properties *)

(** ** Identifier generation and parsing *)

Section IdGeneratorFacts.

Import IdGenerator.

Lemma digit36_small (n : nat) :
  (n < 36)%nat ->
  digit_val (digit36 (Z.of_nat n)) = Some (Z.of_nat n) /\
  Ascii.eqb (digit36 (Z.of_nat n)) "-" = false /\
  Ascii.eqb (digit36 (Z.of_nat n)) "+" = false /\
  is_space (digit36 (Z.of_nat n)) = false.
Proof.
  intros Hn.
  do 36 (destruct n as [|n]; [vm_compute; auto|]).
  lia.
Qed.

Lemma digit36_facts (d : Z) :
  0 <= d < 36 ->
  digit_val (digit36 d) = Some d /\
  Ascii.eqb (digit36 d) "-" = false /\
  Ascii.eqb (digit36 d) "+" = false /\
  is_space (digit36 d) = false.
Proof.
  intros Hd.
  rewrite <- (Z2Nat.id d) by lia.
  apply digit36_small. lia.
Qed.

Lemma mod36_range (n : Z) : 0 <= n mod 36 < 36.
Proof. apply Z.mod_pos_bound. lia. Qed.

Lemma digits36_dashless (fuel : nat) :
  forall n rest, dashless rest = true -> dashless (digits36 fuel n rest) = true.
Proof.
  induction fuel as [|f IH]; intros n rest Hrest; simpl; [exact Hrest|].
  assert (Hd : dashless (String (digit36 (n mod 36)) rest) = true).
  { simpl. destruct (digit36_facts (n mod 36) (mod36_range n)) as (_ & -> & _).
    exact Hrest. }
  destruct (n / 36 =? 0); [exact Hd | apply IH; exact Hd].
Qed.

Lemma digits36_head (fuel : nat) :
  forall n rest, exists d s,
    0 <= d < 36 /\ digits36 (S fuel) n rest = String (digit36 d) s.
Proof.
  induction fuel as [|f IH]; intros n rest.
  - exists (n mod 36), rest. split; [apply mod36_range|].
    simpl. destruct (n / 36 =? 0); reflexivity.
  - change (digits36 (S (S f)) n rest)
      with (if n / 36 =? 0 then String (digit36 (n mod 36)) rest
            else digits36 (S f) (n / 36) (String (digit36 (n mod 36)) rest)).
    destruct (n / 36 =? 0).
    + exists (n mod 36), rest. split; [apply mod36_range | reflexivity].
    + apply IH.
Qed.

Lemma parse_digits_digits36 (fuel : nat) :
  forall n rest,
    0 <= n < 2 ^ Z.of_nat (S fuel) ->
    parse_digits (digits36 (S fuel) n rest) 0 false = parse_digits rest n true.
Proof.
  induction fuel as [|f IH]; intros n rest Hn.
  - assert (Hlt : n / 36 = 0) by (apply Z.div_small; simpl in Hn; lia).
    simpl digits36. rewrite Hlt. simpl.
    destruct (digit36_facts (n mod 36) (mod36_range n)) as (-> & _).
    rewrite Z.mod_small by (simpl in Hn; lia). reflexivity.
  - change (digits36 (S (S f)) n rest)
      with (if n / 36 =? 0 then String (digit36 (n mod 36)) rest
            else digits36 (S f) (n / 36) (String (digit36 (n mod 36)) rest)).
    destruct (Z.eqb_spec (n / 36) 0) as [Hz|Hz].
    + simpl.
      destruct (digit36_facts (n mod 36) (mod36_range n)) as (-> & _).
      replace (0 * 36 + n mod 36) with n; [reflexivity|].
      rewrite (Z.div_mod n 36) at 1 by lia. lia.
    + rewrite IH.
      * simpl.
        destruct (digit36_facts (n mod 36) (mod36_range n)) as (-> & _).
        replace (n / 36 * 36 + n mod 36) with n; [reflexivity|].
        rewrite (Z.div_mod n 36) at 1 by lia. lia.
      * assert (H2 : 2 ^ Z.of_nat (S (S f)) = 2 * 2 ^ Z.of_nat (S f)).
        { rewrite (Nat2Z.inj_succ (S f)). rewrite Z.pow_succ_r by lia. reflexivity. }
        split; [apply Z.div_pos; lia|].
        apply Z.div_lt_upper_bound; lia.
Qed.

Lemma digit_budget_enough (n : Z) :
  0 <= n -> exists f, digit_budget n = S f /\ n < 2 ^ Z.of_nat (S f).
Proof.
  intros Hn. exists (Z.to_nat (Z.log2 n)). split; [reflexivity|].
  rewrite Nat2Z.inj_succ, Z2Nat.id by apply Z.log2_nonneg.
  destruct (Z.eq_dec n 0) as [->|Hne]; [reflexivity|].
  apply Z.log2_spec. lia.
Qed.

Lemma parseInt36_toString36 (t : Z) :
  0 <= t -> parseInt36 (toString36 t) = Some t.
Proof.
  intros Ht. unfold toString36.
  destruct (Z.ltb_spec t 0) as [Hneg|_]; [lia|].
  destruct (digit_budget_enough t Ht) as (f & -> & Hlt).
  destruct (digits36_head f t "") as (d & s & Hd & Heq).
  destruct (digit36_facts d Hd) as (_ & Hdash & Hplus & Hsp).
  unfold parseInt36. rewrite Heq. simpl trim_start. rewrite Hsp.
  rewrite Hdash, Hplus. rewrite <- Heq.
  rewrite parse_digits_digits36 by lia. reflexivity.
Qed.

Lemma toString36_dashless (t : Z) : 0 <= t -> dashless (toString36 t) = true.
Proof.
  intros Ht. unfold toString36.
  destruct (Z.ltb_spec t 0) as [Hneg|_]; [lia|].
  apply digits36_dashless. reflexivity.
Qed.

Lemma split_dash_nonempty (s : string) : split_dash s <> [].
Proof.
  induction s as [|c s IH]; simpl; [discriminate|].
  destruct (split_dash s); [contradiction|].
  destruct (Ascii.eqb c "-"); discriminate.
Qed.

Lemma split_dash_segment (s1 s2 : string) :
  dashless s1 = true ->
  split_dash (s1 ++ String "-" s2) = s1 :: split_dash s2.
Proof.
  induction s1 as [|c s1 IH]; intros Hs1.
  - simpl. destruct (split_dash s2) eqn:E; [|reflexivity].
    exfalso. exact (split_dash_nonempty _ E).
  - simpl in Hs1. apply andb_prop in Hs1 as [Hc Hs1].
    simpl. rewrite (IH Hs1).
    apply negb_true_iff in Hc. rewrite Hc. reflexivity.
Qed.

End IdGeneratorFacts.

(** C10. Round trip of identifier generation and parsing: the trace id
    generated at clock time [t] (milliseconds since the epoch, so not
    negative) parses back to type "grpc" and timestamp exactly [t],
    whatever the random suffix; and an input parses to the empty record
    exactly when it has no parseable base-36 second segment. *)
Theorem parseTraceId_roundtrip :
  (forall (t : Z) (rnd : string),
      0 <= t ->
      IdGenerator.parseTraceId (IdGenerator.generateTraceId t rnd)
      = {| IdGenerator.timestamp := Some t; IdGenerator.type := Some "grpc" |})
  /\ (forall s : string,
         unparseable s <-> IdGenerator.parseTraceId s = IdGenerator.emptyParsed).
Proof.
  split.
  - intros t rnd Ht.
    unfold IdGenerator.parseTraceId, IdGenerator.generateTraceId.
    change ("grpc-" ++ IdGenerator.toString36 t ++ "-" ++ substring 2 8 rnd)
      with ("grpc" ++ String "-"
              (IdGenerator.toString36 t ++ String "-" (substring 2 8 rnd))).
    rewrite split_dash_segment by reflexivity.
    rewrite split_dash_segment by (apply toString36_dashless; exact Ht).
    destruct (IdGenerator.split_dash (substring 2 8 rnd)) eqn:E;
      [exfalso; exact (split_dash_nonempty _ E)|].
    rewrite parseInt36_toString36 by exact Ht. reflexivity.
  - intros s. unfold unparseable, IdGenerator.parseTraceId.
    destruct (IdGenerator.split_dash s) as [|ty [|seg rest]];
      [tauto | tauto |].
    destruct (IdGenerator.parseInt36 seg); split;
      (reflexivity || discriminate || tauto).
Qed.

Lemma parseTraceId_roundtrip_witness :
  IdGenerator.parseTraceId (IdGenerator.generateTraceId 1700000000000 "0.4fzyo82mvyr")
  = {| IdGenerator.timestamp := Some 1700000000000;
       IdGenerator.type := Some "grpc" |}
  /\ IdGenerator.parseTraceId "invalid" = IdGenerator.emptyParsed.
Proof.
  split.
  - apply (proj1 parseTraceId_roundtrip). lia.
  - apply (proj2 parseTraceId_roundtrip). vm_compute. exact I.
Defined.

Example generateTraceId_sample :
  IdGenerator.generateTraceId 1700000000000 "0.4fzyo82mvyr" = "grpc-loyw3v28-4fzyo82m".
Proof. vm_compute. reflexivity. Qed.

Example parseTraceId_other_prefix :
  IdGenerator.parseTraceId "http-abc123-xyz"
  = {| IdGenerator.timestamp := Some 623698779; IdGenerator.type := Some "http" |}.
Proof. vm_compute. reflexivity. Qed.

(** ** Status translation *)

Section StatusTranslatorFacts.

Import StatusTranslator.

Lemma mapping_outside (h : Z) : ~ In h taxonomy -> mapping !! h = None.
Proof.
  intros Hout. unfold mapping.
  repeat (rewrite lookup_insert_ne;
          [| intros <-; apply Hout; simpl; tauto]).
  apply lookup_empty.
Qed.

Lemma httpStatusToGrpcStatus_default (h : Z) :
  ~ In h taxonomy -> httpStatusToGrpcStatus h = GrpcStatus.INTERNAL.
Proof.
  intros Hout. unfold httpStatusToGrpcStatus.
  rewrite (mapping_outside h Hout). reflexivity.
Qed.

Lemma mapping_dom (h : Z) : is_Some (mapping !! h) <-> In h taxonomy.
Proof.
  split.
  - intros Hsome.
    destruct (in_dec Z.eq_dec h taxonomy) as [Hin|Hout]; [exact Hin|].
    rewrite (mapping_outside h Hout) in Hsome.
    destruct Hsome as [? ?]; discriminate.
  - intros Hin. simpl in Hin.
    repeat (destruct Hin as [<-|Hin]; [vm_compute; eauto|]).
    contradiction.
Qed.

Lemma defaultErrorTransformer_unmapped (e : JsError) :
  unmapped e -> so_code (defaultErrorTransformer e) = GrpcStatus.INTERNAL.
Proof.
  intros [Hcode Hstatus]. unfold defaultErrorTransformer. simpl.
  unfold numericCode in Hcode. unfold httpLikeStatus in Hstatus.
  assert (Hfirst :
    match js_or_num (err_statusCode e) (err_status e) with
    | Some sc =>
        if sc =? 0 then GrpcStatus.INTERNAL else httpStatusToGrpcStatus sc
    | None => GrpcStatus.INTERNAL
    end = GrpcStatus.INTERNAL).
  { destruct (js_or_num (err_statusCode e) (err_status e)) as [sc|];
      [|reflexivity].
    destruct (sc =? 0); [reflexivity|].
    apply httpStatusToGrpcStatus_default. apply Hstatus. reflexivity. }
  destruct (err_code e) as [[c|s]|]; [discriminate | exact Hfirst | exact Hfirst].
Qed.

End StatusTranslatorFacts.

(** C8. The translation table is total with the internal code as its
    default: each of the twelve generic statuses has its one protocol
    code, the table holds nothing else, every other status maps to
    INTERNAL, and an error that carries neither a numeric protocol code
    nor a recognised status is translated to INTERNAL by the default
    transformer and delivered as such through the callback. *)
Theorem status_translation_total :
  map StatusTranslator.httpStatusToGrpcStatus StatusTranslator.taxonomy
  = [GrpcStatus.OK; GrpcStatus.INVALID_ARGUMENT; GrpcStatus.UNAUTHENTICATED;
     GrpcStatus.PERMISSION_DENIED; GrpcStatus.NOT_FOUND;
     GrpcStatus.ALREADY_EXISTS; GrpcStatus.RESOURCE_EXHAUSTED;
     GrpcStatus.CANCELLED; GrpcStatus.INTERNAL; GrpcStatus.UNIMPLEMENTED;
     GrpcStatus.UNAVAILABLE; GrpcStatus.DEADLINE_EXCEEDED]
  /\ (forall h, is_Some (StatusTranslator.mapping !! h)
                <-> In h StatusTranslator.taxonomy)
  /\ (forall h, ~ In h StatusTranslator.taxonomy ->
                StatusTranslator.httpStatusToGrpcStatus h = GrpcStatus.INTERNAL)
  /\ (forall e, unmapped e ->
                so_code (StatusTranslator.defaultErrorTransformer e)
                = GrpcStatus.INTERNAL)
  /\ (forall options e r,
         opt_errorTransformer options = None ->
         unmapped e ->
         StruktosInterceptor.handleError options e true r
         = emit (CallbackCalled (CbStatus
                   {| so_code := GrpcStatus.INTERNAL;
                      so_details := err_message e;
                      so_metadata := [] |})) r).
Proof.
  split; [vm_compute; reflexivity|].
  split; [exact mapping_dom|].
  split; [exact httpStatusToGrpcStatus_default|].
  split; [exact defaultErrorTransformer_unmapped|].
  intros options e r Hnone Hun.
  unfold StruktosInterceptor.handleError. simpl. rewrite Hnone.
  pose proof (defaultErrorTransformer_unmapped e Hun) as Hc.
  destruct (StatusTranslator.defaultErrorTransformer e) as [c d m] eqn:E.
  simpl in Hc. subst c.
  unfold StatusTranslator.defaultErrorTransformer in E.
  injection E as _ <- <-. reflexivity.
Qed.

Lemma status_translation_total_witness :
  StatusTranslator.httpStatusToGrpcStatus 418 = GrpcStatus.INTERNAL
  /\ so_code (StatusTranslator.defaultErrorTransformer plainError)
     = GrpcStatus.INTERNAL.
Proof.
  destruct status_translation_total as (_ & _ & Hdef & Herr & _).
  split.
  - apply Hdef. simpl. lia.
  - apply Herr. split; [reflexivity|].
    intros h Hh. vm_compute in Hh. injection Hh as <-. simpl. lia.
Defined.

(** ** The cancellation bridge *)

Section StringFacts.

Lemma startsWith_spec (p : string) :
  forall s, startsWith s p = true <-> exists post, s = p ++ post.
Proof.
  induction p as [|a p IH]; intros s; simpl.
  - split; [intros _; exists s; reflexivity | reflexivity].
  - destruct s as [|b s].
    + split; [discriminate | intros [post H]; discriminate].
    + rewrite andb_true_iff, IH. split.
      * intros [Hab [post ->]]. apply Ascii.eqb_eq in Hab as ->.
        exists post. reflexivity.
      * intros [post H]. injection H as -> ->.
        split; [apply Ascii.eqb_refl | exists post; reflexivity].
Qed.

Lemma includes_spec (needle : string) :
  forall s, includes s needle = true
            <-> exists pre post, s = pre ++ needle ++ post.
Proof.
  induction s as [|c s IH].
  - simpl. rewrite orb_false_r, startsWith_spec. split.
    + intros [post H]. exists "", post. exact H.
    + intros (pre & post & H). destruct pre; [|discriminate].
      exists post. exact H.
  - change (includes (String c s) needle)
      with (startsWith (String c s) needle || includes s needle).
    rewrite orb_true_iff, startsWith_spec, IH. split.
    + intros [[post H]|(pre & post & H)].
      * exists "", post. exact H.
      * exists (String c pre), post. simpl. rewrite H. reflexivity.
    + intros (pre & post & H). destruct pre as [|a pre].
      * left. exists post. exact H.
      * right. simpl in H. injection H as _ ->. exists pre, post. reflexivity.
Qed.

End StringFacts.

Lemma isCancellationError_spec (e : JsError) :
  ContextFactory.isCancellationError e = true
  <-> (mentions e "cancelled" \/ mentions e "canceled" \/ mentions e "deadline"
       \/ err_code e = Some (NumCode 1)).
Proof.
  unfold ContextFactory.isCancellationError, mentions.
  rewrite !orb_true_iff, !includes_spec.
  assert (Hcode : match err_code e with
                  | Some (NumCode 1) => true
                  | _ => false
                  end = true <-> err_code e = Some (NumCode 1)).
  { destruct (err_code e) as [[c|s]|]; try (split; discriminate).
    destruct c as [|[p|p|]|p]; split; (reflexivity || discriminate). }
  rewrite Hcode. tauto.
Qed.

(** C6. With the bridge attached, a "close" event leaves the token as it
    is, and an "error" event cancels it exactly when the error is
    cancellation-related: its lower-cased message contains "cancelled",
    "canceled" or "deadline", or its code is the number 1. Any other
    error leaves the token as it is. *)
Theorem bridge_close_and_error
    (options : GrpcAdapterOptions) (tok : CancellationToken) :
  ContextFactory.bridgeAttached options = true ->
  ContextFactory.deliver options OnClose tok = tok
  /\ forall e,
      (ContextFactory.isCancellationError e = true
       <-> (mentions e "cancelled" \/ mentions e "canceled"
            \/ mentions e "deadline" \/ err_code e = Some (NumCode 1)))
      /\ (ContextFactory.isCancellationError e = true ->
          ContextFactory.deliver options (OnError e) tok = cancel tok)
      /\ (ContextFactory.isCancellationError e = false ->
          ContextFactory.deliver options (OnError e) tok = tok).
Proof.
  intros Hon. unfold ContextFactory.deliver. rewrite Hon.
  split; [reflexivity|].
  intros e. split; [apply isCancellationError_spec|].
  simpl. split; intros ->; reflexivity.
Qed.

Lemma bridge_close_and_error_witness :
  ContextFactory.deliver defaultOptions OnClose activeToken = activeToken
  /\ ContextFactory.deliver defaultOptions (OnError resetError) activeToken
     = activeToken
  /\ ContextFactory.deliver defaultOptions (OnError deadlineError) activeToken
     = cancel activeToken.
Proof.
  destruct (bridge_close_and_error defaultOptions activeToken eq_refl)
    as [Hclose Herr].
  split; [exact Hclose|].
  split.
  - apply (Herr resetError). vm_compute. reflexivity.
  - apply (Herr deadlineError). vm_compute. reflexivity.
Defined.

(** ** The context factory: where the trace id comes from *)

Section ContextFactoryFacts.

Import ContextFactory.

Variables (options : GrpcAdapterOptions) (now : Z) (rnd1 rnd2 : string)
          (call : GrpcCall) (methodDef : MethodDefinition).

Let chosen :=
  idOrGenerate (extractTraceId (extractMetadata call))
    (opt_generateTraceId options) (IdGenerator.generateTraceId now rnd1)
    CustomTraceIdGenerator BuiltinTraceIdGenerator.

Lemma createContext_traceId :
  keepsTraceId options call ->
  traceId (fst (createContext options now rnd1 rnd2 call methodDef))
  = fst chosen.
Proof.
  intros Hkeep. unfold createContext, chosen.
  destruct (idOrGenerate (extractTraceId (extractMetadata call)) _ _ _ _)
    as [t a1].
  destruct (idOrGenerate (extractRequestId (extractMetadata call)) _ _ _ _)
    as [q a2].
  destruct (opt_extractUserId options) as [g|];
    (destruct (opt_metadataTransformer options) as [f|] eqn:Ef;
     [simpl; rewrite (Hkeep f Ef); reflexivity | reflexivity]).
Qed.

Lemma createContext_asked (c : Consulted) :
  (c = CustomTraceIdGenerator \/ c = BuiltinTraceIdGenerator) ->
  In c (snd (createContext options now rnd1 rnd2 call methodDef)) ->
  In c (snd chosen).
Proof.
  intros Hc. unfold createContext, chosen.
  destruct (idOrGenerate (extractTraceId (extractMetadata call)) _ _ _ _)
    as [t a1].
  destruct (idOrGenerate (extractRequestId (extractMetadata call))
              (opt_generateRequestId options) _ _ _) as [q a2] eqn:E2.
  assert (Ha2 : ~ In c a2).
  { unfold idOrGenerate in E2.
    destruct (extractRequestId (extractMetadata call)) as [[|? ?]|];
      destruct (opt_generateRequestId options) as [[?|]|];
      injection E2 as _ <-; simpl;
      destruct Hc as [-> | ->]; intuition discriminate. }
  destruct (opt_extractUserId options) as [g|]; simpl;
    rewrite !in_app_iff; simpl;
    destruct Hc as [-> | ->]; intuition discriminate.
Qed.

End ContextFactoryFacts.

(** C4, as the code has it. When the trace-id header is present with a
    non-empty value (and no metadata transformer overrides the field),
    the context's traceId is that value and neither trace-id generator is
    called, whether or not a custom one is configured: the header wins.
    When the header is absent or empty, the configured generator's value
    is used if there is one, else the built-in generator's value
    [grpc-<base36 timestamp>-<random suffix>]. *)
Theorem traceId_precedence
    (options : GrpcAdapterOptions) (now : Z) (rnd1 rnd2 : string)
    (call : GrpcCall) (methodDef : MethodDefinition) :
  keepsTraceId options call ->
  let created := ContextFactory.createContext options now rnd1 rnd2 call methodDef in
  (forall v, traceHeader call = Some v -> v <> "" ->
             traceId (fst created) = v
             /\ ~ In CustomTraceIdGenerator (snd created)
             /\ ~ In BuiltinTraceIdGenerator (snd created))
  /\ (traceHeader call = None \/ traceHeader call = Some "" ->
      match opt_generateTraceId options with
      | Some (Some generated) =>
          traceId (fst created) = generated
          /\ ~ In BuiltinTraceIdGenerator (snd created)
      | _ =>
          traceId (fst created)
          = "grpc-" ++ IdGenerator.toString36 now ++ "-" ++ substring 2 8 rnd1
      end).
Proof.
  intros Hkeep created. subst created.
  pose proof (createContext_traceId options now rnd1 rnd2 call methodDef Hkeep)
    as Hid.
  pose proof (createContext_asked options now rnd1 rnd2 call methodDef) as Hasked.
  unfold traceHeader. split.
  - intros v Hv Hne. rewrite Hv in Hid, Hasked.
    destruct v as [|c v]; [contradiction|]. simpl in Hid, Hasked.
    split; [exact Hid|].
    split; intros Hin.
    + exact (Hasked _ (or_introl eq_refl) Hin).
    + exact (Hasked _ (or_intror eq_refl) Hin).
  - intros Hnone.
    assert (Hsame :
      ContextFactory.idOrGenerate
        (ContextFactory.extractTraceId (ContextFactory.extractMetadata call))
        (opt_generateTraceId options) (IdGenerator.generateTraceId now rnd1)
        CustomTraceIdGenerator BuiltinTraceIdGenerator
      = match opt_generateTraceId options with
        | Some (Some v) => (v, [CustomTraceIdGenerator])
        | Some None => (IdGenerator.generateTraceId now rnd1,
                        [CustomTraceIdGenerator; BuiltinTraceIdGenerator])
        | None => (IdGenerator.generateTraceId now rnd1, [BuiltinTraceIdGenerator])
        end).
    { destruct Hnone as [-> | ->]; reflexivity. }
    rewrite Hsame in Hid, Hasked.
    destruct (opt_generateTraceId options) as [[g|]|]; simpl in Hid, Hasked.
    + split; [exact Hid|]. intros Hin.
      specialize (Hasked BuiltinTraceIdGenerator (or_intror eq_refl) Hin).
      simpl in Hasked. intuition discriminate.
    + exact Hid.
    + exact Hid.
Qed.

Lemma traceId_precedence_witness :
  traceId (fst (ContextFactory.createContext optionsWithGenerator 1700000000000
                  "0.4fzyo82mvyr" "0.k2j5" callWithTraceHeader sayHello))
  = "custom-trace-123"
  /\ traceId (fst (ContextFactory.createContext optionsWithGenerator 1700000000000
                     "0.4fzyo82mvyr" "0.k2j5" plainCall sayHello))
     = "custom-generated-trace".
Proof.
  assert (Hkeep : forall c, keepsTraceId optionsWithGenerator c)
    by (intros c f Hf; discriminate Hf).
  split.
  - destruct (traceId_precedence optionsWithGenerator 1700000000000
                "0.4fzyo82mvyr" "0.k2j5" callWithTraceHeader sayHello
                (Hkeep _)) as [Hpresent _].
    destruct (Hpresent "custom-trace-123") as [Hid _];
      [vm_compute; reflexivity | discriminate | exact Hid].
  - destruct (traceId_precedence optionsWithGenerator 1700000000000
                "0.4fzyo82mvyr" "0.k2j5" plainCall sayHello
                (Hkeep _)) as [_ Habsent].
    destruct Habsent as [Hid _]; [left; vm_compute; reflexivity | exact Hid].
Defined.

(** The claim of C4 that a configured generator wins over a present
    header fails: with header "custom-trace-123" and a generator that
    returns "custom-generated-trace", the context carries the header's
    value and the generator is not called. *)
Lemma traceId_generator_does_not_win :
  let created := ContextFactory.createContext optionsWithGenerator 1700000000000
                   "0.4fzyo82mvyr" "0.k2j5" callWithTraceHeader sayHello in
  traceHeader callWithTraceHeader = Some "custom-trace-123"
  /\ opt_generateTraceId optionsWithGenerator = Some (Some "custom-generated-trace")
  /\ traceId (fst created) <> "custom-generated-trace"
  /\ traceId (fst created) = "custom-trace-123"
  /\ snd created = [BuiltinRequestIdGenerator].
Proof.
  vm_compute. repeat split; try reflexivity. discriminate.
Qed.

(** ** The middleware chain *)

Section PipelineFacts.

Import StruktosInterceptor.

Variable middlewares : list IStruktosMiddleware.

Let n := length middlewares.

Lemma advanced_refl (r : Run) : advanced n r r.
Proof.
  unfold advanced, invocations. rewrite Nat.sub_diag. simpl.
  rewrite app_nil_r. auto.
Qed.

Lemma advanced_trans (r1 r2 r3 : Run) :
  advanced n r1 r2 -> advanced n r2 r3 -> advanced n r1 r3.
Proof.
  intros (Hle1 & Hn1 & He1 & Hc1) (Hle2 & Hn2 & He2 & Hc2).
  unfold advanced. repeat split; [lia | auto | | auto].
  rewrite He2, He1. unfold invocations.
  rewrite <- app_assoc, <- map_app. do 2 f_equal.
  replace (run_index r3 - run_index r1)%nat
    with ((run_index r2 - run_index r1) + (run_index r3 - run_index r2))%nat
    by lia.
  rewrite seq_app. do 2 f_equal. lia.
Qed.

Lemma advanced_after_step f (r : Run) : advanced n r (after_step f r).
Proof.
  unfold advanced, after_step, invocations. simpl.
  rewrite Nat.sub_diag. simpl. rewrite app_nil_r.
  repeat split; auto.
  intros Hc. rewrite Hc. destruct (run_state r) as [[[d t] q p] w m].
  simpl in *. exact Hc.
Qed.

(** Middleware code moves a run forward whenever its [next] does. *)
Lemma exec_advanced (nextf : Run -> Completion * Run) (i : nat) :
  (forall r, (i <= run_index r)%nat ->
             advanced n r (snd (nextf r)) /\ fst (nextf r) <> OutOfFuel) ->
  forall p r, (i <= run_index r)%nat ->
              advanced n r (snd (exec nextf p r))
              /\ fst (exec nextf p r) <> OutOfFuel.
Proof.
  intros Hnext p. induction p as [|e|f k IH|t k1 IH1 k2 IH2|k IH]; intros r Hi; simpl.
  - split; [apply advanced_refl | discriminate].
  - split; [apply advanced_refl | discriminate].
  - destruct (IH (after_step f r) Hi) as [Hadv Hfuel].
    split; [|exact Hfuel].
    eapply advanced_trans; [apply advanced_after_step | exact Hadv].
  - destruct (t (run_state r)); [apply IH1 | apply IH2]; exact Hi.
  - destruct (Hnext r Hi) as [Hadv Hfuel].
    destruct (nextf r) as [[|e|] r'] eqn:E; simpl in *.
    + assert (Hi' : (i <= run_index r')%nat) by (destruct Hadv; lia).
      destruct (IH r' Hi') as [Hadv' Hfuel'].
      split; [eapply advanced_trans; eassumption | exact Hfuel'].
    + split; [exact Hadv | discriminate].
    + contradiction.
Qed.

Lemma next_idle (fuel : nat) (r : Run) :
  (n <= run_index r)%nat -> next middlewares fuel r = (Normal, r).
Proof.
  intros Hn. destruct fuel; simpl;
    (destruct (Nat.ltb_spec (run_index r) (length middlewares)) as [Hlt|_];
     [fold n in Hlt; lia | reflexivity]).
Qed.

Lemma next_unfold (fuel : nat) (r : Run) (m : IStruktosMiddleware) :
  nth_error middlewares (run_index r) = Some m ->
  next middlewares (S fuel) r
  = exec (next middlewares fuel) (invoke m)
      {| run_state := run_state r;
         run_index := S (run_index r);
         run_events := (run_events r ++ [MiddlewareInvoked (run_index r)])%list |}.
Proof.
  intros Hm. simpl. rewrite Hm.
  destruct (Nat.ltb_spec (run_index r) (length middlewares)) as [_|Hge];
    [reflexivity|].
  assert (run_index r < length middlewares)%nat
    by (apply nth_error_Some; rewrite Hm; discriminate).
  lia.
Qed.

Lemma exec_monotone (nextf : Run -> Completion * Run) :
  (forall r, (run_index r <= run_index (snd (nextf r)))%nat) ->
  forall p r, (run_index r <= run_index (snd (exec nextf p r)))%nat.
Proof.
  intros Hnext p.
  induction p as [|e|f k IH|t k1 IH1 k2 IH2|k IH]; intros r; simpl; auto.
  - exact (IH (after_step f r)).
  - destruct (t (run_state r)); auto.
  - specialize (Hnext r).
    destruct (nextf r) as [[|e|] r']; simpl in *; auto.
    specialize (IH r'). lia.
Qed.

(** The cursor never moves back, with any amount of fuel. *)
Lemma next_monotone (fuel : nat) :
  forall r, (run_index r <= run_index (snd (next middlewares fuel r)))%nat.
Proof.
  induction fuel as [|fuel IH]; intros r.
  - simpl. destruct (run_index r <? length middlewares)%nat; simpl; lia.
  - destruct (nth_error middlewares (run_index r)) as [m|] eqn:Hm.
    + rewrite (next_unfold fuel r m Hm).
      pose proof (exec_monotone (next middlewares fuel) IH (invoke m)
                    {| run_state := run_state r;
                       run_index := S (run_index r);
                       run_events :=
                         (run_events r ++ [MiddlewareInvoked (run_index r)])%list |})
        as Hmono.
      simpl in Hmono. lia.
    + apply nth_error_None in Hm. rewrite next_idle by (fold n; lia).
      simpl. lia.
Qed.

Lemma advanced_invoke (r : Run) :
  (run_index r < n)%nat ->
  advanced n r
    {| run_state := run_state r;
       run_index := S (run_index r);
       run_events := (run_events r ++ [MiddlewareInvoked (run_index r)])%list |}.
Proof.
  intros Hlt. unfold advanced, invocations. simpl.
  replace (S (run_index r) - run_index r)%nat with 1%nat by lia.
  simpl. repeat split; auto; lia.
Qed.

(** The cursor bounds the recursion: with as much fuel as there are
    middleware left, [next] finishes. *)
Lemma next_advanced (fuel : nat) :
  forall r, (n - run_index r <= fuel)%nat ->
            advanced n r (snd (next middlewares fuel r))
            /\ fst (next middlewares fuel r) <> OutOfFuel.
Proof.
  induction fuel as [|fuel IH]; intros r Hfuel.
  - rewrite next_idle by lia. split; [apply advanced_refl | discriminate].
  - destruct (Nat.lt_ge_cases (run_index r) n) as [Hlt|Hge].
    + destruct (nth_error middlewares (run_index r)) as [m|] eqn:Hm.
      * rewrite (next_unfold fuel r m Hm).
        pose proof (advanced_invoke r Hlt) as Hone.
        set (r' := {| run_state := run_state r;
                      run_index := S (run_index r);
                      run_events := _ |}) in *.
        destruct (exec_advanced (next middlewares fuel) (run_index r')
                    (fun r2 H2 => IH r2 ltac:(simpl in H2; lia))
                    (invoke m) r' (Nat.le_refl _)) as [Hadv Hne].
        split; [eapply advanced_trans; eassumption | exact Hne].
      * apply nth_error_None in Hm. fold n in Hm. lia.
    + rewrite next_idle by lia. split; [apply advanced_refl | discriminate].
Qed.

Lemma executePipeline_advanced (r : Run) :
  advanced n r (snd (executePipeline middlewares r))
  /\ fst (executePipeline middlewares r) <> OutOfFuel.
Proof. apply next_advanced. fold n. lia. Qed.

End PipelineFacts.

Lemma timesInvoked_invocations (i k : nat) :
  timesInvoked i (invocations 0 k) = if (i <? k)%nat then 1%nat else 0%nat.
Proof.
  unfold timesInvoked, invocations.
  induction k as [|k IH].
  - reflexivity.
  - rewrite seq_S, map_app, List.filter_app, length_app, IH. simpl.
    destruct (Nat.eqb_spec i k) as [->|Hne].
    + rewrite Nat.ltb_irrefl.
      destruct (Nat.ltb_spec k (S k)); [reflexivity | lia].
    + simpl. destruct (Nat.ltb_spec i k), (Nat.ltb_spec i (S k)); lia.
Qed.

(** C9. One run of the pipeline, whatever the middleware do with their
    [next] (call it never, once or many times): the run finishes, the
    cursor only moves forward and stays within the number [N] of
    middleware, the invocations made are those of positions 0, 1, ... in
    order up to the final cursor, so each middleware is invoked at most
    once; and a call of [next] once the cursor has reached [N] does
    nothing. *)
Theorem each_middleware_at_most_once
    (middlewares : list IStruktosMiddleware) (s : MiddlewareState) :
  let result := StruktosInterceptor.executePipeline middlewares (startRun s) in
  fst result <> OutOfFuel
  /\ (run_index (snd result) <= length middlewares)%nat
  /\ run_events (snd result) = invocations 0 (run_index (snd result))
  /\ (forall i, (timesInvoked i (run_events (snd result)) <= 1)%nat)
  /\ (forall fuel r,
        (run_index r <= run_index (snd (StruktosInterceptor.next middlewares fuel r)))%nat)
  /\ (forall fuel r,
        (length middlewares <= run_index r)%nat ->
        StruktosInterceptor.next middlewares fuel r = (Normal, r)).
Proof.
  intros result. subst result.
  destruct (executePipeline_advanced middlewares (startRun s))
    as [(Hle & Hn & Hev & _) Hfuel].
  simpl in Hle, Hn, Hev. rewrite Nat.sub_0_r in Hev.
  split; [exact Hfuel|].
  split; [apply Hn; lia|].
  split; [exact Hev|].
  split.
  - intros i. rewrite Hev, timesInvoked_invocations.
    destruct (i <? _)%nat; lia.
  - split.
    + intros fuel r. apply next_monotone.
    + intros fuel r Hge. apply next_idle. exact Hge.
Qed.

Lemma each_middleware_at_most_once_witness :
  (timesInvoked 2
     (run_events (snd (StruktosInterceptor.executePipeline
                         [proceedsTwice; returnsAtOnce; passThrough]
                         (runAt 1700000000000 ∅)))) <= 1)%nat
  /\ StruktosInterceptor.next [proceedsTwice; returnsAtOnce; passThrough] 0
       {| run_state := run_state (runAt 1700000000000 ∅);
          run_index := 3;
          run_events := [] |}
     = (Normal, {| run_state := run_state (runAt 1700000000000 ∅);
                   run_index := 3;
                   run_events := [] |}).
Proof.
  destruct (each_middleware_at_most_once
              [proceedsTwice; returnsAtOnce; passThrough]
              (run_state (runAt 1700000000000 ∅)))
    as (_ & _ & _ & Hcount & _ & Hidle).
  split; [exact (Hcount 2%nat)|].
  apply Hidle. simpl. lia.
Defined.

(** The second call of [next] by the first middleware runs the third
    one, which the second had left out; nothing runs twice. *)
Example proceeding_twice :
  run_events (snd (StruktosInterceptor.executePipeline
                     [proceedsTwice; returnsAtOnce; passThrough]
                     (runAt 1700000000000 ∅)))
  = [MiddlewareInvoked 0; MiddlewareInvoked 1; MiddlewareInvoked 2].
Proof. vm_compute. reflexivity. Qed.

(** ** The wrapped method *)

Section WrapMethodFacts.

Import StruktosInterceptor.

Variables (options : GrpcAdapterOptions) (method : Handler)
          (methodDef : MethodDefinition) (now : Z) (rnd1 rnd2 : string)
          (requests : gmap string (list Z)) (call : GrpcCall).

Local Abbreviation finish := (afterChain options method call).

Lemma wrapMethod_finish (callback : bool) (middlewares : list IStruktosMiddleware) :
  wrapMethod options middlewares method methodDef now rnd1 rnd2 requests
    call callback
  = finish callback (chainResult options middlewares methodDef now rnd1 rnd2
              requests call).
Proof. reflexivity. Qed.

Lemma events_emit (e : Event) (r : Run) :
  run_events (emit e r) = (run_events r ++ [e])%list.
Proof. reflexivity. Qed.

Lemma addEvents_nil (r : Run) : addEvents [] r = r.
Proof. destruct r. unfold addEvents. simpl. rewrite app_nil_r. reflexivity. Qed.

Lemma addEvents_add (a b : list Event) (r : Run) :
  addEvents b (addEvents a r) = addEvents (a ++ b) r.
Proof. unfold addEvents. simpl. rewrite app_assoc. reflexivity. Qed.

Lemma emit_addEvents (e : Event) (r : Run) : emit e r = addEvents [e] r.
Proof. reflexivity. Qed.

(** Each step the wrapper takes after the chain only adds events: what
    it adds does not depend on the run it is added to. *)

Lemma handleError_spec (callback : bool) (e : JsError) (r : Run) :
  handleError options e callback r = addEvents [report options callback e] r.
Proof.
  unfold handleError, report, transformed.
  destruct callback; [|reflexivity]. cbn [negb].
  destruct (match opt_errorTransformer options with
            | Some transformer => transformer e
            | None => inr (StatusTranslator.defaultErrorTransformer e)
            end); reflexivity.
Qed.

Lemma report_aftermath (callback : bool) (e : JsError) :
  isAftermath (report options callback e) = true.
Proof.
  unfold report. destruct callback; [|reflexivity].
  destruct (transformed options e); reflexivity.
Qed.

Lemma complete_spec (callback : bool) (p : Settled) (r : Run) :
  complete options callback p r
  = (match p with Pending => Hung | _ => Returned end,
     addEvents (completion options callback p) r).
Proof.
  unfold complete, completion. destruct p as [| |e].
  - rewrite addEvents_nil. reflexivity.
  - destruct (opt_onRequestComplete options) as [[e|]|].
    + rewrite handleError_spec, emit_addEvents, addEvents_add. reflexivity.
    + reflexivity.
    + rewrite addEvents_nil. reflexivity.
  - rewrite handleError_spec. reflexivity.
Qed.

Lemma completion_aftermath (callback : bool) (p : Settled) :
  Forall (fun ev => isAftermath ev = true) (completion options callback p).
Proof.
  unfold completion. destruct p as [| |e].
  - constructor.
  - destruct (opt_onRequestComplete options) as [[e|]|];
      repeat constructor. apply report_aftermath.
  - repeat constructor. apply report_aftermath.
Qed.

Lemma callDirect_spec (callback : bool) (calls : list HandlerCall) :
  forall r,
    callDirect callback calls r
    = (match calls with
       | [] => Normal
       | _ :: _ => if callback then Normal else Thrown typeErrorNotFunction
       end,
       addEvents (if callback then directEvents calls else []) r).
Proof.
  induction calls as [|c calls IH]; intros r.
  - simpl. destruct callback; rewrite addEvents_nil; reflexivity.
  - simpl. destruct callback eqn:Hcb; simpl.
    + rewrite IH, emit_addEvents, addEvents_add. simpl.
      destruct calls; reflexivity.
    + rewrite addEvents_nil. reflexivity.
Qed.

Lemma directEvents_aftermath (calls : list HandlerCall) :
  Forall (fun ev => isAftermath ev = true) (directEvents calls).
Proof. induction calls; simpl; constructor; auto. Qed.

Lemma settle_settle (p a b : Settled) :
  a <> Pending -> settle (settle p a) b = settle p a.
Proof. destruct p, a; simpl; congruence. Qed.

Lemma signalOf_settled (c : HandlerCall) : signalOf c <> Pending.
Proof. destruct c; discriminate. Qed.

Lemma callWrapped_spec (calls : list HandlerCall) :
  forall p r,
    callWrapped calls p r
    = (settle p match calls with
                | c :: _ => signalOf c
                | [] => Pending
                end,
       addEvents (responses calls) r).
Proof.
  induction calls as [|c calls IH]; intros p r.
  - simpl. rewrite addEvents_nil. destruct p; reflexivity.
  - destruct c as [body|e]; simpl; rewrite IH.
    + rewrite emit_addEvents, addEvents_add. simpl.
      destruct calls as [|c' calls'].
      * destruct p; reflexivity.
      * rewrite (settle_settle p Resolved) by discriminate. reflexivity.
    + destruct calls as [|c' calls'].
      * destruct p; reflexivity.
      * rewrite (settle_settle p (Rejected e)) by discriminate. reflexivity.
Qed.

Lemma responses_aftermath (calls : list HandlerCall) :
  Forall (fun ev => isAftermath ev = true) (responses calls).
Proof.
  induction calls as [|[body|e] calls IH]; simpl; [constructor | | exact IH].
  constructor; [reflexivity | exact IH].
Qed.

(** The promise when a method that was handed [wrappedCallback] has
    returned. *)
Lemma callOriginalMethod_unary (callback : bool) (r : Run) :
  call_isStream call = false ->
  callback = true ->
  callOriginalMethod method call callback r
  = (firstSignal method,
     addEvents (HandlerInvoked :: responses (h_calls method)) r).
Proof.
  intros Hs Hcb. unfold callOriginalMethod. rewrite Hs, Hcb.
  rewrite callWrapped_spec, emit_addEvents, addEvents_add. simpl app.
  unfold firstSignal.
  destruct (h_calls method) as [|c calls].
  - destruct (h_return method); reflexivity.
  - simpl. pose proof (signalOf_settled c) as Hc.
    destruct (h_return method); destruct (signalOf c); simpl;
      try reflexivity; contradiction.
Qed.

(** The promise when a method that was handed the caller's callback has
    returned. *)
Lemma callOriginalMethod_stream (callback : bool) (r : Run) :
  call_isStream call = true ->
  callback = true ->
  callOriginalMethod method call callback r
  = (match h_return method with
     | Throws e => Rejected e
     | _ => Resolved
     end,
     addEvents (HandlerInvoked :: directEvents (h_calls method)) r).
Proof.
  intros Hs Hcb. unfold callOriginalMethod. rewrite Hs.
  rewrite callDirect_spec, Hcb, emit_addEvents, addEvents_add. simpl app.
  destruct (h_calls method); destruct (h_return method); reflexivity.
Qed.

Lemma callOriginalMethod_frame (callback : bool) :
  exists p evs,
    (forall r, callOriginalMethod method call callback r
               = (p, addEvents (HandlerInvoked :: evs) r))
    /\ Forall (fun ev => isAftermath ev = true) evs.
Proof.
  unfold callOriginalMethod.
  destruct (call_isStream call) eqn:Hs; [|destruct callback eqn:Hcb].
  - eexists _, (if callback then directEvents (h_calls method) else []).
    split.
    + intros r. rewrite callDirect_spec, emit_addEvents, addEvents_add.
      simpl app.
      instantiate (1 := match h_calls method with
                        | [] =>
                            match h_return method with
                            | Throws e => Rejected e
                            | _ => Resolved
                            end
                        | _ :: _ =>
                            if callback then
                              match h_return method with
                              | Throws e => Rejected e
                              | _ => Resolved
                              end
                            else
                              match h_return method with
                              | Async _ => Resolved
                              | _ => Rejected typeErrorNotFunction
                              end
                        end).
      destruct (h_calls method); destruct callback;
        destruct (h_return method); reflexivity.
    + destruct callback; [apply directEvents_aftermath | constructor].
  - exists (match h_return method with
            | Throws e =>
                settle (settle Pending match h_calls method with
                                       | c :: _ => signalOf c
                                       | [] => Pending
                                       end) (Rejected e)
            | _ => settle Pending match h_calls method with
                                  | c :: _ => signalOf c
                                  | [] => Pending
                                  end
            end), (responses (h_calls method)).
    split; [|apply responses_aftermath].
    intros r. rewrite callWrapped_spec, emit_addEvents, addEvents_add.
    simpl app. destruct (h_return method); reflexivity.
  - eexists _, [].
    split; [|constructor].
    intros r. rewrite callDirect_spec, emit_addEvents, addEvents_add.
    simpl app.
    instantiate (1 := match h_calls method with
                      | [] =>
                          match h_return method with
                          | Throws e => Rejected e
                          | _ => Resolved
                          end
                      | _ :: _ =>
                          match h_return method with
                          | Async _ => Resolved
                          | _ => Rejected typeErrorNotFunction
                          end
                      end).
    destruct (h_calls method); destruct (h_return method); reflexivity.
Qed.

Lemma laterCalls_frame (callback : bool) (wrapped : bool) (calls : list HandlerCall)
    (rejection : option JsError) :
  forall o, exists o' evs,
    (forall r, laterCalls options wrapped callback calls rejection o r
               = (o', addEvents evs r))
    /\ Forall (fun ev => isAftermath ev = true) evs
    /\ (o <> Hung -> o' = o).
Proof.
  induction calls as [|c calls IH]; intros o.
  - simpl. exists o. destruct rejection as [e|].
    + exists [Uncaught e]. split; [reflexivity|]. split; [repeat constructor | auto].
    + exists []. split; [intros r; rewrite addEvents_nil; reflexivity|].
      split; [constructor | auto].
  - simpl. destruct wrapped.
    + assert (Hresp : exists ev1,
                (forall r, match c with
                           | RespondOk body =>
                               emit (CallbackCalled (CbResponse body)) r
                           | RespondError _ => r
                           end = addEvents ev1 r)
                /\ Forall (fun ev => isAftermath ev = true) ev1).
      { destruct c as [body|e].
        - eexists [_]. split; [reflexivity | repeat constructor].
        - exists []. split; [intros r; rewrite addEvents_nil; reflexivity
                            | constructor]. }
      destruct Hresp as (ev1 & Hev1 & Hall1).
      destruct o.
      * destruct (IH Returned) as (o' & evs & Hf & Hall & Hkeep).
        exists o', (ev1 ++ evs)%list. split; [|split].
        -- intros r. rewrite Hev1, Hf, addEvents_add. reflexivity.
        -- apply Forall_app. split; assumption.
        -- intros _. apply Hkeep. discriminate.
      * destruct (IH Returned) as (o' & evs & Hf & Hall & Hkeep).
        exists o', (ev1 ++ completion options callback (signalOf c) ++ evs)%list.
        split; [|split].
        -- intros r. rewrite Hev1.
           change (match c with
                   | RespondOk _ => Resolved
                   | RespondError e => Rejected e
                   end) with (signalOf c).
           rewrite complete_spec.
           pose proof (signalOf_settled c) as Hc.
           destruct (signalOf c) eqn:Hsig; [contradiction| |];
             rewrite Hf, !addEvents_add, <- ?app_assoc; reflexivity.
        -- apply Forall_app. split; [assumption|].
           apply Forall_app. split; [apply completion_aftermath | assumption].
        -- intros Hne. contradiction.
      * destruct (IH Unfinished) as (o' & evs & Hf & Hall & Hkeep).
        exists o', (ev1 ++ evs)%list. split; [|split].
        -- intros r. rewrite Hev1, Hf, addEvents_add. reflexivity.
        -- apply Forall_app. split; assumption.
        -- intros _. apply Hkeep. discriminate.
    + destruct callback eqn:Hcb.
      * destruct (IH o) as (o' & evs & Hf & Hall & Hkeep).
        eexists o', (_ :: evs). split; [|split].
        -- intros r. rewrite Hf, emit_addEvents, addEvents_add. reflexivity.
        -- constructor; [reflexivity | assumption].
        -- exact Hkeep.
      * exists o, [Uncaught typeErrorNotFunction].
        split; [reflexivity|]. split; [repeat constructor | auto].
Qed.

Lemma afterReturn_frame (callback : bool) (o : Outcome) :
  exists o' evs,
    (forall r, afterReturn options method call callback o r
               = (o', addEvents evs r))
    /\ Forall (fun ev => isAftermath ev = true) evs
    /\ (o <> Hung -> o' = o).
Proof.
  unfold afterReturn.
  destruct callback eqn:Hcb; [|destruct (h_calls method) as [|c calls]].
  - destruct (laterCalls_frame callback (negb (call_isStream call) && true)
                (h_later method)
                match h_return method with
                | Async (RejectsWith e) => Some e
                | _ => None
                end o) as (o' & evs & Hf & Hall & Hkeep).
    exists o', evs. rewrite Hcb in Hf. auto.
  - destruct (laterCalls_frame callback (negb (call_isStream call) && false)
                (h_later method)
                match h_return method with
                | Async (RejectsWith e) => Some e
                | _ => None
                end o) as (o' & evs & Hf & Hall & Hkeep).
    exists o', evs. rewrite Hcb in Hf. auto.
  - exists o. destruct (h_return method) as [|e|fate].
    + exists []. split; [intros r; rewrite addEvents_nil; reflexivity|].
      split; [constructor | auto].
    + exists []. split; [intros r; rewrite addEvents_nil; reflexivity|].
      split; [constructor | auto].
    + exists [Uncaught typeErrorNotFunction].
      split; [reflexivity|]. split; [repeat constructor | auto].
Qed.

Lemma sendErrorResponse_spec (callback : bool) (response : StruktosResponse) (r : Run) :
  callback = true ->
  sendErrorResponse callback response r
  = match undeliverable (resp_body response) with
    | Some e => (Thrown e, r)
    | None =>
        (Normal,
         emit (CallbackCalled (CbStatus
                 {| so_code := StatusTranslator.httpStatusToGrpcStatus
                                 (resp_status response);
                    so_details :=
                      match resp_body response with
                      | BodyObject message _ => js_or_str message "Error"
                      | BodyText text => js_or_str (Some text) "Error"
                      | _ => "Error"
                      end;
                    so_metadata :=
                      match resp_body response with
                      | BodyObject _ json => [("error-details", json)]
                      | _ => []
                      end |})) r)
    end.
Proof.
  intros Hcb. unfold sendErrorResponse, undeliverable. rewrite Hcb. simpl.
  destruct (resp_body response) as [| |message json|text|message thrown];
    try reflexivity.
  destruct (isLegalNonBinaryValue json); reflexivity.
Qed.

Lemma undeliverable_deliverable (body : Body) :
  undeliverable body = None <-> deliverable body = true.
Proof.
  destruct body as [| |message json|text|message thrown]; simpl;
    try (split; (reflexivity || discriminate)).
  destruct (isLegalNonBinaryValue json); split; (reflexivity || discriminate).
Qed.

Lemma createResponseMetadata_legalIds (ctx : ContextFactory.RequestContext) :
  match ResponseMetadata.createResponseMetadata ctx with
  | inr _ => legalIds ctx = true
  | inl _ => legalIds ctx = false
  end.
Proof.
  unfold ResponseMetadata.createResponseMetadata, legalIds, Metadata_set.
  destruct (traceId (ContextFactory.rc_data ctx)) as [|a t];
    destruct (requestId (ContextFactory.rc_data ctx)) as [|b q];
    cbn [isLegalNonBinaryValue andb].
  - reflexivity.
  - destruct (isPrintable b && isLegalNonBinaryValue q); reflexivity.
  - destruct (isPrintable a && isLegalNonBinaryValue t); reflexivity.
  - destruct (isPrintable a && isLegalNonBinaryValue t);
      [destruct (isPrintable b && isLegalNonBinaryValue q)|]; reflexivity.
Qed.

Lemma aftermath_not_invocation (evs : list Event) :
  Forall (fun ev => isAftermath ev = true) evs ->
  (forall i, ~ In (MiddlewareInvoked i) evs) /\ ~ In HandlerInvoked evs
  /\ (forall t q, ~ In (MetadataSent t q) evs).
Proof.
  intros Hall. rewrite List.Forall_forall in Hall.
  repeat split; repeat intro;
    match goal with H : In _ evs |- _ => apply Hall in H; discriminate end.
Qed.

(** When the handler is reached and the response metadata can be built,
    the wrapper sends the metadata, enters the handler, and what
    follows is the aftermath. *)
Lemma finish_reached (callback : bool) (r : Run) :
  resp_sent (ms_response (run_state r)) = false ->
  isCancelled (ms_token (run_state r)) = false ->
  legalIds (context (ms_ctx (run_state r))) = true ->
  exists o evs,
    finish callback (Normal, r) = (o, addEvents (handlerEntry r ++ evs) r)
    /\ Forall (fun ev => isAftermath ev = true) evs.
Proof.
  intros Hsent Hcan Hlegal. unfold afterChain. rewrite Hsent, Hcan.
  pose proof (createResponseMetadata_legalIds (context (ms_ctx (run_state r))))
    as Hmd.
  destruct (ResponseMetadata.createResponseMetadata
              (context (ms_ctx (run_state r)))) as [e|md]; [congruence|].
  destruct (callOriginalMethod_frame callback) as (p & evs1 & Hf1 & Hall1).
  rewrite Hf1, complete_spec.
  destruct (afterReturn_frame callback match p with Pending => Hung | _ => Returned end)
    as (o & evs2 & Hf2 & Hall2 & _).
  rewrite Hf2. exists o, (evs1 ++ completion options callback p ++ evs2)%list.
  split.
  - rewrite emit_addEvents, !addEvents_add. unfold handlerEntry.
    solve [reflexivity
          | do 2 f_equal; simpl; rewrite <- ?app_assoc; reflexivity].
  - apply Forall_app. split; [assumption|].
    apply Forall_app. split; [apply completion_aftermath | assumption].
Qed.

(** When the response metadata cannot be built, the error [set] throws
    is reported and the handler is not entered. *)
Lemma finish_illegal (callback : bool) (r : Run) :
  resp_sent (ms_response (run_state r)) = false ->
  isCancelled (ms_token (run_state r)) = false ->
  legalIds (context (ms_ctx (run_state r))) = false ->
  exists e,
    ResponseMetadata.createResponseMetadata (context (ms_ctx (run_state r)))
    = inl e
    /\ finish callback (Normal, r) = (Returned, addEvents [report options callback e] r).
Proof.
  intros Hsent Hcan Hlegal. unfold afterChain. rewrite Hsent, Hcan.
  pose proof (createResponseMetadata_legalIds (context (ms_ctx (run_state r))))
    as Hmd.
  destruct (ResponseMetadata.createResponseMetadata
              (context (ms_ctx (run_state r)))) as [e|md]; [|congruence].
  exists e. split; [reflexivity|]. rewrite handleError_spec. reflexivity.
Qed.

Lemma finish_sent_spec (callback : bool) (r : Run) :
  resp_sent (ms_response (run_state r)) = true ->
  finish callback (Normal, r)
  = (Returned,
     if callback then
       match undeliverable (resp_body (ms_response (run_state r))) with
       | Some e => addEvents [report options callback e] r
       | None =>
           emit (CallbackCalled (CbStatus
                   {| so_code := StatusTranslator.httpStatusToGrpcStatus
                                   (resp_status (ms_response (run_state r)));
                      so_details :=
                        match resp_body (ms_response (run_state r)) with
                        | BodyObject message _ => js_or_str message "Error"
                        | BodyText text => js_or_str (Some text) "Error"
                        | _ => "Error"
                        end;
                      so_metadata :=
                        match resp_body (ms_response (run_state r)) with
                        | BodyObject _ json => [("error-details", json)]
                        | _ => []
                        end |})) r
       end
     else r).
Proof.
  intros Hsent. unfold afterChain. rewrite Hsent.
  destruct callback.
  - rewrite sendErrorResponse_spec by reflexivity.
    destruct (undeliverable (resp_body (ms_response (run_state r)))) as [e|].
    + rewrite handleError_spec. reflexivity.
    + reflexivity.
  - reflexivity.
Qed.

(** Every event the wrapper adds after the chain is one of its own:
    never the invocation of a middleware. The handler is entered exactly
    when the chain completed, the response is not marked sent, the
    context is not cancelled and the response metadata can be built. *)
Lemma finish_extends (callback : bool) (c : Completion) (r : Run) :
  exists rest,
    run_events (snd (finish callback (c, r))) = (run_events r ++ rest)%list
    /\ (forall i, ~ In (MiddlewareInvoked i) rest)
    /\ (In HandlerInvoked rest
        <-> (c = Normal
             /\ resp_sent (ms_response (run_state r)) = false
             /\ isCancelled (ms_token (run_state r)) = false
             /\ legalIds (context (ms_ctx (run_state r))) = true)).
Proof.
  destruct c as [|e|].
  - destruct (resp_sent (ms_response (run_state r))) eqn:Hsent.
    + rewrite (finish_sent_spec callback r Hsent). cbn [snd].
      assert (Hone : forall ev,
                isAftermath ev = true ->
                (forall i, ~ In (MiddlewareInvoked i) [ev])
                /\ (In HandlerInvoked [ev]
                    <-> Normal = Normal /\ true = false
                        /\ isCancelled (ms_token (run_state r)) = false
                        /\ legalIds (context (ms_ctx (run_state r))) = true)).
      { intros ev Hev. split.
        - intros i [Hin|[]]. subst ev. discriminate.
        - split; [intros [Hin|[]]; subst ev; discriminate
                 | intros (_ & Hf & _); discriminate]. }
      destruct callback.
      * destruct (undeliverable (resp_body (ms_response (run_state r)))).
        -- eexists [_]. split; [reflexivity|].
           apply Hone. apply report_aftermath.
        -- eexists [_]. split; [reflexivity|]. apply Hone. reflexivity.
      * exists []. rewrite app_nil_r. split; [reflexivity|].
        split; [intros i []|].
        split; [intros [] | intros (_ & Hf & _); discriminate].
    + destruct (isCancelled (ms_token (run_state r))) eqn:Hcan.
      * unfold afterChain. rewrite Hsent, Hcan.
        unfold sendCancelledResponse. destruct callback; simpl.
        -- eexists [_]. split; [reflexivity|].
           split; [intros i [Hin|[]]; discriminate|].
           split; [intros [Hin|[]]; discriminate|].
           intros (_ & _ & Hf & _). discriminate.
        -- exists []. rewrite app_nil_r. split; [reflexivity|].
           split; [intros i []|].
           split; [intros []|]. intros (_ & _ & Hf & _). discriminate.
      * destruct (legalIds (context (ms_ctx (run_state r)))) eqn:Hlegal.
        -- destruct (finish_reached callback r Hsent Hcan Hlegal)
             as (o & evs & Hfin & Hall).
           rewrite Hfin. cbn [snd].
           destruct (aftermath_not_invocation evs Hall) as (Hmw & _ & _).
           exists (handlerEntry r ++ evs)%list. split; [reflexivity|].
           split.
           ++ intros i Hin. unfold handlerEntry in Hin. simpl in Hin.
              destruct Hin as [Hin|[Hin|Hin]]; try discriminate.
              exact (Hmw i Hin).
           ++ split; [intros _; auto|].
              intros _. unfold handlerEntry. simpl. auto.
        -- destruct (finish_illegal callback r Hsent Hcan Hlegal) as (e & _ & Hfin).
           rewrite Hfin. cbn [snd].
           exists [report options callback e]. split; [reflexivity|].
           pose proof (report_aftermath callback e) as Hrep.
           split; [intros i [Hin|[]]; rewrite Hin in Hrep; discriminate|].
           split; [intros [Hin|[]]; rewrite Hin in Hrep; discriminate|].
           intros (_ & _ & _ & Hf). discriminate.
  - unfold afterChain. rewrite handleError_spec. cbn [snd].
    exists [report options callback e]. split; [reflexivity|].
    pose proof (report_aftermath callback e) as Hrep.
    split; [intros i [Hin|[]]; rewrite Hin in Hrep; discriminate|].
    split; [intros [Hin|[]]; rewrite Hin in Hrep; discriminate|].
    intros (Hf & _). discriminate.
  - simpl. exists []. rewrite app_nil_r. split; [reflexivity|].
    split; [intros i []|]. split; [intros [] | intros (Hf & _); discriminate].
Qed.

Lemma finish_sent (callback : bool) (r : Run) :
  resp_sent (ms_response (run_state r)) = true ->
  callback = true ->
  deliverable (resp_body (ms_response (run_state r))) = true ->
  exists details md,
    finish callback (Normal, r)
    = (Returned,
       emit (CallbackCalled (CbStatus
               {| so_code := StatusTranslator.httpStatusToGrpcStatus
                               (resp_status (ms_response (run_state r)));
                  so_details := details;
                  so_metadata := md |})) r).
Proof.
  intros Hsent Hcb Hbody. rewrite (finish_sent_spec callback r Hsent), Hcb.
  apply undeliverable_deliverable in Hbody. rewrite Hbody.
  eexists _, _. reflexivity.
Qed.

Lemma finish_cancelled (callback : bool) (r : Run) :
  resp_sent (ms_response (run_state r)) = false ->
  isCancelled (ms_token (run_state r)) = true ->
  callback = true ->
  finish callback (Normal, r)
  = (Returned,
     emit (CallbackCalled (CbStatus
             {| so_code := GrpcStatus.CANCELLED;
                so_details := "Request was cancelled";
                so_metadata := [] |})) r).
Proof.
  intros Hsent Hcan Hcb. unfold afterChain. rewrite Hsent, Hcan.
  unfold sendCancelledResponse. rewrite Hcb. reflexivity.
Qed.

End WrapMethodFacts.

Section ChainShapes.

Import StruktosInterceptor.

Lemma exec_quiet (nextf : Run -> Completion * Run) (p : Prog) :
  quiet p ->
  forall r, fst (exec nextf p r) = Normal
            /\ run_index (snd (exec nextf p r)) = run_index r
            /\ run_events (snd (exec nextf p r)) = run_events r.
Proof.
  induction 1 as [|f k Hk IH|t k1 k2 H1 IH1 H2 IH2]; intros r; simpl.
  - auto.
  - apply (IH (after_step f r)).
  - destruct (t (run_state r)); auto.
Qed.

Lemma exec_returns (nextf : Run -> Completion * Run) (K : nat) (p : Prog) :
  returns p ->
  (forall r, run_index r = K ->
             fst (nextf r) = Normal /\ run_index (snd (nextf r)) = K) ->
  forall r, run_index r = K ->
            fst (exec nextf p r) = Normal
            /\ run_index (snd (exec nextf p r)) = K.
Proof.
  intros Hp Hnext.
  induction Hp as [|f k Hk IH|t k1 k2 H1 IH1 H2 IH2|k Hk IH]; intros r Hr; simpl.
  - auto.
  - apply IH. exact Hr.
  - destruct (t (run_state r)); auto.
  - destruct (Hnext r Hr) as [Hc Hi].
    destruct (nextf r) as [c r']. simpl in Hc, Hi. subst c. apply IH. exact Hi.
Qed.

Lemma exec_proceeds (nextf : Run -> Completion * Run) (i K : nat) (p : Prog) :
  proceeds p ->
  (forall r, (i <= run_index r <= K)%nat ->
             fst (nextf r) = Normal /\ run_index (snd (nextf r)) = K) ->
  forall r, (i <= run_index r <= K)%nat ->
            fst (exec nextf p r) = Normal
            /\ run_index (snd (exec nextf p r)) = K.
Proof.
  intros Hp Hnext.
  induction Hp as [k Hk|f k Hk IH|t k1 k2 H1 IH1 H2 IH2]; intros r Hr; simpl.
  - destruct (Hnext r Hr) as [Hc Hi].
    destruct (nextf r) as [c r']. simpl in Hc, Hi. subst c.
    apply (exec_returns nextf K k Hk); [|exact Hi].
    intros r1 H1. apply Hnext. lia.
  - apply IH. exact Hr.
  - destruct (t (run_state r)); auto.
Qed.

Lemma exec_once (nextf : Run -> Completion * Run) (j K : nat) (p : Prog) :
  proceeds_once p ->
  (forall r, run_index r = j ->
             fst (nextf r) = Normal /\ run_index (snd (nextf r)) = K) ->
  forall r, run_index r = j ->
            fst (exec nextf p r) = Normal
            /\ run_index (snd (exec nextf p r)) = K.
Proof.
  intros Hp Hnext.
  induction Hp as [k Hk|f k Hk IH|t k1 k2 H1 IH1 H2 IH2]; intros r Hr; simpl.
  - destruct (Hnext r Hr) as [Hc Hi].
    destruct (nextf r) as [c r']. simpl in Hc, Hi. subst c.
    destruct (exec_quiet nextf k Hk r') as (Hq & Hqi & _).
    split; [exact Hq | congruence].
  - apply IH. exact Hr.
  - destruct (t (run_state r)); auto.
Qed.

(** When every middleware calls [next], the chain runs to its end. *)
Lemma next_all_proceed (middlewares : list IStruktosMiddleware) :
  Forall (fun m => proceeds (invoke m)) middlewares ->
  forall fuel r,
    (run_index r <= length middlewares)%nat ->
    (length middlewares - run_index r <= fuel)%nat ->
    fst (next middlewares fuel r) = Normal
    /\ run_index (snd (next middlewares fuel r)) = length middlewares.
Proof.
  intros Hall. induction fuel as [|fuel IH]; intros r Hle Hfuel.
  - rewrite next_idle by lia. simpl. split; [reflexivity | lia].
  - destruct (nth_error middlewares (run_index r)) as [m|] eqn:Hm.
    + rewrite (next_unfold middlewares fuel r m Hm).
      assert (Hlt : (run_index r < length middlewares)%nat)
        by (apply nth_error_Some; rewrite Hm; discriminate).
      apply (exec_proceeds (next middlewares fuel) (S (run_index r))).
      * rewrite List.Forall_forall in Hall. apply Hall.
        eapply nth_error_In. exact Hm.
      * intros r1 H1. apply IH; lia.
      * simpl. lia.
    + apply nth_error_None in Hm.
      rewrite next_idle by lia. simpl. split; [reflexivity | lia].
Qed.

(** When the first middleware that does not call [next] sits at
    position [length pre], the cursor stops right behind it. *)
Lemma next_short_circuit (pre post : list IStruktosMiddleware)
    (mk : IStruktosMiddleware) :
  Forall (fun m => proceeds_once (invoke m)) pre ->
  quiet (invoke mk) ->
  forall fuel r,
    (run_index r <= length pre)%nat ->
    (length (pre ++ mk :: post) - run_index r <= fuel)%nat ->
    fst (next (pre ++ mk :: post) fuel r) = Normal
    /\ run_index (snd (next (pre ++ mk :: post) fuel r)) = S (length pre).
Proof.
  intros Hpre Hmk. induction fuel as [|fuel IH]; intros r Hle Hfuel.
  - rewrite length_app in Hfuel. simpl in Hfuel. lia.
  - destruct (Nat.eq_dec (run_index r) (length pre)) as [Heq|Hne].
    + assert (Hm : nth_error (pre ++ mk :: post) (run_index r) = Some mk).
      { rewrite nth_error_app2 by lia. rewrite Heq, Nat.sub_diag. reflexivity. }
      rewrite (next_unfold _ fuel r mk Hm).
      destruct (exec_quiet (next (pre ++ mk :: post) fuel) (invoke mk) Hmk
                  {| run_state := run_state r;
                     run_index := S (run_index r);
                     run_events :=
                       (run_events r ++ [MiddlewareInvoked (run_index r)])%list |})
        as (Hc & Hi & _).
      split; [exact Hc|]. rewrite Hi. simpl. lia.
    + assert (Hlt : (run_index r < length pre)%nat) by lia.
      destruct (nth_error pre (run_index r)) as [m|] eqn:Hm;
        [|apply nth_error_None in Hm; lia].
      assert (Hm' : nth_error (pre ++ mk :: post) (run_index r) = Some m)
        by (rewrite nth_error_app1 by lia; exact Hm).
      rewrite (next_unfold _ fuel r m Hm').
      apply (exec_once (next (pre ++ mk :: post) fuel) (S (run_index r))).
      * rewrite List.Forall_forall in Hpre. apply Hpre.
        eapply nth_error_In. exact Hm.
      * intros r1 H1. apply IH; [lia|].
        rewrite length_app in *. simpl in *. lia.
      * reflexivity.
Qed.

End ChainShapes.

Section WrapMethodChain.

Import StruktosInterceptor.

Variables (options : GrpcAdapterOptions) (method : Handler)
          (methodDef : MethodDefinition) (now : Z) (rnd1 rnd2 : string)
          (requests : gmap string (list Z)) (call : GrpcCall)
          (callback : bool) (middlewares : list IStruktosMiddleware).

Local Abbreviation chain :=
  (chainResult options middlewares methodDef now rnd1 rnd2 requests call).

Local Abbreviation result :=
  (wrapMethod options middlewares method methodDef now rnd1 rnd2 requests
     call callback).

Lemma chain_events :
  run_events (snd chain) = invocations 0 (run_index (snd chain))
  /\ fst chain <> OutOfFuel
  /\ (isCancelled (ms_token (initialState options methodDef now rnd1 rnd2
                               requests call)) = true ->
      isCancelled (ms_token (run_state (snd chain))) = true).
Proof.
  unfold chainResult.
  destruct (executePipeline_advanced middlewares
              (startRun (initialState options methodDef now rnd1 rnd2
                           requests call)))
    as [(_ & _ & Hev & Hcan) Hfuel].
  simpl in Hev. rewrite Nat.sub_0_r in Hev. auto.
Qed.

(** The events of an invocation: the chain's invocations, then what
    the wrapper adds. *)
Lemma result_events :
  exists rest,
    run_events (snd result)
    = (invocations 0 (run_index (snd chain)) ++ rest)%list
    /\ (forall i, ~ In (MiddlewareInvoked i) rest)
    /\ (In HandlerInvoked rest
        <-> (fst chain = Normal
             /\ resp_sent (ms_response (run_state (snd chain))) = false
             /\ isCancelled (ms_token (run_state (snd chain))) = false
             /\ legalIds (context (ms_ctx (run_state (snd chain)))) = true))
    /\ run_events (snd (afterChain options method call callback chain))
       = (run_events (snd chain) ++ rest)%list.
Proof.
  rewrite wrapMethod_finish.
  destruct chain_events as (Hev & _).
  destruct chain as [c r] eqn:E. cbn [fst snd] in *.
  destruct (finish_extends options method call callback c r)
    as (rest & Hrest & Hmw & Hh).
  exists rest. rewrite Hrest, Hev. auto.
Qed.

End WrapMethodChain.

(** C1, as the code has it. (1) When each of the N registered
    middleware calls [next] on every path, one invocation invokes
    m1..mN exactly once each, in registration order, and everything else
    the wrapper does (the handler included) comes after. (2) When
    m1..mk-1 call [next] exactly once and mk does not call it, mk+1..mN
    are never invoked and the chain ends normally. The handler is then
    entered exactly when the response is not marked sent, the context is
    not cancelled and the trailing response metadata can be built (no
    identifier of the context holds a character outside printable
    ASCII). If the response is marked sent and a callback was passed,
    the call resolves from that response by one call of the callback:
    with the translated status when the body can be delivered (it is not
    null, [JSON.stringify] does not throw on it, and for an object its
    JSON stays within printable ASCII), and otherwise with the status
    object the error transformer makes of what was thrown; if the
    transformer throws in its turn, the callback is not called at all.
    With the response marked sent and no callback, nothing follows the
    chain. When only the response metadata cannot be built, the one
    thing that follows the chain is the report of the error
    [Metadata.set] threw. *)
Theorem chain_order_and_short_circuit
    (options : GrpcAdapterOptions) (method : Handler)
    (methodDef : MethodDefinition) (now : Z) (rnd1 rnd2 : string)
    (requests : gmap string (list Z)) (call : GrpcCall) (callback : bool) :
  (forall middlewares,
      Forall (fun m => proceeds (invoke m)) middlewares ->
      exists rest,
        run_events (snd (StruktosInterceptor.wrapMethod options middlewares
                           method methodDef now rnd1 rnd2 requests call callback))
        = (invocations 0 (length middlewares) ++ rest)%list
        /\ (forall i, ~ In (MiddlewareInvoked i) rest))
  /\ (forall pre mk post,
         Forall (fun m => proceeds_once (invoke m)) pre ->
         quiet (invoke mk) ->
         let chain := chainResult options (pre ++ mk :: post) methodDef now
                        rnd1 rnd2 requests call in
         let final := ms_response (run_state (snd chain)) in
         let ctx := context (ms_ctx (run_state (snd chain))) in
         fst chain = Normal
         /\ exists rest,
             run_events (snd (StruktosInterceptor.wrapMethod options
                                (pre ++ mk :: post) method methodDef now rnd1
                                rnd2 requests call callback))
             = (invocations 0 (S (length pre)) ++ rest)%list
             /\ (forall i, ~ In (MiddlewareInvoked i) rest)
             /\ (In HandlerInvoked rest
                 <-> (resp_sent final = false
                      /\ isCancelled (ms_token (run_state (snd chain))) = false
                      /\ legalIds ctx = true))
             /\ (resp_sent final = true -> callback = true ->
                 deliverable (resp_body final) = true ->
                 exists details md,
                   rest = [CallbackCalled (CbStatus
                             {| so_code := StatusTranslator.httpStatusToGrpcStatus
                                             (resp_status final);
                                so_details := details;
                                so_metadata := md |})])
             /\ (resp_sent final = true -> callback = true ->
                 forall e, undeliverable (resp_body final) = Some e ->
                           rest = [report options true e])
             /\ (resp_sent final = true -> callback = false -> rest = [])
             /\ (resp_sent final = false ->
                 isCancelled (ms_token (run_state (snd chain))) = false ->
                 legalIds ctx = false ->
                 exists e,
                   ResponseMetadata.createResponseMetadata ctx = inl e
                   /\ rest = [report options callback e])).
Proof.
  split.
  - intros middlewares Hall.
    destruct (result_events options method methodDef now rnd1 rnd2 requests
                call callback middlewares) as (rest & Hev & Hmw & _).
    destruct (next_all_proceed middlewares Hall (length middlewares)
                (startRun (initialState options methodDef now rnd1 rnd2
                             requests call)))
      as [_ Hidx]; [simpl; lia | simpl; lia |].
    exists rest. split; [|exact Hmw].
    rewrite Hev. unfold chainResult, StruktosInterceptor.executePipeline.
    rewrite Hidx. reflexivity.
  - intros pre mk post Hpre Hmk chain final ctx.
    destruct (next_short_circuit pre post mk Hpre Hmk
                (length (pre ++ mk :: post))
                (startRun (initialState options methodDef now rnd1 rnd2
                             requests call)))
      as [Hnormal Hidx]; [simpl; lia | simpl; lia |].
    fold (StruktosInterceptor.executePipeline (pre ++ mk :: post)
            (startRun (initialState options methodDef now rnd1 rnd2
                         requests call))) in Hnormal, Hidx.
    fold (chainResult options (pre ++ mk :: post) methodDef now rnd1 rnd2
            requests call) in Hnormal, Hidx.
    fold chain in Hnormal, Hidx.
    split; [exact Hnormal|].
    destruct (result_events options method methodDef now rnd1 rnd2 requests
                call callback (pre ++ mk :: post))
      as (rest & Hev & Hmw & Hh & Hafter).
    fold chain in Hev, Hh, Hafter.
    exists rest. rewrite Hev, Hidx.
    split; [reflexivity|]. split; [exact Hmw|]. split.
    { rewrite Hh. subst final ctx. tauto. }
    subst final ctx.
    destruct chain as [c r] eqn:E. cbn [fst snd] in *. subst c.
    split; [|split; [|split]].
    + intros Hsent Hcb Hbody. subst callback.
      destruct (finish_sent options method call true r Hsent eq_refl Hbody)
        as (details & md & Hfin).
      rewrite Hfin in Hafter. cbn [snd] in Hafter.
      rewrite events_emit in Hafter.
      apply app_inv_head in Hafter. exists details, md. symmetry. exact Hafter.
    + intros Hsent Hcb e He. subst callback.
      rewrite (finish_sent_spec options method call true r Hsent), He in Hafter.
      cbn [snd addEvents run_events] in Hafter.
      apply app_inv_head in Hafter. symmetry. exact Hafter.
    + intros Hsent Hcb. subst callback.
      rewrite (finish_sent_spec options method call false r Hsent) in Hafter.
      cbn [snd] in Hafter.
      rewrite <- (app_nil_r (run_events r)) in Hafter at 1.
      apply app_inv_head in Hafter. symmetry. exact Hafter.
    + intros Hsent Hcan Hlegal.
      destruct (finish_illegal options method call callback r Hsent Hcan Hlegal)
        as (e & Hmd & Hfin).
      exists e. split; [exact Hmd|].
      rewrite Hfin in Hafter. cbn [snd addEvents run_events] in Hafter.
      apply app_inv_head in Hafter. symmetry. exact Hafter.
Qed.

Lemma chain_order_and_short_circuit_witness :
  (exists rest,
      run_events (snd (StruktosInterceptor.wrapMethod defaultOptions
                         [passThrough; passThrough] echoHandler sayHello
                         1700000000000 "0.4fzyo82mvyr" "0.k2j5" ∅ plainCall true))
      = (invocations 0 2 ++ rest)%list
      /\ (forall i, ~ In (MiddlewareInvoked i) rest))
  /\ (exists rest,
         run_events (snd (StruktosInterceptor.wrapMethod defaultOptions
                            ([passThrough] ++ rejectBadRequest :: [passThrough])
                            echoHandler sayHello
                            1700000000000 "0.4fzyo82mvyr" "0.k2j5" ∅ plainCall true))
         = (invocations 0 2 ++ rest)%list
         /\ ~ In HandlerInvoked rest).
Proof.
  destruct (chain_order_and_short_circuit defaultOptions echoHandler sayHello
              1700000000000 "0.4fzyo82mvyr" "0.k2j5" ∅ plainCall true)
    as [Hall Hshort].
  split.
  - apply (Hall [passThrough; passThrough]).
    repeat constructor.
  - destruct (Hshort [passThrough] rejectBadRequest [passThrough])
      as (_ & rest & Hev & _ & Hh & _).
    + repeat constructor.
    + repeat constructor.
    + exists rest. split; [exact Hev|].
      intros Hin. apply Hh in Hin. destruct Hin as [Hsent _].
      vm_compute in Hsent. discriminate.
Defined.

(** The second half of C1 as it is worded fails: a middleware that
    returns without calling [next] and without marking the response sent
    stops the middleware behind it, but the handler is still invoked. *)
Lemma handler_runs_after_silent_middleware :
  quiet (invoke returnsAtOnce)
  /\ run_events (snd (StruktosInterceptor.wrapMethod defaultOptions
                        [returnsAtOnce; passThrough] echoHandler sayHello
                        1700000000000 "0.4fzyo82mvyr" "0.k2j5" ∅ plainCall true))
     = [MiddlewareInvoked 0;
        MetadataSent "grpc-loyw3v28-4fzyo82m" "req-loyw3v28-k2j5";
        HandlerInvoked;
        CallbackCalled (CbResponse "Echo: Hello")].
Proof.
  split; [constructor|]. vm_compute. reflexivity.
Qed.

(** A response marked sent whose body holds a character that metadata
    cannot carry does not reach the callback with the translated status:
    [Metadata.set] throws, and the callback receives what the error
    transformer makes of that error. *)
Example sent_with_unprintable_body :
  let body := BodyObject (Some "Nom requis")
                ("{" ++ doubleQuote ++ "message" ++ doubleQuote ++ ":"
                 ++ doubleQuote ++ "Nom requis "
                 ++ String (ascii_of_nat 233) EmptyString ++ doubleQuote ++ "}") in
  let reject :=
    {| invoke := Step (set_response {| resp_status := 400; resp_body := body;
                                       resp_sent := true |}) Ret |} in
  exists details,
    run_events (snd (StruktosInterceptor.wrapMethod defaultOptions [reject]
                       echoHandler sayHello 1700000000000 "0.4fzyo82mvyr"
                       "0.k2j5" ∅ plainCall true))
    = [MiddlewareInvoked 0;
       CallbackCalled (CbStatus
         {| so_code := GrpcStatus.INTERNAL;
            so_details := details;
            so_metadata := [] |})].
Proof. eexists. vm_compute. reflexivity. Qed.

Section WrapMethodOutcomes.

Import StruktosInterceptor.




Lemma response_after_markBadRequest (r : Run) :
  ms_response (run_state (after_step markBadRequest r))
  = {| resp_status := 400;
       resp_body := resp_body (ms_response (run_state r));
       resp_sent := true |}.
Proof.
  unfold after_step. simpl.
  destruct (isCancelled (ms_token (run_state r))); reflexivity.
Qed.







Lemma initialState_token (options : GrpcAdapterOptions)
    (methodDef : MethodDefinition) (now : Z) (rnd1 rnd2 : string)
    (requests : gmap string (list Z)) (call : GrpcCall) :
  ms_token (initialState options methodDef now rnd1 rnd2 requests call)
  = if ContextFactory.bridgeAttached options
    then ContextFactory.setupCancellation now call activeToken
    else activeToken.
Proof. reflexivity. Qed.

End WrapMethodOutcomes.

(** C2, as the code has it. When the chain completes with the response
    marked sent, the handler is never invoked and the wrapper returns.
    If a callback was passed it is called once: with the response status
    translated through the table when the body can be delivered (it is
    not null, [JSON.stringify] does not throw on it, and for an object
    its JSON stays within printable ASCII), and otherwise with the
    status object the error transformer makes of what was thrown while
    the status was built (if the transformer throws in its turn, the
    callback is not called at all). If no callback was passed, nothing
    follows the chain. In particular a middleware that sets status 400 and sent
    before calling [next] makes the callback receive INVALID_ARGUMENT. *)
Theorem sent_response_short_circuits
    (options : GrpcAdapterOptions) (middlewares : list IStruktosMiddleware)
    (method : Handler) (methodDef : MethodDefinition) (now : Z)
    (rnd1 rnd2 : string) (requests : gmap string (list Z)) (call : GrpcCall)
    (callback : bool) :
  let chain := chainResult options middlewares methodDef now rnd1 rnd2
                 requests call in
  let final := ms_response (run_state (snd chain)) in
  let result := StruktosInterceptor.wrapMethod options middlewares method
                  methodDef now rnd1 rnd2 requests call callback in
  (fst chain = Normal -> resp_sent final = true ->
   ~ In HandlerInvoked (run_events (snd result))
   /\ fst result = Returned
   /\ (callback = true -> deliverable (resp_body final) = true ->
       exists details md,
         run_events (snd result)
         = (run_events (snd chain)
            ++ [CallbackCalled (CbStatus
                  {| so_code := StatusTranslator.httpStatusToGrpcStatus
                                  (resp_status final);
                     so_details := details;
                     so_metadata := md |})])%list)
   /\ (callback = true ->
       forall e, undeliverable (resp_body final) = Some e ->
                 run_events (snd result)
                 = (run_events (snd chain) ++ [report options true e])%list)
   /\ (callback = false -> run_events (snd result) = run_events (snd chain)))
  /\ run_events (snd (StruktosInterceptor.wrapMethod options [badRequestThenNext]
                        method methodDef now rnd1 rnd2 requests call true))
     = [MiddlewareInvoked 0;
        CallbackCalled (CbStatus
          {| so_code := GrpcStatus.INVALID_ARGUMENT;
             so_details := "Error";
             so_metadata := [] |})].
Proof.
  intros chain final result. split.
  - intros Hnormal Hsent.
    destruct (result_events options method methodDef now rnd1 rnd2 requests
                call callback middlewares) as (rest & Hev & _ & Hh & _).
    fold chain in Hev, Hh. fold result in Hev. split.
    { rewrite Hev. intros Hin. apply in_app_or in Hin as [Hin|Hin].
      - unfold invocations in Hin. apply in_map_iff in Hin as (i & Hi & _).
        discriminate.
      - apply Hh in Hin. destruct Hin as (_ & Hf & _).
        fold final in Hf. congruence. }
    subst result. rewrite wrapMethod_finish. fold chain.
    subst final. destruct chain as [c r]. cbn [fst snd] in *. subst c.
    rewrite (finish_sent_spec options method call callback r Hsent).
    split; [reflexivity|]. cbn [snd]. split; [|split].
    + intros Hcb Hbody. subst callback.
      apply undeliverable_deliverable in Hbody. rewrite Hbody.
      eexists _, _. reflexivity.
    + intros Hcb e He. subst callback. rewrite He. reflexivity.
    + intros Hcb. subst callback. reflexivity.
  - rewrite wrapMethod_finish. unfold chainResult.
    set (s0 := initialState options methodDef now rnd1 rnd2 requests call).
    change (StruktosInterceptor.executePipeline [badRequestThenNext] (startRun s0))
      with (Normal,
            after_step markBadRequest
              {| run_state := s0; run_index := 1%nat;
                 run_events := [MiddlewareInvoked 0] |}).
    unfold afterChain. rewrite response_after_markBadRequest. reflexivity.
Qed.

Lemma sent_response_short_circuits_witness :
  let chain := chainResult defaultOptions [passThrough; rejectBadRequest]
                 sayHello 1700000000000 "0.4fzyo82mvyr" "0.k2j5" ∅ plainCall in
  let result := StruktosInterceptor.wrapMethod defaultOptions
                  [passThrough; rejectBadRequest] echoHandler sayHello
                  1700000000000 "0.4fzyo82mvyr" "0.k2j5" ∅ plainCall true in
  ~ In HandlerInvoked (run_events (snd result))
  /\ fst result = Returned
  /\ exists details md,
       run_events (snd result)
       = (run_events (snd chain)
          ++ [CallbackCalled (CbStatus
                {| so_code := GrpcStatus.INVALID_ARGUMENT;
                   so_details := details;
                   so_metadata := md |})])%list.
Proof.
  intros chain result.
  destruct (proj1 (sent_response_short_circuits defaultOptions
                     [passThrough; rejectBadRequest] echoHandler sayHello
                     1700000000000 "0.4fzyo82mvyr" "0.k2j5" ∅ plainCall true)
              eq_refl eq_refl)
    as (Hhandler & Hreturned & Hdelivered & _).
  split; [exact Hhandler|]. split; [exact Hreturned|].
  exact (Hdelivered eq_refl eq_refl).
Defined.

(** C2 as it is worded fails where no callback was passed, as for a
    server-streaming method: the chain completes with the response
    marked sent and status 400, and nothing is delivered at all. *)
Lemma sent_without_callback_delivers_nothing :
  let chain := chainResult defaultOptions [badRequestThenNext] listUsers
                 1700000000000 "0.4fzyo82mvyr" "0.k2j5" ∅ streamCall in
  let result := StruktosInterceptor.wrapMethod defaultOptions
                  [badRequestThenNext] echoHandler listUsers
                  1700000000000 "0.4fzyo82mvyr" "0.k2j5" ∅ streamCall false in
  fst chain = Normal
  /\ resp_sent (ms_response (run_state (snd chain))) = true
  /\ resp_status (ms_response (run_state (snd chain))) = 400
  /\ run_events (snd result) = [MiddlewareInvoked 0]
  /\ callbackCount (run_events (snd result)) = 0%nat.
Proof.
  vm_compute. repeat split; reflexivity.
Qed.

(** A response marked sent whose body is [null] does not reach the
    translation: reading [body.message] throws, and the callback receives
    what the error transformer makes of that TypeError. *)
Example sent_with_null_body :
  run_events (snd (StruktosInterceptor.wrapMethod defaultOptions
                     [rejectWithNullBody] echoHandler sayHello
                     1700000000000 "0.4fzyo82mvyr" "0.k2j5" ∅ plainCall true))
  = [MiddlewareInvoked 0;
     CallbackCalled (CbStatus
       {| so_code := GrpcStatus.INTERNAL;
          so_details := "Cannot read properties of null (reading 'message')";
          so_metadata := [] |})].
Proof. vm_compute. reflexivity. Qed.




(** C3 fails with a callback too: an async handler that throws on a
    unary call is never answered, and its rejection is unhandled. *)
Example async_throw_is_never_answered :
  StruktosInterceptor.wrapMethod defaultOptions [] asyncThrower sayHello
    1700000000000 "0.4fzyo82mvyr" "0.k2j5" ∅ plainCall true
  = (Hung,
     addEvents [MetadataSent "grpc-loyw3v28-4fzyo82m" "req-loyw3v28-k2j5";
                HandlerInvoked; Uncaught notFoundError]
       (runAt 1700000000000 ∅)).
Proof. vm_compute. reflexivity. Qed.

(** And a completion hook that throws makes the callback be called
    twice: with the handler's answer, then with the hook's error. *)
Example throwing_hook_calls_back_twice :
  exists so,
    run_events (snd (StruktosInterceptor.wrapMethod optionsWithThrowingHook []
                       echoHandler sayHello 1700000000000 "0.4fzyo82mvyr"
                       "0.k2j5" ∅ plainCall true))
    = [MetadataSent "grpc-loyw3v28-4fzyo82m" "req-loyw3v28-k2j5";
       HandlerInvoked;
       CallbackCalled (CbResponse "Echo: Hello");
       RequestCompleteHook;
       CallbackCalled (CbStatus so)]
    /\ so_code so = GrpcStatus.INTERNAL.
Proof. eexists. split; vm_compute; reflexivity. Qed.

(** And an error transformer that throws leaves the caller without any
    answer: the error of the chain is lost, and the transformer's own
    error is unhandled. *)
Example throwing_transformer_never_answers :
  run_events (snd (StruktosInterceptor.wrapMethod optionsWithThrowingTransformer
                     [throwsValidation] echoHandler sayHello 1700000000000
                     "0.4fzyo82mvyr" "0.k2j5" ∅ plainCall true))
  = [MiddlewareInvoked 0; Uncaught transformerError].
Proof. vm_compute. reflexivity. Qed.

(** C5, as the code has it. With the bridge attached and a deadline that
    is not ahead of the clock when the context is set up, the token is
    cancelled before any middleware runs and stays cancelled, so the
    handler is never invoked. The invocation resolves with the cancelled
    outcome when the chain completes without marking the response sent
    and a callback was passed. *)
Theorem past_deadline_cancels
    (options : GrpcAdapterOptions) (methodDef : MethodDefinition) (now : Z)
    (rnd1 rnd2 : string) (requests : gmap string (list Z)) (call : GrpcCall)
    (d : Z) :
  ContextFactory.bridgeAttached options = true ->
  ContextFactory.extractDeadline call = Some d ->
  d <= now ->
  isCancelled (ms_token (initialState options methodDef now rnd1 rnd2
                           requests call)) = true
  /\ forall middlewares method callback,
      let chain := chainResult options middlewares methodDef now rnd1 rnd2
                     requests call in
      let result := StruktosInterceptor.wrapMethod options middlewares method
                      methodDef now rnd1 rnd2 requests call callback in
      isCancelled (ms_token (run_state (snd chain))) = true
      /\ ~ In HandlerInvoked (run_events (snd result))
      /\ (fst chain = Normal ->
          resp_sent (ms_response (run_state (snd chain))) = false ->
          callback = true ->
          fst result = Returned
          /\ run_events (snd result)
             = (run_events (snd chain)
                ++ [CallbackCalled (CbStatus
                      {| so_code := GrpcStatus.CANCELLED;
                         so_details := "Request was cancelled";
                         so_metadata := [] |})])%list).
Proof.
  intros Hon Hd Hpast.
  assert (Hinit :
    isCancelled (ms_token (initialState options methodDef now rnd1 rnd2
                             requests call)) = true).
  { rewrite initialState_token, Hon.
    unfold ContextFactory.setupCancellation. rewrite Hd.
    destruct (Z.gtb_spec (d - now) 0) as [Hgt|_]; [lia|].
    rewrite andb_false_r. reflexivity. }
  split; [exact Hinit|].
  intros middlewares method callback chain result.
  destruct (chain_events options methodDef now rnd1 rnd2 requests call
              middlewares) as (_ & _ & Hkeep).
  specialize (Hkeep Hinit). fold chain in Hkeep.
  split; [exact Hkeep|].
  destruct (result_events options method methodDef now rnd1 rnd2 requests
              call callback middlewares) as (rest & Hev & _ & Hh & _).
  fold chain in Hev, Hh. fold result in Hev. split.
  - rewrite Hev. intros Hin. apply in_app_or in Hin as [Hin|Hin].
    + unfold invocations in Hin. apply in_map_iff in Hin as (i & Hi & _).
      discriminate.
    + apply Hh in Hin. destruct Hin as (_ & _ & Hf & _). congruence.
  - intros Hnormal Hsent Hcb. subst result. rewrite wrapMethod_finish.
    fold chain. destruct chain as [c r]. cbn [fst snd] in *. subst c callback.
    rewrite (finish_cancelled options method call true r Hsent Hkeep eq_refl).
    split; reflexivity.
Qed.

Lemma past_deadline_cancels_witness :
  isCancelled (ms_token (initialState defaultOptions sayHello 1700000000000
                           "0.4fzyo82mvyr" "0.k2j5" ∅ expiredCall)) = true
  /\ ~ In HandlerInvoked
        (run_events (snd (StruktosInterceptor.wrapMethod defaultOptions
                            [passThrough] echoHandler sayHello 1700000000000
                            "0.4fzyo82mvyr" "0.k2j5" ∅ expiredCall true))).
Proof.
  destruct (past_deadline_cancels defaultOptions sayHello 1700000000000
              "0.4fzyo82mvyr" "0.k2j5" ∅ expiredCall 1699999999999)
    as [Hinit Hall]; [reflexivity | reflexivity | lia |].
  split; [exact Hinit|].
  apply (Hall [passThrough] echoHandler true).
Defined.

Example past_deadline_sample :
  run_events (snd (StruktosInterceptor.wrapMethod defaultOptions
                     [passThrough] echoHandler sayHello 1700000000000
                     "0.4fzyo82mvyr" "0.k2j5" ∅ expiredCall true))
  = [MiddlewareInvoked 0;
     CallbackCalled (CbStatus
       {| so_code := GrpcStatus.CANCELLED;
          so_details := "Request was cancelled";
          so_metadata := [] |})].
Proof. vm_compute. reflexivity. Qed.

(** C5 as it is worded fails where the chain marks the response sent:
    the deadline has passed and the token is cancelled, yet the
    invocation resolves with the translated response status, because the
    wrapper looks at the sent flag before it looks at the token. *)
Lemma past_deadline_but_sent_response_wins :
  let result := StruktosInterceptor.wrapMethod defaultOptions
                  [rejectBadRequest] echoHandler sayHello 1700000000000
                  "0.4fzyo82mvyr" "0.k2j5" ∅ expiredCall true in
  ContextFactory.extractDeadline expiredCall = Some 1699999999999
  /\ isCancelled (ms_token (initialState defaultOptions sayHello 1700000000000
                              "0.4fzyo82mvyr" "0.k2j5" ∅ expiredCall)) = true
  /\ run_events (snd result)
     = [MiddlewareInvoked 0;
        CallbackCalled (CbStatus
          {| so_code := GrpcStatus.INVALID_ARGUMENT;
             so_details := "Error";
             so_metadata := [] |})]
  /\ ~ In (CallbackCalled (CbStatus
             {| so_code := GrpcStatus.CANCELLED;
                so_details := "Request was cancelled";
                so_metadata := [] |}))
          (run_events (snd result)).
Proof.
  vm_compute. repeat split; try reflexivity.
  intros [H|[H|[]]]; discriminate.
Qed.

(** ** The rate limiter *)

Section RateLimitFacts.

Import StruktosInterceptor.

Variables (maxRequests windowMs : Z).

Lemma limiter_exec (nextf : Run -> Completion * Run) (r : Run) :
  exec nextf (invoke (createRateLimitInterceptor maxRequests windowMs)) r
  = if rateLimitFull maxRequests windowMs (run_state r)
    then (Normal, after_step rateLimitRefuse r)
    else nextf (after_step (rateLimitRecord windowMs) r).
Proof.
  simpl. destruct (rateLimitFull maxRequests windowMs (run_state r));
    [reflexivity|].
  destruct (nextf (after_step (rateLimitRecord windowMs) r)) as [[|e|] r'];
    reflexivity.
Qed.

Lemma after_refuse (r : Run) :
  ms_response (run_state (after_step rateLimitRefuse r))
  = {| resp_status := 429; resp_body := tooManyRequests; resp_sent := true |}
  /\ ms_requests (run_state (after_step rateLimitRefuse r))
     = ms_requests (run_state r).
Proof.
  unfold after_step. simpl.
  destruct (isCancelled (ms_token (run_state r))); split; reflexivity.
Qed.

Lemma after_record (r : Run) :
  ms_requests (run_state (after_step (rateLimitRecord windowMs) r))
  = <[rateLimitKey (run_state r) :=
        (rateLimitWindow windowMs (run_state r) ++ [ms_now (run_state r)])%list]>
      (ms_requests (run_state r))
  /\ ms_response (run_state (after_step (rateLimitRecord windowMs) r))
     = ms_response (run_state r).
Proof.
  unfold after_step. simpl.
  destruct (isCancelled (ms_token (run_state r))); split; reflexivity.
Qed.

Lemma window_pruned (s : MiddlewareState) :
  Forall (fun t => ms_now s - windowMs < t) (rateLimitWindow windowMs s).
Proof.
  unfold rateLimitWindow. apply List.Forall_forall. intros t Ht.
  apply List.filter_In in Ht as [_ Ht]. lia.
Qed.

Lemma window_of_key (s : MiddlewareState) (stamps : list Z) :
  ms_requests s !! rateLimitKey s = Some stamps ->
  Forall (fun t => ms_now s - windowMs < t) stamps ->
  rateLimitWindow windowMs s = stamps.
Proof.
  intros Hk Hall. unfold rateLimitWindow. rewrite Hk. simpl. clear Hk.
  induction Hall as [|t l Ht Hl IH]; [reflexivity|].
  simpl. destruct (Z.gtb_spec t (ms_now s - windowMs)); [|lia].
  f_equal. exact IH.
Qed.

End RateLimitFacts.

(** C7. A limiter for 2 requests per 10 seconds and a client key [k]
    with no earlier requests: three invocations at clock values
    [t1 <= t2 <= t3] less than 10 seconds apart, each finding under [k]
    what the one before left there. The first two record their timestamp
    and then call [next] (once, as their last action); the third sets
    status 429, marks the response sent and returns without calling
    [next], leaving the map as it was. On every invocation the timestamps
    counted are those later than [now - windowMs], and only they are kept
    when the request is recorded. An invocation never changes what the
    map holds under another key. *)
Theorem rate_limit_two_per_window
    (nextf : Run -> Completion * Run) (r1 r2 r3 : Run) (k : string)
    (t1 t2 t3 : Z) :
  let limiter := invoke (StruktosInterceptor.createRateLimitInterceptor 2 10000) in
  let record := after_step (StruktosInterceptor.rateLimitRecord 10000) in
  let refuse := after_step StruktosInterceptor.rateLimitRefuse in
  StruktosInterceptor.rateLimitKey (run_state r1) = k ->
  StruktosInterceptor.rateLimitKey (run_state r2) = k ->
  StruktosInterceptor.rateLimitKey (run_state r3) = k ->
  ms_now (run_state r1) = t1 ->
  ms_now (run_state r2) = t2 ->
  ms_now (run_state r3) = t3 ->
  t1 <= t2 <= t3 ->
  t3 - t1 < 10000 ->
  ms_requests (run_state r1) !! k = None ->
  ms_requests (run_state r2) !! k = ms_requests (run_state (record r1)) !! k ->
  ms_requests (run_state r3) !! k = ms_requests (run_state (record r2)) !! k ->
  (StruktosInterceptor.exec nextf limiter r1 = nextf (record r1)
   /\ ms_requests (run_state (record r1)) !! k = Some [t1])
  /\ (StruktosInterceptor.exec nextf limiter r2 = nextf (record r2)
      /\ ms_requests (run_state (record r2)) !! k = Some [t1; t2])
  /\ (StruktosInterceptor.exec nextf limiter r3 = (Normal, refuse r3)
      /\ ms_response (run_state (refuse r3))
         = {| resp_status := 429;
              resp_body := StruktosInterceptor.tooManyRequests;
              resp_sent := true |}
      /\ ms_requests (run_state (refuse r3)) = ms_requests (run_state r3))
  /\ (forall r,
         Forall (fun t => ms_now (run_state r) - 10000 < t)
           (StruktosInterceptor.rateLimitWindow 10000 (run_state r))
         /\ ms_requests (run_state (record r))
              !! StruktosInterceptor.rateLimitKey (run_state r)
            = Some (StruktosInterceptor.rateLimitWindow 10000 (run_state r)
                    ++ [ms_now (run_state r)])%list)
  /\ (forall r k',
         k' <> StruktosInterceptor.rateLimitKey (run_state r) ->
         ms_requests (run_state (record r)) !! k' = ms_requests (run_state r) !! k'
         /\ ms_requests (run_state (refuse r)) !! k'
            = ms_requests (run_state r) !! k').
Proof.
  intros limiter record refuse Hk1 Hk2 Hk3 Hn1 Hn2 Hn3 Hle Hwin H1 H2 H3.
  subst limiter record refuse.
  assert (Hrec : forall r,
    ms_requests (run_state (after_step (StruktosInterceptor.rateLimitRecord 10000) r))
      !! StruktosInterceptor.rateLimitKey (run_state r)
    = Some (StruktosInterceptor.rateLimitWindow 10000 (run_state r)
            ++ [ms_now (run_state r)])%list).
  { intros r. rewrite (proj1 (after_record 10000 r)). apply lookup_insert_eq. }
  assert (Hw1 : StruktosInterceptor.rateLimitWindow 10000 (run_state r1) = []).
  { unfold StruktosInterceptor.rateLimitWindow. rewrite Hk1, H1. reflexivity. }
  assert (Hs1 : ms_requests
                  (run_state (after_step (StruktosInterceptor.rateLimitRecord 10000) r1))
                  !! k = Some [t1]).
  { rewrite <- Hk1. rewrite Hrec, Hw1, Hn1. reflexivity. }
  assert (Hw2 : StruktosInterceptor.rateLimitWindow 10000 (run_state r2) = [t1]).
  { apply window_of_key; [rewrite Hk2, H2; exact Hs1|].
    repeat constructor. lia. }
  assert (Hs2 : ms_requests
                  (run_state (after_step (StruktosInterceptor.rateLimitRecord 10000) r2))
                  !! k = Some [t1; t2]).
  { rewrite <- Hk2. rewrite Hrec, Hw2, Hn2. reflexivity. }
  assert (Hw3 : StruktosInterceptor.rateLimitWindow 10000 (run_state r3) = [t1; t2]).
  { apply window_of_key; [rewrite Hk3, H3; exact Hs2|].
    repeat constructor; lia. }
  split; [|split; [|split; [|split]]].
  - split; [|exact Hs1].
    rewrite limiter_exec. unfold StruktosInterceptor.rateLimitFull.
    rewrite Hw1. reflexivity.
  - split; [|exact Hs2].
    rewrite limiter_exec. unfold StruktosInterceptor.rateLimitFull.
    rewrite Hw2. reflexivity.
  - split; [|apply after_refuse].
    rewrite limiter_exec. unfold StruktosInterceptor.rateLimitFull.
    rewrite Hw3. reflexivity.
  - intros r. split; [apply window_pruned | apply Hrec].
  - intros r k' Hne. split.
    + rewrite (proj1 (after_record 10000 r)). apply lookup_insert_ne. congruence.
    + rewrite (proj2 (after_refuse r)). reflexivity.
Qed.

Lemma rate_limit_two_per_window_witness :
  let store1 := ms_requests (run_state (snd (StruktosInterceptor.exec markingNext
                  (invoke twoPerTenSeconds) (runAt 1700000000000 ∅)))) in
  let store2 := ms_requests (run_state (snd (StruktosInterceptor.exec markingNext
                  (invoke twoPerTenSeconds) (runAt 1700000004000 store1)))) in
  StruktosInterceptor.exec markingNext (invoke twoPerTenSeconds)
    (runAt 1700000009999 store2)
  = (Normal, after_step StruktosInterceptor.rateLimitRefuse
               (runAt 1700000009999 store2)).
Proof.
  intros store1 store2.
  apply (rate_limit_two_per_window markingNext
           (runAt 1700000000000 ∅) (runAt 1700000004000 store1)
           (runAt 1700000009999 store2) "127.0.0.1:12345"
           1700000000000 1700000004000 1700000009999);
    try reflexivity; try lia.
Defined.

(** The scenario end to end: three unary calls from one peer through a
    pipeline that holds only the limiter, the map handed from one call to
    the next. The first two reach the handler, the third is answered
    with RESOURCE_EXHAUSTED. *)
Example rate_limit_end_to_end :
  let call now store :=
    StruktosInterceptor.wrapMethod defaultOptions [twoPerTenSeconds]
      echoHandler sayHello now "0.4fzyo82mvyr" "0.k2j5" store plainCall true in
  let first := call 1700000000000 ∅ in
  let second := call 1700000004000 (ms_requests (run_state (snd first))) in
  let third := call 1700000009999 (ms_requests (run_state (snd second))) in
  In HandlerInvoked (run_events (snd first))
  /\ In HandlerInvoked (run_events (snd second))
  /\ run_events (snd third)
     = [MiddlewareInvoked 0;
        CallbackCalled (CbStatus
          {| so_code := GrpcStatus.RESOURCE_EXHAUSTED;
             so_details := "Rate limit exceeded";
             so_metadata :=
               [("error-details",
                 match StruktosInterceptor.tooManyRequests with
                 | BodyObject _ json => json
                 | _ => ""
                 end)] |})].
Proof.
  vm_compute. repeat split; auto.
Qed.

(** * Further properties *)

(** ** Identifiers *)

Section IdGeneratorMoreFacts.

Import IdGenerator.

Lemma split_dash_dashless (s : string) :
  dashless s = true -> split_dash s = [s].
Proof.
  induction s as [|c s IH]; intros Hs; [reflexivity|].
  simpl in Hs. apply andb_prop in Hs as [Hc Hs].
  simpl. rewrite (IH Hs). apply negb_true_iff in Hc. rewrite Hc. reflexivity.
Qed.

Lemma parseTraceId_segments (ty rest : string) (t : Z) :
  dashless ty = true -> 0 <= t ->
  parseTraceId (ty ++ String "-" (toString36 t ++ String "-" rest))
  = {| timestamp := Some t; type := Some ty |}.
Proof.
  intros Hty Ht. unfold parseTraceId.
  rewrite split_dash_segment by exact Hty.
  rewrite split_dash_segment by (apply toString36_dashless; exact Ht).
  rewrite parseInt36_toString36 by exact Ht. reflexivity.
Qed.

Lemma parseTraceId_two_segments (ty : string) (t : Z) :
  dashless ty = true -> 0 <= t ->
  parseTraceId (ty ++ String "-" (toString36 t))
  = {| timestamp := Some t; type := Some ty |}.
Proof.
  intros Hty Ht. unfold parseTraceId.
  rewrite split_dash_segment by exact Hty.
  rewrite split_dash_dashless by (apply toString36_dashless; exact Ht).
  rewrite parseInt36_toString36 by exact Ht. reflexivity.
Qed.

Lemma digit36_alnum (d : Z) : 0 <= d < 36 -> isLowerAlnum (digit36 d) = true.
Proof.
  intros Hd. rewrite <- (Z2Nat.id d) by lia.
  assert (Hn : (Z.to_nat d < 36)%nat) by lia.
  revert Hn. generalize (Z.to_nat d). intros n Hn.
  do 36 (destruct n as [|n]; [vm_compute; reflexivity|]). lia.
Qed.

Lemma digits36_alnum (fuel : nat) :
  forall n rest,
    allChars isLowerAlnum rest = true ->
    allChars isLowerAlnum (digits36 fuel n rest) = true.
Proof.
  induction fuel as [|f IH]; intros n rest Hrest; simpl; [exact Hrest|].
  assert (Hd : allChars isLowerAlnum (String (digit36 (n mod 36)) rest) = true).
  { simpl. rewrite (digit36_alnum _ (mod36_range n)). exact Hrest. }
  destruct (n / 36 =? 0); [exact Hd | apply IH; exact Hd].
Qed.

Lemma toString36_negative (t : Z) :
  t < 0 -> exists s, toString36 t = String "-" s.
Proof.
  intros Ht. unfold toString36.
  destruct (Z.ltb_spec t 0); [eexists; reflexivity | lia].
Qed.

End IdGeneratorMoreFacts.

(** X1. [parseTraceId] reads back any identifier of the shape
    [<type>-<base36 time>] or [<type>-<base36 time>-<rest>], whatever the
    dash-free type tag and whatever follows the second dash; so it also
    reads request ids, giving type "req" and the clock value they were
    generated at. *)
Theorem parseTraceId_any_prefix (ty rest rnd : string) (t : Z) :
  dashless ty = true ->
  0 <= t ->
  IdGenerator.parseTraceId (ty ++ "-" ++ IdGenerator.toString36 t ++ "-" ++ rest)
  = {| IdGenerator.timestamp := Some t; IdGenerator.type := Some ty |}
  /\ IdGenerator.parseTraceId (ty ++ "-" ++ IdGenerator.toString36 t)
     = {| IdGenerator.timestamp := Some t; IdGenerator.type := Some ty |}
  /\ IdGenerator.parseTraceId (IdGenerator.generateRequestId t rnd)
     = {| IdGenerator.timestamp := Some t; IdGenerator.type := Some "req" |}.
Proof.
  intros Hty Ht. split; [|split].
  - exact (parseTraceId_segments ty rest t Hty Ht).
  - exact (parseTraceId_two_segments ty t Hty Ht).
  - exact (parseTraceId_segments "req" (substring 2 4 rnd) t eq_refl Ht).
Qed.

Lemma parseTraceId_any_prefix_witness :
  IdGenerator.parseTraceId ("http" ++ "-" ++ IdGenerator.toString36 623698779 ++ "-" ++ "xyz")
  = {| IdGenerator.timestamp := Some 623698779; IdGenerator.type := Some "http" |}.
Proof.
  apply (parseTraceId_any_prefix "http" "xyz" "0.k2j5" 623698779);
    [reflexivity | lia].
Defined.

(** X2. Trace ids generated at different clock values differ, whatever
    the random parts: the clock value is recoverable from the id. *)
Theorem generateTraceId_injective_in_time (t1 t2 : Z) (rnd1 rnd2 : string) :
  0 <= t1 -> 0 <= t2 ->
  IdGenerator.generateTraceId t1 rnd1 = IdGenerator.generateTraceId t2 rnd2 ->
  t1 = t2.
Proof.
  intros H1 H2 Heq.
  pose proof (parseTraceId_segments "grpc" (substring 2 8 rnd1) t1 eq_refl H1)
    as P1.
  pose proof (parseTraceId_segments "grpc" (substring 2 8 rnd2) t2 eq_refl H2)
    as P2.
  change ("grpc" ++ String "-"
            (IdGenerator.toString36 t1 ++ String "-" (substring 2 8 rnd1)))
    with (IdGenerator.generateTraceId t1 rnd1) in P1.
  change ("grpc" ++ String "-"
            (IdGenerator.toString36 t2 ++ String "-" (substring 2 8 rnd2)))
    with (IdGenerator.generateTraceId t2 rnd2) in P2.
  rewrite Heq in P1. rewrite P1 in P2. congruence.
Qed.

Lemma generateTraceId_injective_in_time_witness :
  IdGenerator.generateTraceId 1700000000000 "0.4fzyo82mvyr"
  <> IdGenerator.generateTraceId 1700000000001 "0.4fzyo82mvyr".
Proof.
  intros Heq.
  assert (H : 1700000000000 = 1700000000001).
  { apply (generateTraceId_injective_in_time 1700000000000 1700000000001
             "0.4fzyo82mvyr" "0.4fzyo82mvyr"); [lia | lia | exact Heq]. }
  discriminate H.
Defined.

Section IdFormatFacts.

Import IdGenerator IdGeneratorMore.

Lemma allChars_substring (p : ascii -> bool) (s : string) :
  allChars p s = true -> forall n m, allChars p (substring n m s) = true.
Proof.
  induction s as [|c s IH]; intros Hs n m.
  - destruct n, m; reflexivity.
  - simpl in Hs. apply andb_prop in Hs as [Hc Hs].
    destruct n as [|n]; destruct m as [|m]; simpl; auto.
    rewrite Hc. simpl. apply (IH Hs 0%nat m).
Qed.

Lemma length_substring_le (s : string) :
  forall n m, (String.length (substring n m s) <= m)%nat.
Proof.
  induction s as [|c s IH]; intros n m.
  - destruct n, m; simpl; lia.
  - destruct n as [|n]; destruct m as [|m]; simpl; try lia.
    + specialize (IH 0%nat m). lia.
    + apply IH.
    + apply IH.
Qed.

Lemma toString36_alnum (t : Z) :
  0 <= t ->
  toString36 t <> "" /\ allChars isLowerAlnum (toString36 t) = true.
Proof.
  intros Ht. unfold toString36.
  destruct (Z.ltb_spec t 0) as [Hneg|_]; [lia|].
  split.
  - destruct (digits36_head (Z.to_nat (Z.log2 t)) t "") as (d & s & _ & Heq).
    unfold digit_budget. rewrite Heq. discriminate.
  - apply digits36_alnum. reflexivity.
Qed.

Lemma toString16_nibble (v : Z) :
  0 <= v < 16 -> toString16 v = String (digit16 v) "".
Proof.
  intros Hv. unfold toString16.
  destruct (Z.ltb_spec v 0) as [Hneg|_]; [lia|].
  unfold digit_budget. simpl digits16.
  rewrite (Z.div_small v 16) by lia. rewrite Z.mod_small by lia. reflexivity.
Qed.

Lemma nibble_cases (r : Z) (P : Z -> Prop) :
  0 <= r < 16 ->
  (forall n, (n < 16)%nat -> P (Z.of_nat n)) -> P r.
Proof.
  intros Hr HP. rewrite <- (Z2Nat.id r) by lia. apply HP. lia.
Qed.

Lemma uuidDigit_x (r : Z) :
  0 <= r < 16 ->
  exists c, uuidDigit "x" r = String c "" /\ isHex c = true.
Proof.
  intros Hr. unfold uuidDigit. simpl. rewrite toString16_nibble by exact Hr.
  eexists. split; [reflexivity|].
  apply (nibble_cases r (fun r => isHex (digit16 r) = true) Hr).
  intros n Hn. do 16 (destruct n as [|n]; [vm_compute; reflexivity|]). lia.
Qed.

Lemma uuidDigit_y (r : Z) :
  0 <= r < 16 ->
  exists c, uuidDigit "y" r = String c ""
            /\ (Ascii.eqb c "8" || Ascii.eqb c "9" || Ascii.eqb c "a"
                || Ascii.eqb c "b") = true.
Proof.
  intros Hr.
  apply (nibble_cases r
           (fun r => exists c, uuidDigit "y" r = String c ""
                               /\ (Ascii.eqb c "8" || Ascii.eqb c "9"
                                   || Ascii.eqb c "a" || Ascii.eqb c "b") = true)
           Hr).
  intros n Hn.
  do 16 (destruct n as [|n];
         [eexists; split; [vm_compute; reflexivity | vm_compute; reflexivity]|]).
  lia.
Qed.

Lemma uuidFill_matches (rand : nat -> Z) :
  nibbles rand ->
  forall template k, matchesTemplate template (uuidFill template k rand) = true.
Proof.
  intros Hr template. induction template as [|p tpl IH]; intros k; [reflexivity|].
  simpl uuidFill.
  destruct (Ascii.eqb_spec p "x") as [->|Hx].
  - simpl orb. cbv iota.
    destruct (uuidDigit_x (rand k) (Hr k)) as (c & -> & Hc).
    simpl. rewrite Hc. apply IH.
  - destruct (Ascii.eqb_spec p "y") as [->|Hy].
    + simpl orb. cbv iota.
      destruct (uuidDigit_y (rand k) (Hr k)) as (c & -> & Hc).
      simpl. rewrite Hc. apply IH.
    + simpl orb. cbv iota. simpl.
      destruct (Ascii.eqb_spec p "x") as [?|_]; [contradiction|].
      destruct (Ascii.eqb_spec p "y") as [?|_]; [contradiction|].
      rewrite Ascii.eqb_refl. apply IH.
Qed.

Lemma matchesTemplate_length (template : string) :
  forall s, matchesTemplate template s = true ->
            String.length s = String.length template.
Proof.
  induction template as [|p tpl IH]; intros [|c s] H; simpl in H;
    try discriminate; [reflexivity|].
  apply andb_prop in H as [_ H]. simpl. f_equal. apply IH. exact H.
Qed.

End IdFormatFacts.

(** X3. The shape of generated identifiers: for a clock value that is
    not negative, the time segment is not empty and consists of the
    characters 0-9 and a-z; the random segment has at most 8 characters
    (4 for a request id), and consists of such characters too when the
    rendering of the random number does. *)
Theorem generated_id_format (t : Z) (rnd digits : string) :
  0 <= t ->
  rnd = "0." ++ digits ->
  allChars isLowerAlnum digits = true ->
  let ts := IdGenerator.toString36 t in
  ts <> "" /\ allChars isLowerAlnum ts = true
  /\ IdGenerator.generateTraceId t rnd = "grpc-" ++ ts ++ "-" ++ substring 0 8 digits
  /\ IdGenerator.generateRequestId t rnd = "req-" ++ ts ++ "-" ++ substring 0 4 digits
  /\ allChars isLowerAlnum (substring 0 8 digits) = true
  /\ (String.length (substring 0 8 digits) <= 8)%nat
  /\ (String.length (substring 0 4 digits) <= 4)%nat.
Proof.
  intros Ht -> Hd ts.
  destruct (toString36_alnum t Ht) as [Hne Hal].
  repeat split; auto.
  - apply allChars_substring. exact Hd.
  - apply length_substring_le.
  - apply length_substring_le.
Qed.

Lemma generated_id_format_witness :
  IdGenerator.generateTraceId 1700000000000 "0.4fzyo82mvyr"
  = "grpc-" ++ IdGenerator.toString36 1700000000000 ++ "-" ++ "4fzyo82m".
Proof.
  apply (generated_id_format 1700000000000 "0.4fzyo82mvyr" "4fzyo82mvyr");
    [lia | reflexivity | reflexivity].
Defined.

(** X4. The round trip needs the clock not to be negative: an id
    generated at a negative clock value has an empty second segment
    (the minus sign of the time is read as a separator) and parses to
    the empty record. *)
Theorem negative_clock_id_unparseable (t : Z) (rnd : string) :
  t < 0 ->
  IdGenerator.parseTraceId (IdGenerator.generateTraceId t rnd)
  = IdGenerator.emptyParsed.
Proof.
  intros Ht. destruct (toString36_negative t Ht) as (s & Hs).
  unfold IdGenerator.generateTraceId, IdGenerator.parseTraceId. rewrite Hs.
  change ("grpc-" ++ String "-" s ++ "-" ++ substring 2 8 rnd)
    with ("grpc" ++ String "-" ("" ++ String "-" (s ++ "-" ++ substring 2 8 rnd))).
  rewrite split_dash_segment by reflexivity.
  rewrite split_dash_segment by reflexivity.
  reflexivity.
Qed.

Lemma negative_clock_id_unparseable_witness :
  IdGenerator.parseTraceId (IdGenerator.generateTraceId (-5) "0.4fzyo82mvyr")
  = IdGenerator.emptyParsed.
Proof.
  apply negative_clock_id_unparseable. lia.
Defined.

(** X5. [generateUUID] always produces the version-4 layout: 36
    characters in groups 8-4-4-4-12 separated by dashes, hexadecimal
    digits throughout, the version digit 4, and 8, 9, a or b as the
    variant digit. *)
Theorem generateUUID_format (rand : nat -> Z) :
  nibbles rand ->
  matchesTemplate IdGeneratorMore.uuidTemplate (IdGeneratorMore.generateUUID rand)
  = true
  /\ String.length (IdGeneratorMore.generateUUID rand) = 36%nat.
Proof.
  intros Hr.
  pose proof (uuidFill_matches rand Hr IdGeneratorMore.uuidTemplate 0) as Hm.
  split; [exact Hm|].
  apply matchesTemplate_length in Hm. exact Hm.
Qed.

Lemma generateUUID_format_witness :
  String.length (IdGeneratorMore.generateUUID countUp) = 36%nat.
Proof.
  apply (generateUUID_format countUp).
  intros k. unfold countUp. apply Z.mod_pos_bound. lia.
Defined.

Example generateUUID_sample :
  IdGeneratorMore.generateUUID countUp = "01234567-89ab-4cde-b012-3456789abcde".
Proof. vm_compute. reflexivity. Qed.

(** ** The context factory, further *)

Section ContextFactoryMoreFacts.

Import ContextFactory.

Variables (options : GrpcAdapterOptions) (now : Z) (rnd1 rnd2 : string)
          (call : GrpcCall) (methodDef : MethodDefinition).

Lemma createContext_fields :
  let traced :=
    idOrGenerate (extractTraceId (extractMetadata call))
      (opt_generateTraceId options) (IdGenerator.generateTraceId now rnd1)
      CustomTraceIdGenerator BuiltinTraceIdGenerator in
  let requested :=
    idOrGenerate (extractRequestId (extractMetadata call))
      (opt_generateRequestId options) (IdGenerator.generateRequestId now rnd2)
      CustomRequestIdGenerator BuiltinRequestIdGenerator in
  let user :=
    match opt_extractUserId options with
    | Some f => match f (extractMetadata call) with
                | Some u => Some u
                | None => extractUserId (extractMetadata call)
                end
    | None => extractUserId (extractMetadata call)
    end in
  let patch := match opt_metadataTransformer options with
               | Some f => f (extractMetadata call)
               | None => {| patch_traceId := None; patch_requestId := None;
                            patch_userId := None |}
               end in
  let ctx := fst (createContext options now rnd1 rnd2 call methodDef) in
  traceId ctx = default (fst traced) (patch_traceId patch)
  /\ requestId ctx = default (fst requested) (patch_requestId patch)
  /\ userId ctx = match patch_userId patch with Some u => Some u | None => user end
  /\ callType ctx = determineCallType methodDef
  /\ isStreaming ctx = md_requestStream methodDef || md_responseStream methodDef
  /\ deadline ctx = extractDeadline call
  /\ snd (createContext options now rnd1 rnd2 call methodDef)
     = (snd traced ++ snd requested
        ++ match opt_extractUserId options with
           | Some _ => [CustomUserIdExtractor]
           | None => []
           end)%list.
Proof.
  unfold createContext.
  destruct (idOrGenerate (extractTraceId (extractMetadata call)) _ _ _ _)
    as [t a1].
  destruct (idOrGenerate (extractRequestId (extractMetadata call)) _ _ _ _)
    as [q a2].
  destruct (opt_extractUserId options) as [g|];
    destruct (opt_metadataTransformer options) as [f|]; simpl;
    repeat split; reflexivity.
Qed.

End ContextFactoryMoreFacts.

(** X6. The call type of a context follows the four-way table of the
    descriptor's stream flags, and its streaming flag agrees with it: a
    context is marked streaming exactly when its call type is not unary. *)
Theorem callType_matches_streaming
    (options : GrpcAdapterOptions) (now : Z) (rnd1 rnd2 : string)
    (call : GrpcCall) (methodDef : MethodDefinition) :
  opt_metadataTransformer options = None ->
  let ctx := fst (ContextFactory.createContext options now rnd1 rnd2 call methodDef) in
  callType ctx
  = match md_requestStream methodDef, md_responseStream methodDef with
    | true, true => bidirectional
    | true, false => client_streaming
    | false, true => server_streaming
    | false, false => unary
    end
  /\ (isStreaming ctx = false <-> callType ctx = unary).
Proof.
  intros _ ctx. subst ctx.
  destruct (createContext_fields options now rnd1 rnd2 call methodDef)
    as (_ & _ & _ & Hct & Hst & _).
  rewrite Hct, Hst. unfold ContextFactory.determineCallType.
  destruct (md_requestStream methodDef), (md_responseStream methodDef); simpl;
    (split; [reflexivity | split; (reflexivity || discriminate)]).
Qed.

Lemma callType_matches_streaming_witness :
  callType (fst (ContextFactory.createContext defaultOptions 1700000000000
                   "0.4fzyo82mvyr" "0.k2j5" streamCall listUsers))
  = server_streaming.
Proof.
  apply (callType_matches_streaming defaultOptions 1700000000000
           "0.4fzyo82mvyr" "0.k2j5" streamCall listUsers eq_refl).
Defined.

(** X7. The request id follows the same order as the trace id, with its
    own header and generator: a non-empty [x-request-id] header wins and
    no request-id generator is called; otherwise the configured
    generator's value is used, else the built-in
    [req-<base36 time>-<random>]. *)
Theorem requestId_precedence
    (options : GrpcAdapterOptions) (now : Z) (rnd1 rnd2 : string)
    (call : GrpcCall) (methodDef : MethodDefinition) :
  opt_metadataTransformer options = None ->
  let created := ContextFactory.createContext options now rnd1 rnd2 call methodDef in
  (forall v, requestHeader call = Some v -> v <> "" ->
             requestId (fst created) = v
             /\ ~ In CustomRequestIdGenerator (snd created)
             /\ ~ In BuiltinRequestIdGenerator (snd created))
  /\ (requestHeader call = None \/ requestHeader call = Some "" ->
      match opt_generateRequestId options with
      | Some (Some generated) =>
          requestId (fst created) = generated
          /\ ~ In BuiltinRequestIdGenerator (snd created)
      | _ =>
          requestId (fst created)
          = "req-" ++ IdGenerator.toString36 now ++ "-" ++ substring 2 4 rnd2
      end).
Proof.
  intros Hnone created. subst created.
  destruct (createContext_fields options now rnd1 rnd2 call methodDef)
    as (_ & Hid & _ & _ & _ & _ & Hasked).
  rewrite Hnone in Hid. simpl in Hid. rewrite Hid, Hasked.
  unfold requestHeader.
  assert (Htrace : forall c,
    c = CustomRequestIdGenerator \/ c = BuiltinRequestIdGenerator ->
    ~ In c (snd (ContextFactory.idOrGenerate
                   (ContextFactory.extractTraceId
                      (ContextFactory.extractMetadata call))
                   (opt_generateTraceId options)
                   (IdGenerator.generateTraceId now rnd1)
                   CustomTraceIdGenerator BuiltinTraceIdGenerator))).
  { intros c Hc. unfold ContextFactory.idOrGenerate.
    destruct (ContextFactory.extractTraceId _) as [[|? ?]|];
      destruct (opt_generateTraceId options) as [[?|]|]; simpl;
      destruct Hc as [-> | ->]; intuition discriminate. }
  assert (Huser : forall c,
    c = CustomRequestIdGenerator \/ c = BuiltinRequestIdGenerator ->
    ~ In c match opt_extractUserId options with
           | Some _ => [CustomUserIdExtractor]
           | None => []
           end).
  { intros c Hc. destruct (opt_extractUserId options); simpl;
      destruct Hc as [-> | ->]; intuition discriminate. }
  split.
  - intros v Hv Hne. rewrite Hv. destruct v as [|c v]; [contradiction|].
    simpl. split; [reflexivity|].
    split; intros Hin; apply in_app_or in Hin as [Hin|Hin].
    + exact (Htrace _ (or_introl eq_refl) Hin).
    + exact (Huser _ (or_introl eq_refl) Hin).
    + exact (Htrace _ (or_intror eq_refl) Hin).
    + exact (Huser _ (or_intror eq_refl) Hin).
  - intros Habsent.
    assert (Hsame :
      ContextFactory.idOrGenerate
        (ContextFactory.extractRequestId (ContextFactory.extractMetadata call))
        (opt_generateRequestId options) (IdGenerator.generateRequestId now rnd2)
        CustomRequestIdGenerator BuiltinRequestIdGenerator
      = match opt_generateRequestId options with
        | Some (Some v) => (v, [CustomRequestIdGenerator])
        | Some None => (IdGenerator.generateRequestId now rnd2,
                        [CustomRequestIdGenerator; BuiltinRequestIdGenerator])
        | None => (IdGenerator.generateRequestId now rnd2,
                   [BuiltinRequestIdGenerator])
        end).
    { destruct Habsent as [-> | ->]; reflexivity. }
    rewrite Hsame.
    destruct (opt_generateRequestId options) as [[g|]|]; simpl;
      try reflexivity.
    split; [reflexivity|].
    intros Hin. apply in_app_or in Hin as [Hin|Hin].
    + exact (Htrace _ (or_intror eq_refl) Hin).
    + destruct Hin as [Hin|Hin]; [discriminate|].
      exact (Huser _ (or_intror eq_refl) Hin).
Qed.

Lemma requestId_precedence_witness :
  requestId (fst (ContextFactory.createContext optionsWithExtractor 1700000000000
                    "0.4fzyo82mvyr" "0.k2j5" callWithIds sayHello))
  = "req-456"
  /\ requestId (fst (ContextFactory.createContext optionsWithExtractor 1700000000000
                       "0.4fzyo82mvyr" "0.k2j5" plainCall sayHello))
     = "custom-req-id".
Proof.
  split.
  - destruct (requestId_precedence optionsWithExtractor 1700000000000
                "0.4fzyo82mvyr" "0.k2j5" callWithIds sayHello eq_refl)
      as [Hpresent _].
    destruct (Hpresent "req-456") as [Hid _];
      [vm_compute; reflexivity | discriminate | exact Hid].
  - destruct (requestId_precedence optionsWithExtractor 1700000000000
                "0.4fzyo82mvyr" "0.k2j5" plainCall sayHello eq_refl)
      as [_ Habsent].
    destruct Habsent as [Hid _]; [left; vm_compute; reflexivity | exact Hid].
Defined.

(** X8. The user id: a configured extractor is always asked, and what it
    returns is kept, even the empty string; only when it returns nothing
    is the first value of the [x-user-id] header used; with neither, the
    context has no user id. *)
Theorem userId_precedence
    (options : GrpcAdapterOptions) (now : Z) (rnd1 rnd2 : string)
    (call : GrpcCall) (methodDef : MethodDefinition) :
  opt_metadataTransformer options = None ->
  let created := ContextFactory.createContext options now rnd1 rnd2 call methodDef in
  let metadata := ContextFactory.extractMetadata call in
  (forall f u, opt_extractUserId options = Some f -> f metadata = Some u ->
               userId (fst created) = Some u
               /\ In CustomUserIdExtractor (snd created))
  /\ (forall f, opt_extractUserId options = Some f -> f metadata = None ->
                userId (fst created) = userHeader call
                /\ In CustomUserIdExtractor (snd created))
  /\ (opt_extractUserId options = None ->
      userId (fst created) = userHeader call
      /\ ~ In CustomUserIdExtractor (snd created)).
Proof.
  intros Hnone created metadata. subst created metadata.
  destruct (createContext_fields options now rnd1 rnd2 call methodDef)
    as (_ & _ & Hid & _ & _ & _ & Hasked).
  rewrite Hnone in Hid. simpl in Hid. rewrite Hid, Hasked.
  unfold userHeader.
  assert (Hno : forall (ex : option string) (cu : option (option string))
                       (b : string) (c1 c2 : Consulted),
             c1 <> CustomUserIdExtractor -> c2 <> CustomUserIdExtractor ->
             ~ In CustomUserIdExtractor
                 (snd (ContextFactory.idOrGenerate ex cu b c1 c2))).
  { intros ex cu b c1 c2 H1 H2. unfold ContextFactory.idOrGenerate.
    destruct ex as [[|? ?]|]; destruct cu as [[?|]|]; simpl; intuition. }
  split; [|split].
  - intros f u Hf Hu. rewrite Hf, Hu. split; [reflexivity|].
    rewrite !in_app_iff. right. right. left. reflexivity.
  - intros f Hf Hu. rewrite Hf, Hu. split; [reflexivity|].
    rewrite !in_app_iff. right. right. left. reflexivity.
  - intros Hf. rewrite Hf. split; [reflexivity|].
    rewrite !in_app_iff. intros [Hin|[Hin|[]]];
      (eapply Hno; [| | exact Hin]); discriminate.
Qed.

Lemma userId_precedence_witness :
  userId (fst (ContextFactory.createContext optionsWithExtractor 1700000000000
                 "0.4fzyo82mvyr" "0.k2j5" callWithIds sayHello))
  = Some "custom-user"
  /\ userId (fst (ContextFactory.createContext defaultOptions 1700000000000
                    "0.4fzyo82mvyr" "0.k2j5" callWithIds sayHello))
     = Some "user-789".
Proof.
  split.
  - destruct (userId_precedence optionsWithExtractor 1700000000000
                "0.4fzyo82mvyr" "0.k2j5" callWithIds sayHello eq_refl)
      as [Hex _].
    destruct (Hex (fun _ => Some "custom-user") "custom-user" eq_refl eq_refl)
      as [Hid _].
    exact Hid.
  - destruct (userId_precedence defaultOptions 1700000000000
                "0.4fzyo82mvyr" "0.k2j5" callWithIds sayHello eq_refl)
      as (_ & _ & Hhd).
    destruct (Hhd eq_refl) as [Hid _]. rewrite Hid. vm_compute. reflexivity.
Defined.

(** X9. A metadata transformer overrides the identifiers: a [traceId],
    [requestId] or [userId] key it returns replaces what the headers and
    generators gave, and the keys it does not return are left alone. *)
Theorem metadataTransformer_overrides
    (options : GrpcAdapterOptions) (now : Z) (rnd1 rnd2 : string)
    (call : GrpcCall) (methodDef : MethodDefinition)
    (f : gmap string (list string) -> ContextPatch) :
  opt_metadataTransformer options = Some f ->
  let ctx := fst (ContextFactory.createContext options now rnd1 rnd2 call methodDef) in
  let patch := f (ContextFactory.extractMetadata call) in
  let plain :=
    fst (ContextFactory.createContext
           {| opt_generateTraceId := opt_generateTraceId options;
              opt_generateRequestId := opt_generateRequestId options;
              opt_extractUserId := opt_extractUserId options;
              opt_metadataTransformer := None;
              opt_enableCancellation := opt_enableCancellation options;
              opt_errorTransformer := opt_errorTransformer options;
              opt_onRequestComplete := opt_onRequestComplete options |}
           now rnd1 rnd2 call methodDef) in
  (forall v, patch_traceId patch = Some v -> traceId ctx = v)
  /\ (forall v, patch_requestId patch = Some v -> requestId ctx = v)
  /\ (forall v, patch_userId patch = Some v -> userId ctx = Some v)
  /\ (patch_traceId patch = None -> traceId ctx = traceId plain)
  /\ (patch_requestId patch = None -> requestId ctx = requestId plain)
  /\ (patch_userId patch = None -> userId ctx = userId plain).
Proof.
  intros Hf ctx patch plain. subst ctx patch plain.
  destruct (createContext_fields options now rnd1 rnd2 call methodDef)
    as (Ht & Hq & Hu & _).
  destruct (createContext_fields
              {| opt_generateTraceId := opt_generateTraceId options;
                 opt_generateRequestId := opt_generateRequestId options;
                 opt_extractUserId := opt_extractUserId options;
                 opt_metadataTransformer := None;
                 opt_enableCancellation := opt_enableCancellation options;
                 opt_errorTransformer := opt_errorTransformer options;
                 opt_onRequestComplete := opt_onRequestComplete options |}
              now rnd1 rnd2 call methodDef)
    as (Ht' & Hq' & Hu' & _).
  simpl in Ht', Hq', Hu'.
  rewrite Hf in Ht, Hq, Hu. rewrite Ht, Hq, Hu, Ht', Hq', Hu'.
  repeat split; intros; match goal with H : _ = _ |- _ => rewrite H end;
    reflexivity.
Qed.

Lemma metadataTransformer_overrides_witness :
  traceId (fst (ContextFactory.createContext optionsWithTransformer 1700000000000
                  "0.4fzyo82mvyr" "0.k2j5" callWithIds sayHello))
  = "tenant-trace".
Proof.
  destruct (metadataTransformer_overrides optionsWithTransformer 1700000000000
              "0.4fzyo82mvyr" "0.k2j5" callWithIds sayHello
              (fun _ => {| patch_traceId := Some "tenant-trace";
                           patch_requestId := None;
                           patch_userId := None |}) eq_refl)
    as [Ht _].
  apply Ht. reflexivity.
Defined.

(** X10. Identifiers are always present: unless a configured generator
    returns the empty string or a transformer overrides the field, the
    trace id and the request id of a context are not empty, whatever the
    call carries. *)
Theorem identifiers_always_present
    (options : GrpcAdapterOptions) (now : Z) (rnd1 rnd2 : string)
    (call : GrpcCall) (methodDef : MethodDefinition) :
  opt_metadataTransformer options = None ->
  opt_generateTraceId options <> Some (Some "") ->
  opt_generateRequestId options <> Some (Some "") ->
  let ctx := fst (ContextFactory.createContext options now rnd1 rnd2 call methodDef) in
  traceId ctx <> "" /\ requestId ctx <> "".
Proof.
  intros Hnone Hg1 Hg2 ctx. subst ctx.
  destruct (createContext_fields options now rnd1 rnd2 call methodDef)
    as (Ht & Hq & _).
  rewrite Hnone in Ht, Hq. simpl in Ht, Hq. rewrite Ht, Hq.
  unfold ContextFactory.idOrGenerate. split.
  - destruct (ContextFactory.extractTraceId _) as [[|? ?]|];
      destruct (opt_generateTraceId options) as [[[|? ?]|]|]; simpl;
      try discriminate; congruence.
  - destruct (ContextFactory.extractRequestId _) as [[|? ?]|];
      destruct (opt_generateRequestId options) as [[[|? ?]|]|]; simpl;
      try discriminate; congruence.
Qed.

Lemma identifiers_always_present_witness :
  traceId (fst (ContextFactory.createContext defaultOptions 1700000000000
                  "0.4fzyo82mvyr" "0.k2j5" plainCall sayHello)) <> "".
Proof.
  apply (identifiers_always_present defaultOptions 1700000000000
           "0.4fzyo82mvyr" "0.k2j5" plainCall sayHello);
    [reflexivity | discriminate | discriminate].
Defined.

(** ** The cancellation token over time *)

Section TokenFacts.

Import ContextFactory.

Lemma onEvent_keeps_cancelled (ev : CallEvent) (tok : CancellationToken) :
  isCancelled tok = true -> isCancelled (onEvent ev tok) = true.
Proof.
  intros Hc. destruct ev as [| |e|]; simpl; auto.
  - destruct (isCancellationError e); auto.
  - destruct (tok_timer tok); [rewrite Hc|]; exact Hc.
Qed.

Lemma deliver_keeps_cancelled (options : GrpcAdapterOptions) (ev : CallEvent)
    (tok : CancellationToken) :
  isCancelled tok = true -> isCancelled (deliver options ev tok) = true.
Proof.
  intros Hc. unfold deliver.
  destruct (bridgeAttached options); [apply onEvent_keeps_cancelled|]; exact Hc.
Qed.

End TokenFacts.

(** X11. The token is one-way under the bridge: once cancelled it stays
    cancelled through any sequence of transport events, and its timer
    stays cleared; a cancelled token is a fixed point of every event. *)
Theorem token_stays_cancelled
    (options : GrpcAdapterOptions) (events : list CallEvent)
    (tok : CancellationToken) :
  isCancelled tok = true ->
  isCancelled (deliverAll options events tok) = true
  /\ (tok_timer tok = None -> deliverAll options events tok = tok).
Proof.
  intros Hc. unfold deliverAll. split.
  - revert tok Hc. induction events as [|ev events IH]; intros tok Hc; simpl.
    + exact Hc.
    + apply IH. apply deliver_keeps_cancelled. exact Hc.
  - intros Ht. induction events as [|ev events IH]; simpl; [reflexivity|].
    assert (Hfix : ContextFactory.deliver options ev tok = tok).
    { unfold ContextFactory.deliver.
      destruct (ContextFactory.bridgeAttached options); [|reflexivity].
      destruct tok as [c tm]. simpl in Hc, Ht. subst c tm.
      destruct ev as [| |e|]; simpl; try reflexivity.
      destruct (ContextFactory.isCancellationError e); reflexivity. }
    rewrite Hfix. exact IH.
Qed.

Lemma token_stays_cancelled_witness :
  isCancelled (deliverAll defaultOptions [OnClose; OnError resetError; OnDeadlineTimer]
                 (cancel activeToken)) = true.
Proof.
  apply (token_stays_cancelled defaultOptions
           [OnClose; OnError resetError; OnDeadlineTimer] (cancel activeToken)).
  reflexivity.
Defined.

(** X12. Events that are no cancellation signal never cancel, however
    many arrive: after any sequence of "close" events and errors that
    are not cancellation-related the token is what it was. And with
    [enableCancellation: false] no event of any kind changes the token. *)
Theorem benign_events_never_cancel
    (options : GrpcAdapterOptions) (events : list CallEvent)
    (tok : CancellationToken) :
  (Forall benign events -> deliverAll options events tok = tok)
  /\ (opt_enableCancellation options = Some false ->
      deliverAll options events tok = tok).
Proof.
  unfold deliverAll. split.
  - intros Hall. induction Hall as [|ev events Hev Hall IH]; simpl;
      [reflexivity|].
    assert (Hfix : ContextFactory.deliver options ev tok = tok).
    { unfold ContextFactory.deliver.
      destruct (ContextFactory.bridgeAttached options); [|reflexivity].
      destruct ev as [| |e|]; simpl in *; try contradiction; try reflexivity.
      rewrite Hev. reflexivity. }
    rewrite Hfix. exact IH.
  - intros Hoff. induction events as [|ev events IH]; simpl; [reflexivity|].
    unfold ContextFactory.deliver at 2. unfold ContextFactory.bridgeAttached.
    rewrite Hoff. exact IH.
Qed.

Lemma benign_events_never_cancel_witness :
  deliverAll defaultOptions [OnClose; OnError resetError; OnClose] activeToken
  = activeToken.
Proof.
  apply (proj1 (benign_events_never_cancel defaultOptions
                  [OnClose; OnError resetError; OnClose] activeToken)).
  constructor; [exact I|].
  constructor; [vm_compute; reflexivity|].
  constructor; [exact I|].
  constructor.
Defined.

(** X13. A deadline still ahead that a [Date] can hold arms a timer and
    leaves the token active. The timer runs for exactly the time that is
    left when that is at most 2^31-1 ms, and for 1 ms when it is more;
    when it fires the token is cancelled; and if the client cancels
    first the timer is cleared, so that its expiry changes nothing any
    more. A deadline ahead that no [Date] can hold cancels the token at
    once. *)
Theorem future_deadline_arms_timer (now d : Z) (call : GrpcCall) :
  ContextFactory.extractDeadline call = Some d ->
  now < d ->
  let tok := ContextFactory.setupCancellation now call activeToken in
  (ContextFactory.isValidTime d = true ->
   tok = {| tok_cancelled := false; tok_timer := Some (ContextFactory.timerDelay (d - now)) |}
   /\ (d - now <= ContextFactory.TIMEOUT_MAX -> tok_timer tok = Some (d - now))
   /\ (ContextFactory.TIMEOUT_MAX < d - now -> tok_timer tok = Some 1)
   /\ ContextFactory.onEvent OnDeadlineTimer tok = cancel tok
   /\ ContextFactory.onEvent OnDeadlineTimer
        (ContextFactory.onEvent OnCancelled tok)
      = ContextFactory.onEvent OnCancelled tok
   /\ tok_timer (ContextFactory.onEvent OnCancelled tok) = None)
  /\ (ContextFactory.isValidTime d = false -> tok = cancel activeToken).
Proof.
  intros Hd Hlt tok. subst tok. unfold ContextFactory.setupCancellation.
  rewrite Hd. cbv zeta.
  destruct (Z.gtb_spec (d - now) 0) as [_|Hle]; [|lia]. split.
  - intros ->. cbn [andb]. split; [reflexivity|].
    cbn [tok_timer activeToken tok_cancelled]. unfold ContextFactory.timerDelay.
    split; [|split].
    + intros Hle. destruct (Z.leb_spec 1 (d - now)); [|lia].
      destruct (Z.leb_spec (d - now) ContextFactory.TIMEOUT_MAX); [reflexivity | lia].
    + intros Hgt. destruct (Z.leb_spec (d - now) ContextFactory.TIMEOUT_MAX); [lia|].
      rewrite andb_false_r. reflexivity.
    + repeat split; reflexivity.
  - intros ->. reflexivity.
Qed.

Lemma future_deadline_arms_timer_witness :
  ContextFactory.setupCancellation 1700000000000 futureCall activeToken
  = {| tok_cancelled := false; tok_timer := Some 5000 |}
  /\ tok_timer (ContextFactory.setupCancellation 1700000000000 distantCall
                  activeToken) = Some 1
  /\ ContextFactory.setupCancellation 1700000000000 unrepresentableDeadlineCall
       activeToken = cancel activeToken.
Proof.
  split; [|split].
  - apply (proj1 (future_deadline_arms_timer 1700000000000 1700000005000
                    futureCall eq_refl ltac:(lia)) eq_refl).
  - apply (proj1 (future_deadline_arms_timer 1700000000000 1702592000000
                    distantCall eq_refl ltac:(lia)) eq_refl).
    unfold ContextFactory.TIMEOUT_MAX. lia.
  - apply (proj2 (future_deadline_arms_timer 1700000000000 9000000000000000
                    unrepresentableDeadlineCall eq_refl ltac:(lia)) eq_refl).
Defined.

(** X14. What is and is not a deadline: [Infinity], an absent deadline
    and the number 0 arm no timer and cancel nothing, whatever the clock
    says; every other numeric or [Date] deadline either arms a timer
    (when it is ahead and a [Date] can hold it), for the clamped delay,
    or cancels at once (when it is not ahead, or no [Date] can hold
    it). *)
Theorem deadline_reading (now : Z) (call : GrpcCall) :
  let tok := ContextFactory.setupCancellation now call activeToken in
  match call_deadline call with
  | None | Some DlInfinity | Some (DlNumber 0) => tok = activeToken
  | Some (DlDate t) | Some (DlNumber t) =>
      (now < t -> ContextFactory.isValidTime t = true ->
       tok = {| tok_cancelled := false;
                tok_timer := Some (ContextFactory.timerDelay (t - now)) |})
      /\ (t <= now -> tok = cancel activeToken)
      /\ (ContextFactory.isValidTime t = false -> tok = cancel activeToken)
  end.
Proof.
  intros tok. subst tok.
  unfold ContextFactory.setupCancellation, ContextFactory.extractDeadline.
  destruct (call_deadline call) as [[|t|t]|]; try reflexivity.
  - cbv zeta. destruct (Z.gtb_spec (t - now) 0);
      (split; [|split]); intros;
      rewrite ?andb_false_r;
      repeat match goal with H : ContextFactory.isValidTime _ = _ |- _ => rewrite H end;
      (reflexivity || lia).
  - destruct t as [|p|p]; [reflexivity| |];
      (simpl Z.eqb; cbv iota zeta;
       match goal with |- context [?a - now >? 0] =>
         destruct (Z.gtb_spec (a - now) 0) end;
       (split; [|split]); intros;
       rewrite ?andb_false_r;
       repeat match goal with H : ContextFactory.isValidTime _ = _ |- _ => rewrite H end;
       (reflexivity || lia)).
Qed.

Lemma deadline_reading_witness :
  ContextFactory.setupCancellation 1700000000000 futureCall activeToken
  = {| tok_cancelled := false; tok_timer := Some 5000 |}.
Proof.
  apply (proj1 (deadline_reading 1700000000000 futureCall));
    [lia | reflexivity].
Defined.

(** ** Response metadata *)

Section ResponseMetadataFacts.

Import ContextFactory ResponseMetadata.

Lemma createResponseMetadata_lookup (ctx : RequestContext)
    (sent : gmap string (list string)) :
  createResponseMetadata ctx = inr sent ->
  extractTraceId sent
  = match traceId (rc_data ctx) with
    | EmptyString => None
    | t => Some t
    end
  /\ extractRequestId sent
     = match requestId (rc_data ctx) with
       | EmptyString => None
       | q => Some q
       end
  /\ (traceId (rc_data ctx) = "" -> sent !! METADATA_KEYS.TRACE_ID = None).
Proof.
  unfold createResponseMetadata, Metadata_set, extractTraceId,
    extractRequestId, metadata_get.
  destruct (traceId (rc_data ctx)) as [|a t];
    destruct (requestId (rc_data ctx)) as [|b q];
    repeat match goal with
           | |- context [isLegalNonBinaryValue ?v] =>
               destruct (isLegalNonBinaryValue v)
           end;
    intros Heq; try discriminate; injection Heq as <-;
    (split; [|split]); try discriminate; try (intros _);
    repeat first
      [ rewrite lookup_insert_eq
      | rewrite lookup_insert_ne by (vm_compute; discriminate)
      | rewrite lookup_empty ];
    reflexivity.
Qed.

End ResponseMetadataFacts.

(** X15. Identifiers propagate: when the response metadata of a context
    can be built, a context created from a call that carries it has the
    same trace id and request id as that context, and no generator is
    called for them (a configured one included); an empty identifier is
    not put on the response metadata at all. The response metadata can
    be built exactly when both identifiers stay within printable ASCII;
    otherwise building it throws. *)
Theorem response_metadata_round_trip
    (options : GrpcAdapterOptions) (now : Z) (rnd1 rnd2 : string)
    (methodDef : MethodDefinition) (ctx : ContextFactory.RequestContext) :
  opt_metadataTransformer options = None ->
  match ResponseMetadata.createResponseMetadata ctx with
  | inr sent =>
      let next := ContextFactory.createContext options now rnd1 rnd2
                    (callCarrying sent) methodDef in
      legalIds ctx = true
      /\ (traceId (ContextFactory.rc_data ctx) <> "" ->
          traceId (fst next) = traceId (ContextFactory.rc_data ctx)
          /\ ~ In CustomTraceIdGenerator (snd next)
          /\ ~ In BuiltinTraceIdGenerator (snd next))
      /\ (requestId (ContextFactory.rc_data ctx) <> "" ->
          requestId (fst next) = requestId (ContextFactory.rc_data ctx))
      /\ (traceId (ContextFactory.rc_data ctx) = "" ->
          sent !! METADATA_KEYS.TRACE_ID = None)
  | inl _ => legalIds ctx = false
  end.
Proof.
  intros Hnone.
  pose proof (createResponseMetadata_legalIds ctx) as Hlegal.
  destruct (ResponseMetadata.createResponseMetadata ctx) as [e|sent] eqn:Hsent;
    [exact Hlegal|].
  cbv zeta. split; [exact Hlegal|].
  destruct (createContext_fields options now rnd1 rnd2
              (callCarrying sent) methodDef)
    as (Ht & Hq & _ & _ & _ & _ & Hasked).
  rewrite Hnone in Ht, Hq. simpl in Ht, Hq.
  destruct (createResponseMetadata_lookup ctx sent Hsent) as (Lt & Lq & Le).
  change (ContextFactory.extractMetadata (callCarrying sent))
    with sent in *.
  rewrite Lt, Lq in *.
  split; [|split].
  - intros Hne. destruct (traceId (ContextFactory.rc_data ctx)) as [|a t];
      [contradiction|].
    rewrite Ht, Hasked. simpl. split; [reflexivity|].
    assert (Hq' : forall c,
      c = CustomTraceIdGenerator \/ c = BuiltinTraceIdGenerator ->
      ~ In c (snd (ContextFactory.idOrGenerate
                     match requestId (ContextFactory.rc_data ctx) with
                     | "" => None
                     | String a0 s => Some (String a0 s)
                     end
                     (opt_generateRequestId options)
                     (IdGenerator.generateRequestId now rnd2)
                     CustomRequestIdGenerator BuiltinRequestIdGenerator)
                ++ match opt_extractUserId options with
                   | Some _ => [CustomUserIdExtractor]
                   | None => []
                   end)%list).
    { intros c Hc Hin. apply in_app_or in Hin as [Hin|Hin].
      - unfold ContextFactory.idOrGenerate in Hin.
        destruct (requestId (ContextFactory.rc_data ctx)) as [|? ?];
          destruct (opt_generateRequestId options) as [[?|]|]; simpl in Hin;
          destruct Hc as [-> | ->]; intuition discriminate.
      - destruct (opt_extractUserId options); simpl in Hin;
          destruct Hc as [-> | ->]; intuition discriminate. }
    split; [apply Hq'; left | apply Hq'; right]; reflexivity.
  - intros Hne. destruct (requestId (ContextFactory.rc_data ctx)) as [|b q];
      [contradiction|].
    rewrite Hq. reflexivity.
  - exact Le.
Qed.

Lemma response_metadata_round_trip_witness :
  let ctx := {| ContextFactory.rc_data :=
                  fst (ContextFactory.createContext defaultOptions
                         1700000000000 "0.4fzyo82mvyr" "0.k2j5"
                         callWithIds sayHello);
                ContextFactory.rc_token := activeToken |} in
  match ResponseMetadata.createResponseMetadata ctx with
  | inr sent =>
      requestId
        (fst (ContextFactory.createContext defaultOptions 1700000005000
                "0.k2j5" "0.4fzyo82mvyr" (callCarrying sent) listUsers))
      = "req-456"
  | inl _ => False
  end.
Proof.
  intros ctx.
  pose proof (response_metadata_round_trip defaultOptions 1700000005000
                "0.k2j5" "0.4fzyo82mvyr" listUsers ctx eq_refl) as H.
  destruct (ResponseMetadata.createResponseMetadata ctx) as [e|sent].
  - vm_compute in H. discriminate H.
  - apply (proj1 (proj2 (proj2 H))). vm_compute. discriminate.
Defined.

(** ** The chain, further *)

Section ChainMoreFacts.

Import StruktosInterceptor.

Lemma exec_throws (nextf : Run -> Completion * Run) (e : JsError) (p : Prog) :
  throws e p ->
  forall r, fst (exec nextf p r) = Thrown e
            /\ run_index (snd (exec nextf p r)) = run_index r
            /\ run_events (snd (exec nextf p r)) = run_events r.
Proof.
  induction 1 as [|f k Hk IH|t k1 k2 H1 IH1 H2 IH2]; intros r; simpl.
  - auto.
  - apply (IH (after_step f r)).
  - destruct (t (run_state r)); auto.
Qed.

Lemma exec_proceeds_thrown (nextf : Run -> Completion * Run) (e : JsError)
    (j K : nat) (p : Prog) :
  proceeds p ->
  (forall r, run_index r = j ->
             fst (nextf r) = Thrown e /\ run_index (snd (nextf r)) = K) ->
  forall r, run_index r = j ->
            fst (exec nextf p r) = Thrown e
            /\ run_index (snd (exec nextf p r)) = K.
Proof.
  intros Hp Hnext.
  induction Hp as [k Hk|f k Hk IH|t k1 k2 H1 IH1 H2 IH2]; intros r Hr; simpl.
  - destruct (Hnext r Hr) as [Hc Hi].
    destruct (nextf r) as [c r']. simpl in Hc, Hi. subst c. simpl. auto.
  - apply IH. exact Hr.
  - destruct (t (run_state r)); auto.
Qed.

Lemma next_throw_chain (pre post : list IStruktosMiddleware)
    (mk : IStruktosMiddleware) (e : JsError) :
  Forall (fun m => proceeds (invoke m)) pre ->
  throws e (invoke mk) ->
  forall fuel r,
    (run_index r <= length pre)%nat ->
    (length (pre ++ mk :: post) - run_index r <= fuel)%nat ->
    fst (next (pre ++ mk :: post) fuel r) = Thrown e
    /\ run_index (snd (next (pre ++ mk :: post) fuel r)) = S (length pre).
Proof.
  intros Hpre Hmk. induction fuel as [|fuel IH]; intros r Hle Hfuel.
  - rewrite length_app in Hfuel. simpl in Hfuel. lia.
  - destruct (Nat.eq_dec (run_index r) (length pre)) as [Heq|Hne].
    + assert (Hm : nth_error (pre ++ mk :: post) (run_index r) = Some mk).
      { rewrite nth_error_app2 by lia. rewrite Heq, Nat.sub_diag. reflexivity. }
      rewrite (next_unfold _ fuel r mk Hm).
      destruct (exec_throws (next (pre ++ mk :: post) fuel) e (invoke mk) Hmk
                  {| run_state := run_state r;
                     run_index := S (run_index r);
                     run_events :=
                       (run_events r ++ [MiddlewareInvoked (run_index r)])%list |})
        as (Hc & Hi & _).
      split; [exact Hc|]. rewrite Hi. simpl. lia.
    + assert (Hlt : (run_index r < length pre)%nat) by lia.
      destruct (nth_error pre (run_index r)) as [m|] eqn:Hm;
        [|apply nth_error_None in Hm; lia].
      assert (Hm' : nth_error (pre ++ mk :: post) (run_index r) = Some m)
        by (rewrite nth_error_app1 by lia; exact Hm).
      rewrite (next_unfold _ fuel r m Hm').
      apply (exec_proceeds_thrown (next (pre ++ mk :: post) fuel) e
               (S (run_index r))).
      * rewrite List.Forall_forall in Hpre. apply Hpre.
        eapply nth_error_In. exact Hm.
      * intros r1 H1. apply IH; [lia|].
        rewrite length_app in *. simpl in *. lia.
      * reflexivity.
Qed.

Lemma guarded_after_step (f : MiddlewareState -> MiddlewareState) (r : Run) :
  run_state (after_step f r) = guarded f (run_state r).
Proof. reflexivity. Qed.

Lemma next_nested
    (layers : list ((MiddlewareState -> MiddlewareState)
                    * (MiddlewareState -> MiddlewareState))) :
  forall (done : list IStruktosMiddleware) fuel r,
    run_index r = length done ->
    (length layers <= fuel)%nat ->
    fst (next (done ++ map around layers) fuel r) = Normal
    /\ run_state (snd (next (done ++ map around layers) fuel r))
       = nested layers (run_state r)
    /\ run_index (snd (next (done ++ map around layers) fuel r))
       = (length done + length layers)%nat.
Proof.
  induction layers as [|layer rest IH]; intros done fuel r Hidx Hfuel.
  - simpl. rewrite app_nil_r. rewrite next_idle by lia.
    simpl. repeat split; lia.
  - destruct fuel as [|fuel]; [simpl in Hfuel; lia|].
    assert (Hm : nth_error (done ++ map around (layer :: rest)) (run_index r)
                 = Some (around layer)).
    { rewrite nth_error_app2 by lia. rewrite Hidx, Nat.sub_diag. reflexivity. }
    rewrite (next_unfold _ fuel r _ Hm).
    set (r1 := {| run_state := run_state r;
                  run_index := S (run_index r);
                  run_events := _ |}).
    change (done ++ map around (layer :: rest))%list
      with (done ++ around layer :: map around rest)%list.
    replace (done ++ around layer :: map around rest)%list
      with ((done ++ [around layer]) ++ map around rest)%list
      by (rewrite <- app_assoc; reflexivity).
    cbn [exec around invoke].
    destruct (IH (done ++ [around layer])%list fuel
                (after_step (fst layer) r1))
      as (Hc & Hs & Hi).
    { unfold r1, after_step. cbn [run_index]. rewrite length_app. simpl. lia. }
    { simpl in Hfuel. lia. }
    destruct (next ((done ++ [around layer]) ++ map around rest) fuel
                (after_step (fst layer) r1)) as [c r2].
    cbn [fst snd] in Hc, Hs, Hi. subst c. cbn [fst snd nested].
    split; [reflexivity|]. split.
    + rewrite guarded_after_step, Hs, guarded_after_step. reflexivity.
    + unfold after_step. cbn [run_index]. rewrite Hi, length_app. simpl. lia.
Qed.

End ChainMoreFacts.

(** X16. The first middleware that throws ends the chain: when
    m1..mk-1 call [next] and mk throws [e] before calling it, mk+1..mN
    and the handler are never invoked, and the only thing that follows
    the k invocations is the report of [e]: with a callback, one call of
    it with the status object the configured (else the default) error
    transformer makes of [e], or, when the transformer throws, no call
    and the transformer's error unhandled; without one, a line on the
    console. *)
Theorem throwing_middleware_ends_chain
    (options : GrpcAdapterOptions) (method : Handler)
    (methodDef : MethodDefinition) (now : Z) (rnd1 rnd2 : string)
    (requests : gmap string (list Z)) (call : GrpcCall) (callback : bool)
    (pre post : list IStruktosMiddleware) (mk : IStruktosMiddleware)
    (e : JsError) :
  Forall (fun m => proceeds (invoke m)) pre ->
  throws e (invoke mk) ->
  let result := StruktosInterceptor.wrapMethod options (pre ++ mk :: post)
                  method methodDef now rnd1 rnd2 requests call callback in
  fst result = Returned
  /\ run_events (snd result)
     = (invocations 0 (S (length pre))
        ++ [if callback then
              match transformed options e with
              | inr statusObject => CallbackCalled (CbStatus statusObject)
              | inl thrown => Uncaught thrown
              end
            else ConsoleError e])%list.
Proof.
  intros Hpre Hmk result. subst result. rewrite wrapMethod_finish.
  destruct (chain_events options methodDef now rnd1 rnd2 requests call
              (pre ++ mk :: post)) as (Hev & _ & _).
  destruct (next_throw_chain pre post mk e Hpre Hmk
              (length (pre ++ mk :: post))
              (startRun (initialState options methodDef now rnd1 rnd2
                           requests call)))
    as [Hc Hi]; [simpl; lia | simpl; lia |].
  unfold chainResult, StruktosInterceptor.executePipeline in *.
  destruct (StruktosInterceptor.next (pre ++ mk :: post)
              (length (pre ++ mk :: post))
              (startRun (initialState options methodDef now rnd1 rnd2
                           requests call))) as [c r].
  simpl in Hc, Hi, Hev. subst c. unfold afterChain.
  rewrite handleError_spec. unfold report.
  cbn [fst snd addEvents run_events]. rewrite Hev, Hi. split; reflexivity.
Qed.

Lemma throwing_middleware_ends_chain_witness :
  run_events (snd (StruktosInterceptor.wrapMethod defaultOptions
                     ([passThrough] ++ throwsValidation :: [passThrough])
                     echoHandler sayHello 1700000000000 "0.4fzyo82mvyr"
                     "0.k2j5" ∅ plainCall true))
  = (invocations 0 2
     ++ [CallbackCalled
           (CbStatus (StatusTranslator.defaultErrorTransformer
                        validationError))])%list.
Proof.
  apply (throwing_middleware_ends_chain defaultOptions echoHandler sayHello
           1700000000000 "0.4fzyo82mvyr" "0.k2j5" ∅ plainCall true
           [passThrough] [passThrough] throwsValidation validationError).
  - repeat constructor.
  - constructor.
Defined.

(** X17. Middleware nest like brackets: when every middleware runs some
    code, awaits [next()] and runs some more code, the chain runs the
    code before [next()] in registration order and the code after it in
    the opposite order, every piece exactly once, and completes. *)
Theorem middleware_nest_like_brackets
    (layers : list ((MiddlewareState -> MiddlewareState)
                    * (MiddlewareState -> MiddlewareState)))
    (s : MiddlewareState) :
  let result := StruktosInterceptor.executePipeline (map around layers)
                  (startRun s) in
  fst result = Normal
  /\ run_state (snd result) = nested layers s
  /\ run_events (snd result) = invocations 0 (length layers).
Proof.
  intros result. subst result. unfold StruktosInterceptor.executePipeline.
  destruct (next_nested layers [] (length (map around layers)) (startRun s))
    as (Hc & Hs & Hi); [reflexivity | rewrite length_map; lia |].
  simpl app in Hc, Hs, Hi.
  destruct (executePipeline_advanced (map around layers) (startRun s))
    as [(_ & _ & Hev & _) _].
  unfold StruktosInterceptor.executePipeline in Hev.
  simpl in Hev. rewrite Nat.sub_0_r in Hev.
  split; [exact Hc|]. split; [exact Hs|].
  rewrite Hev, Hi. reflexivity.
Qed.

Example middleware_nest_like_brackets_sample :
  resp_status (ms_response (run_state (snd
    (StruktosInterceptor.executePipeline
       (map around [(setStatus 1, setStatus 4); (setStatus 2, setStatus 3)])
       (runAt 1700000000000 ∅)))))
  = 4.
Proof. vm_compute. reflexivity. Qed.

(** ** Reaching the handler *)

Section HandlerFacts.

Import StruktosInterceptor.

Variable options : GrpcAdapterOptions.

Lemma laterCalls_settled (calls : list HandlerCall)
    (rejection : option JsError) :
  forall r,
    laterCalls options true true calls rejection Returned r
    = (Returned,
       addEvents (responses calls
                  ++ match rejection with
                     | Some e => [Uncaught e]
                     | None => []
                     end) r).
Proof.
  induction calls as [|c calls IH]; intros r.
  - simpl. destruct rejection; [reflexivity|].
    rewrite addEvents_nil. reflexivity.
  - cbn [laterCalls]. rewrite IH. destruct c as [body|e].
    + rewrite emit_addEvents, addEvents_add. reflexivity.
    + reflexivity.
Qed.

Lemma laterCalls_wrapped (p : Settled) (calls : list HandlerCall)
    (rejection : option JsError) (r : Run) :
  laterCalls options true true calls rejection
    (match p with Pending => Hung | _ => Returned end)
    (addEvents (completion options true p) r)
  = (match p, calls with
     | Pending, [] => Hung
     | _, _ => Returned
     end,
     addEvents (resumed options p calls
                ++ match rejection with
                   | Some e => [Uncaught e]
                   | None => []
                   end) r).
Proof.
  destruct p as [| |e].
  - destruct calls as [|c calls].
    + simpl. destruct rejection; rewrite !addEvents_nil; reflexivity.
    + cbn [laterCalls completion resumed]. rewrite addEvents_nil.
      destruct c as [body|e]; cbn [responses signalOf];
        rewrite complete_spec, laterCalls_settled, addEvents_add.
      * rewrite emit_addEvents, addEvents_add.
        rewrite <- !app_assoc. reflexivity.
      * rewrite <- !app_assoc. reflexivity.
  - rewrite laterCalls_settled, addEvents_add.
    destruct calls; cbn [resumed]; rewrite <- ?app_assoc; reflexivity.
  - rewrite laterCalls_settled, addEvents_add.
    destruct calls; cbn [resumed]; rewrite <- ?app_assoc; reflexivity.
Qed.

Lemma laterCalls_direct (calls : list HandlerCall)
    (rejection : option JsError) (o : Outcome) :
  forall r,
    laterCalls options false true calls rejection o r
    = (o,
       addEvents (directEvents calls
                  ++ match rejection with
                     | Some e => [Uncaught e]
                     | None => []
                     end) r).
Proof.
  induction calls as [|c calls IH]; intros r.
  - simpl. destruct rejection; [reflexivity|].
    rewrite addEvents_nil. reflexivity.
  - cbn [laterCalls negb]. rewrite IH, emit_addEvents, addEvents_add.
    reflexivity.
Qed.

Lemma uncaught_rejection (method : Handler) :
  match match h_return method with
        | Async (RejectsWith e) => Some e
        | _ => None
        end with
  | Some e => [Uncaught e]
  | None => []
  end = uncaught method.
Proof.
  unfold uncaught. destruct (h_return method) as [| |[| |]]; reflexivity.
Qed.

Lemma report_isReport (callback : bool) (e : JsError) :
  isReport (report options callback e).
Proof.
  unfold report, isReport. destruct callback.
  - destruct (transformed options e) as [thrown|so].
    + right. right. eexists. reflexivity.
    + left. eexists. reflexivity.
  - right. left. eexists. reflexivity.
Qed.

Lemma afterChain_reached (method : Handler) (call : GrpcCall)
    (callback : bool) (r : Run) :
  handlerReached (Normal, r) ->
  legalIds (context (ms_ctx (run_state r))) = true ->
  afterChain options method call callback (Normal, r)
  = let '(p, r') :=
      callOriginalMethod method call callback
        (emit (MetadataSent
                 (traceId (ContextFactory.rc_data (context (ms_ctx (run_state r)))))
                 (requestId (ContextFactory.rc_data (context (ms_ctx (run_state r))))))
              r) in
    let '(o, r'') := complete options callback p r' in
    afterReturn options method call callback o r''.
Proof.
  intros (_ & Hsent & Hcan) Hlegal. simpl in Hsent, Hcan.
  unfold afterChain. rewrite Hsent, Hcan.
  pose proof (createResponseMetadata_legalIds (context (ms_ctx (run_state r))))
    as H.
  destruct (ResponseMetadata.createResponseMetadata
              (context (ms_ctx (run_state r)))) as [e|md];
    [congruence | reflexivity].
Qed.

End HandlerFacts.

(** X18. A unary call that was passed a callback and reaches the
    handler, with identifiers that can be put on metadata, in full. The
    trailing metadata with the context's identifiers is sent, then the
    handler is invoked; every response the handler passes to its
    callback is forwarded, before and after it returns; and the first
    thing the handler signals decides how the invocation ends: a
    response first, and errors signalled later are dropped; an error (or
    a throw of a plain function) first, and that error is reported (by a
    call of the callback with the status object the error transformer
    makes of it), after any response the handler still passes before it
    returns. The completion hook runs after a response only, and what it
    throws is reported in the same way. A handler that signals only after it has returned
    resumes the invocation then. One that never signals leaves it open
    for ever, and what an async handler throws is a rejection nothing
    handles. *)
Theorem unary_handler_outcomes
    (options : GrpcAdapterOptions) (middlewares : list IStruktosMiddleware)
    (method : Handler) (methodDef : MethodDefinition) (now : Z)
    (rnd1 rnd2 : string) (requests : gmap string (list Z)) (call : GrpcCall) :
  let chain := chainResult options middlewares methodDef now rnd1 rnd2
                 requests call in
  handlerReached chain ->
  legalIds (context (ms_ctx (run_state (snd chain)))) = true ->
  call_isStream call = false ->
  StruktosInterceptor.wrapMethod options middlewares method methodDef now
    rnd1 rnd2 requests call true
  = (match firstSignal method, h_later method with
     | Pending, [] => Hung
     | _, _ => Returned
     end,
     addEvents (handlerEntry (snd chain) ++ responses (h_calls method)
                ++ resumed options (firstSignal method) (h_later method)
                ++ uncaught method) (snd chain)).
Proof.
  intros chain Hreach Hlegal Hs. rewrite wrapMethod_finish. fold chain.
  destruct chain as [c r]. destruct Hreach as (Hc & Hsent & Hcan).
  cbn [fst snd] in *. subst c.
  rewrite afterChain_reached by (try repeat split; assumption).
  rewrite callOriginalMethod_unary by (assumption || reflexivity).
  rewrite complete_spec.
  unfold StruktosInterceptor.afterReturn. rewrite Hs. cbn [negb andb].
  rewrite laterCalls_wrapped, uncaught_rejection.
  rewrite emit_addEvents, !addEvents_add.
  unfold handlerEntry. cbn [app]. rewrite <- ?app_assoc. reflexivity.
Qed.

Lemma unary_handler_outcomes_witness :
  callbackCount
    (run_events (snd (StruktosInterceptor.wrapMethod defaultOptions []
                        failsThenResponds sayHello 1700000000000
                        "0.4fzyo82mvyr" "0.k2j5" ∅ plainCall true))) = 2%nat
  /\ fst (StruktosInterceptor.wrapMethod defaultOptions [] silentHandler
            sayHello 1700000000000 "0.4fzyo82mvyr" "0.k2j5" ∅ plainCall true)
     = Hung
  /\ StruktosInterceptor.wrapMethod optionsWithHook [] answersLater
       sayHello 1700000000000 "0.4fzyo82mvyr" "0.k2j5" ∅ plainCall true
     = (Returned,
        addEvents [MetadataSent "grpc-loyw3v28-4fzyo82m" "req-loyw3v28-k2j5";
                   HandlerInvoked;
                   CallbackCalled (CbResponse "Echo: Hello");
                   RequestCompleteHook]
          (runAt 1700000000000 ∅)).
Proof.
  split; [|split].
  - rewrite (unary_handler_outcomes defaultOptions [] failsThenResponds sayHello
               1700000000000 "0.4fzyo82mvyr" "0.k2j5" ∅ plainCall);
      [vm_compute; reflexivity | vm_compute; auto | reflexivity | reflexivity].
  - rewrite (unary_handler_outcomes defaultOptions [] silentHandler sayHello
               1700000000000 "0.4fzyo82mvyr" "0.k2j5" ∅ plainCall);
      [reflexivity | vm_compute; auto | reflexivity | reflexivity].
  - rewrite (unary_handler_outcomes optionsWithHook [] answersLater sayHello
               1700000000000 "0.4fzyo82mvyr" "0.k2j5" ∅ plainCall);
      [vm_compute; reflexivity | vm_compute; auto | reflexivity | reflexivity].
Defined.

Example respond_then_fail_drops_the_error :
  run_events (snd (StruktosInterceptor.wrapMethod defaultOptions []
                     respondsThenFails sayHello 1700000000000
                     "0.4fzyo82mvyr" "0.k2j5" ∅ plainCall true))
  = [MetadataSent "grpc-loyw3v28-4fzyo82m" "req-loyw3v28-k2j5";
     HandlerInvoked;
     CallbackCalled (CbResponse "Echo: Hello")].
Proof. vm_compute. reflexivity. Qed.

(** X19. A stream-shaped call that was passed a callback and reaches the
    handler, with identifiers that can be put on metadata: the handler
    is handed the caller's callback itself, so whatever it passes,
    errors included, arrives untouched, before and after it returns; the
    wrapper considers the invocation complete as soon as the handler
    returns, runs the completion hook then, and reports only a throw of
    a plain handler (or of the hook), through one further call of the
    callback with the status object the error transformer makes of
    it. What an async handler throws is a rejection nothing
    handles. *)
Theorem stream_handler_outcomes
    (options : GrpcAdapterOptions) (middlewares : list IStruktosMiddleware)
    (method : Handler) (methodDef : MethodDefinition) (now : Z)
    (rnd1 rnd2 : string) (requests : gmap string (list Z)) (call : GrpcCall) :
  let chain := chainResult options middlewares methodDef now rnd1 rnd2
                 requests call in
  handlerReached chain ->
  legalIds (context (ms_ctx (run_state (snd chain)))) = true ->
  call_isStream call = true ->
  StruktosInterceptor.wrapMethod options middlewares method methodDef now
    rnd1 rnd2 requests call true
  = (Returned,
     addEvents (handlerEntry (snd chain) ++ directEvents (h_calls method)
                ++ completion options true
                     match h_return method with
                     | Throws e => Rejected e
                     | _ => Resolved
                     end
                ++ directEvents (h_later method)
                ++ uncaught method) (snd chain)).
Proof.
  intros chain Hreach Hlegal Hs. rewrite wrapMethod_finish. fold chain.
  destruct chain as [c r]. destruct Hreach as (Hc & Hsent & Hcan).
  cbn [fst snd] in *. subst c.
  rewrite afterChain_reached by (try repeat split; assumption).
  rewrite callOriginalMethod_stream by (assumption || reflexivity).
  rewrite complete_spec.
  unfold StruktosInterceptor.afterReturn. rewrite Hs. cbn [negb andb].
  rewrite laterCalls_direct, uncaught_rejection.
  rewrite emit_addEvents, !addEvents_add.
  unfold handlerEntry. cbn [app]. rewrite <- ?app_assoc.
  destruct (h_return method) as [|e|fate]; reflexivity.
Qed.

Lemma stream_handler_outcomes_witness :
  run_events (snd (StruktosInterceptor.wrapMethod defaultOptions []
                     {| h_calls := [RespondError notFoundError];
                        h_return := Returns; h_later := [] |}
                     sayHello 1700000000000 "0.4fzyo82mvyr" "0.k2j5" ∅
                     clientStreamCall true))
  = [MetadataSent "grpc-loyw3v28-4fzyo82m" "req-loyw3v28-k2j5";
     HandlerInvoked;
     CallbackCalled (CbRawError notFoundError)].
Proof.
  rewrite (stream_handler_outcomes defaultOptions []
             {| h_calls := [RespondError notFoundError];
                h_return := Returns; h_later := [] |}
             sayHello 1700000000000 "0.4fzyo82mvyr" "0.k2j5" ∅ clientStreamCall);
    [vm_compute; reflexivity | vm_compute; auto | reflexivity | reflexivity].
Defined.

(** X20. Whenever the handler is not reached (a middleware threw, the
    response is marked sent, or the context is cancelled) the wrapper
    returns and adds at most one event after the chain, and that event
    is a report: a status object passed to the callback, a line on the
    console, or the unhandled error of an error transformer that
    threw. No trailing metadata is sent, the handler is not
    invoked and the completion hook does not run. When the chain lets
    the handler be reached and the identifiers can be put on metadata,
    the trailing metadata and the handler's invocation come first after
    the chain, and neither occurs again. When the identifiers cannot be
    put on metadata, building the trailing metadata throws: the wrapper
    returns, and the report of that error is all that follows the
    chain. *)
Theorem short_circuit_reports_once
    (options : GrpcAdapterOptions) (middlewares : list IStruktosMiddleware)
    (method : Handler) (methodDef : MethodDefinition) (now : Z)
    (rnd1 rnd2 : string) (requests : gmap string (list Z)) (call : GrpcCall)
    (callback : bool) :
  let chain := chainResult options middlewares methodDef now rnd1 rnd2
                 requests call in
  let ctx := context (ms_ctx (run_state (snd chain))) in
  let result := StruktosInterceptor.wrapMethod options middlewares method
                  methodDef now rnd1 rnd2 requests call callback in
  (~ handlerReached chain ->
   fst result = Returned
   /\ exists added,
       run_events (snd result) = (run_events (snd chain) ++ added)%list
       /\ (length added <= 1)%nat
       /\ Forall isReport added)
  /\ (handlerReached chain -> legalIds ctx = true ->
      exists rest,
        run_events (snd result)
        = (run_events (snd chain) ++ handlerEntry (snd chain) ++ rest)%list
        /\ Forall (fun ev => isAftermath ev = true) rest)
  /\ (handlerReached chain -> legalIds ctx = false ->
      exists e,
        ResponseMetadata.createResponseMetadata ctx = inl e
        /\ result
           = (Returned, addEvents [report options callback e] (snd chain))).
Proof.
  intros chain ctx result. subst result ctx. rewrite wrapMethod_finish.
  fold chain.
  destruct (chain_events options methodDef now rnd1 rnd2 requests call
              middlewares) as (_ & Hfuel & _).
  fold chain in Hfuel.
  destruct chain as [c r]. cbn [fst snd] in *. split; [|split].
  - intros Hnot. unfold afterChain.
    destruct c as [|e|]; [| |contradiction].
    + destruct (resp_sent (ms_response (run_state r))) eqn:Hsent.
      * destruct callback.
        -- rewrite sendErrorResponse_spec by reflexivity.
           destruct (undeliverable (resp_body (ms_response (run_state r)))).
           ++ rewrite handleError_spec. split; [reflexivity|].
              eexists [_]. split; [reflexivity|]. split; [simpl; lia|].
              constructor; [apply report_isReport | constructor].
           ++ split; [reflexivity|].
              eexists [_]. split; [reflexivity|]. split; [simpl; lia|].
              constructor; [left; eexists; reflexivity | constructor].
        -- simpl. split; [reflexivity|]. exists []. rewrite app_nil_r.
           split; [reflexivity|]. split; [simpl; lia | constructor].
      * destruct (isCancelled (ms_token (run_state r))) eqn:Hcan.
        -- unfold StruktosInterceptor.sendCancelledResponse.
           destruct callback; simpl; (split; [reflexivity|]).
           ++ eexists [_]. split; [reflexivity|]. split; [simpl; lia|].
              constructor; [left; eexists; reflexivity | constructor].
           ++ exists []. rewrite app_nil_r.
              split; [reflexivity|]. split; [simpl; lia | constructor].
        -- exfalso. apply Hnot. repeat split; assumption.
    + rewrite handleError_spec. split; [reflexivity|].
      eexists [_]. split; [reflexivity|]. split; [simpl; lia|].
      constructor; [apply report_isReport | constructor].
  - intros (Hc & Hsent & Hcan) Hlegal. cbn [fst snd] in *. subst c.
    destruct (finish_reached options method call callback r Hsent Hcan Hlegal)
      as (o & evs & Hfin & Hall).
    rewrite Hfin. exists evs. split; [|exact Hall].
    unfold addEvents. cbn [snd run_events]. rewrite <- ?app_assoc. reflexivity.
  - intros (Hc & Hsent & Hcan) Hlegal. cbn [fst snd] in *. subst c.
    destruct (finish_illegal options method call callback r Hsent Hcan Hlegal)
      as (e & He & Hfin).
    exists e. split; [exact He | exact Hfin].
Qed.

Lemma short_circuit_reports_once_witness :
  exists added,
    run_events (snd (StruktosInterceptor.wrapMethod optionsWithHook
                       [rejectBadRequest] echoHandler sayHello 1700000000000
                       "0.4fzyo82mvyr" "0.k2j5" ∅ plainCall true))
    = ([MiddlewareInvoked 0] ++ added)%list
    /\ (length added <= 1)%nat
    /\ Forall isReport added.
Proof.
  destruct (short_circuit_reports_once optionsWithHook [rejectBadRequest]
              echoHandler sayHello 1700000000000 "0.4fzyo82mvyr" "0.k2j5" ∅
              plainCall true) as [Hnot _].
  destruct Hnot as (_ & added & Hev & Hlen & Hall).
  - intros (_ & Hsent & _). vm_compute in Hsent. discriminate.
  - exists added. split; [exact Hev|]. split; assumption.
Defined.

(** ** Reporting a response marked sent *)

(** X21. The status object built from a response marked sent whose body
    can be delivered: its code is the translation of the response
    status; its details are never empty (the body's [message], or a
    textual body, and "Error" when there is none or it is empty); and it
    carries the body's JSON under [error-details] exactly when the body
    is an object. A body that cannot be delivered makes the function
    throw before the callback is called: a TypeError for [null], what
    [JSON.stringify] throws, or the error of [Metadata.set] for JSON
    that leaves printable ASCII. Without a callback nothing is built and
    nothing is called. *)
Theorem sent_response_status_object (response : StruktosResponse) (r : Run) :
  (deliverable (resp_body response) = true ->
   exists so,
      StruktosInterceptor.sendErrorResponse true response r
      = (Normal, emit (CallbackCalled (CbStatus so)) r)
      /\ so_code so = StatusTranslator.httpStatusToGrpcStatus (resp_status response)
      /\ so_details so <> ""
      /\ so_details so
         = match resp_body response with
           | BodyObject (Some (String c m)) _ => String c m
           | BodyText (String c t) => String c t
           | _ => "Error"
           end
      /\ so_metadata so
         = match resp_body response with
           | BodyObject _ json => [("error-details", json)]
           | _ => []
           end)
  /\ (deliverable (resp_body response) = false ->
      StruktosInterceptor.sendErrorResponse true response r
      = (Thrown match resp_body response with
                | BodyObject _ json => illegalCharacters json
                | BodyUnserializable _ thrown => thrown
                | _ => typeErrorNull
                end, r))
  /\ StruktosInterceptor.sendErrorResponse false response r = (Normal, r).
Proof.
  split; [|split; [|reflexivity]].
  - intros Hbody. unfold StruktosInterceptor.sendErrorResponse. simpl.
    destruct (resp_body response) as [| |[[|c m]|] json|[|c t]|m thrown];
      simpl in Hbody; try discriminate; rewrite ?Hbody;
      (eexists; split; [reflexivity|]; simpl;
       repeat split; (reflexivity || discriminate)).
  - intros Hbody. unfold StruktosInterceptor.sendErrorResponse. simpl.
    destruct (resp_body response) as [| |m json|t|m thrown];
      simpl in Hbody; try discriminate; rewrite ?Hbody; reflexivity.
Qed.

Lemma sent_response_status_object_witness :
  exists so,
    StruktosInterceptor.sendErrorResponse true
      {| resp_status := 429; resp_body := StruktosInterceptor.tooManyRequests;
         resp_sent := true |}
      (runAt 1700000000000 ∅)
    = (Normal, emit (CallbackCalled (CbStatus so)) (runAt 1700000000000 ∅))
    /\ so_details so = "Rate limit exceeded".
Proof.
  destruct (proj1 (sent_response_status_object
                     {| resp_status := 429;
                        resp_body := StruktosInterceptor.tooManyRequests;
                        resp_sent := true |}
                     (runAt 1700000000000 ∅)))
    as (so & Heq & _ & _ & Hd & _).
  - reflexivity.
  - exists so. split; [exact Heq | exact Hd].
Defined.

(** X22. The table is one-to-one on the statuses it lists: no two of
    them share a protocol code. So the delivered code tells the status:
    it is OK only for 200, and INTERNAL only for 500 and for statuses
    the table does not list. *)
Theorem status_table_one_to_one :
  (forall h1 h2,
      In h1 StatusTranslator.taxonomy -> In h2 StatusTranslator.taxonomy ->
      StatusTranslator.httpStatusToGrpcStatus h1
      = StatusTranslator.httpStatusToGrpcStatus h2 ->
      h1 = h2)
  /\ (forall h, StatusTranslator.httpStatusToGrpcStatus h = GrpcStatus.OK
                <-> h = 200)
  /\ (forall h, StatusTranslator.httpStatusToGrpcStatus h = GrpcStatus.INTERNAL
                <-> (h = 500 \/ ~ In h StatusTranslator.taxonomy)).
Proof.
  assert (Hin : forall h, In h StatusTranslator.taxonomy ->
            h = 200 \/ h = 400 \/ h = 401 \/ h = 403 \/ h = 404 \/ h = 409
            \/ h = 429 \/ h = 499 \/ h = 500 \/ h = 501 \/ h = 503 \/ h = 504).
  { intros h Hh. simpl in Hh. intuition. }
  split; [|split].
  - intros h1 h2 H1 H2 Heq. apply Hin in H1. apply Hin in H2.
    repeat (destruct H1 as [->|H1]); try subst h1;
      repeat (destruct H2 as [->|H2]); try subst h2;
      first [reflexivity | vm_compute in Heq; discriminate Heq].
  - intros h. split; [|intros ->; reflexivity].
    intros Heq.
    destruct (in_dec Z.eq_dec h StatusTranslator.taxonomy) as [Hh|Hh].
    + apply Hin in Hh.
      repeat (destruct Hh as [->|Hh]); try subst h;
        first [reflexivity | vm_compute in Heq; discriminate Heq].
    + rewrite (httpStatusToGrpcStatus_default h Hh) in Heq.
      vm_compute in Heq. discriminate Heq.
  - intros h. split.
    + intros Heq.
      destruct (in_dec Z.eq_dec h StatusTranslator.taxonomy) as [Hh|Hh];
        [|right; exact Hh].
      left. apply Hin in Hh.
      repeat (destruct Hh as [->|Hh]); try subst h;
        first [reflexivity | vm_compute in Heq; discriminate Heq].
    + intros [->|Hh]; [reflexivity|].
      apply httpStatusToGrpcStatus_default. exact Hh.
Qed.

Lemma status_table_one_to_one_witness :
  In 404 StatusTranslator.taxonomy /\ In 409 StatusTranslator.taxonomy
  /\ StatusTranslator.httpStatusToGrpcStatus 404
     <> StatusTranslator.httpStatusToGrpcStatus 409.
Proof.
  assert (H404 : In 404 StatusTranslator.taxonomy) by (simpl; tauto).
  assert (H409 : In 409 StatusTranslator.taxonomy) by (simpl; tauto).
  split; [exact H404|]. split; [exact H409|].
  intros Heq.
  pose proof (proj1 status_table_one_to_one 404 409 H404 H409 Heq) as H.
  discriminate H.
Defined.

(** ** The rate limiter, in general *)

Section RateLimitMoreFacts.

Import StruktosInterceptor.

Variables (maxRequests windowMs : Z).

Lemma limited_requests (r : Run) :
  ms_requests (run_state (limited maxRequests windowMs r))
  = if rateLimitFull maxRequests windowMs (run_state r)
    then ms_requests (run_state r)
    else <[rateLimitKey (run_state r) :=
             (rateLimitWindow windowMs (run_state r)
              ++ [ms_now (run_state r)])%list]> (ms_requests (run_state r)).
Proof.
  unfold limited.
  destruct (rateLimitFull maxRequests windowMs (run_state r)).
  - apply after_refuse.
  - apply after_record.
Qed.

End RateLimitMoreFacts.

(** X23. The limiter keeps its lists short: an invocation never makes a
    list of the map longer than [maxRequests]. If every list has at most
    [maxRequests] entries before an invocation, the same holds after it,
    whichever client called and whether or not the request was let
    through; and the limiter's own code is all that runs before [next]. *)
Theorem limiter_lists_stay_short
    (maxRequests windowMs : Z) (nextf : Run -> Completion * Run) (r : Run) :
  listsWithin maxRequests (ms_requests (run_state r)) ->
  listsWithin maxRequests
    (ms_requests (run_state (limited maxRequests windowMs r)))
  /\ StruktosInterceptor.exec nextf
       (invoke (StruktosInterceptor.createRateLimitInterceptor maxRequests windowMs))
       r
     = if StruktosInterceptor.rateLimitFull maxRequests windowMs (run_state r)
       then (Normal, limited maxRequests windowMs r)
       else nextf (limited maxRequests windowMs r).
Proof.
  intros Hin. split.
  - rewrite limited_requests.
    destruct (StruktosInterceptor.rateLimitFull maxRequests windowMs (run_state r))
      eqn:Hfull; [exact Hin|].
    intros k stamps Hk.
    destruct (decide (StruktosInterceptor.rateLimitKey (run_state r) = k))
      as [<-|Hne].
    + rewrite lookup_insert_eq in Hk. injection Hk as <-.
      unfold StruktosInterceptor.rateLimitFull in Hfull.
      rewrite length_app. simpl.
      destruct (Z.geb_spec
                  (Z.of_nat (length (StruktosInterceptor.rateLimitWindow
                                       windowMs (run_state r))))
                  maxRequests); [discriminate|]. lia.
    + rewrite lookup_insert_ne in Hk by exact Hne. exact (Hin k stamps Hk).
  - rewrite limiter_exec. unfold limited.
    destruct (StruktosInterceptor.rateLimitFull maxRequests windowMs (run_state r));
      reflexivity.
Qed.

Lemma limiter_lists_stay_short_witness :
  listsWithin 2
    (ms_requests (run_state (limited 2 10000 (runAt 1700000000000 ∅)))).
Proof.
  apply (limiter_lists_stay_short 2 10000 stoppingNext (runAt 1700000000000 ∅)).
  intros k stamps Hk.
  change (ms_requests (run_state (runAt 1700000000000 ∅)))
    with (∅ : gmap string (list Z)) in Hk.
  rewrite lookup_empty in Hk. discriminate.
Defined.

(** X24. When a client is let through again. A request is refused
    exactly when at least [maxRequests] of the client's recorded
    timestamps are later than [now - windowMs]. So a limit that is not
    positive refuses every request; and with a positive limit a client
    whose recorded timestamps have all left the window is let through,
    and its list restarts with the current timestamp alone. A refused
    request is not recorded. *)
Theorem limiter_lets_through_again
    (maxRequests windowMs : Z) (r : Run) :
  let s := run_state r in
  let key := StruktosInterceptor.rateLimitKey s in
  (maxRequests <= 0 ->
   StruktosInterceptor.rateLimitFull maxRequests windowMs s = true)
  /\ (StruktosInterceptor.rateLimitFull maxRequests windowMs s = true ->
      ms_requests (run_state (limited maxRequests windowMs r)) = ms_requests s)
  /\ (0 < maxRequests ->
      (forall stamps, ms_requests s !! key = Some stamps ->
                      Forall (fun t => t <= ms_now s - windowMs) stamps) ->
      StruktosInterceptor.rateLimitFull maxRequests windowMs s = false
      /\ ms_requests (run_state (limited maxRequests windowMs r)) !! key
         = Some [ms_now s]).
Proof.
  intros s key. subst s key. split; [|split].
  - intros Hmax. unfold StruktosInterceptor.rateLimitFull.
    destruct (Z.geb_spec
                (Z.of_nat (length (StruktosInterceptor.rateLimitWindow
                                     windowMs (run_state r))))
                maxRequests); [reflexivity | lia].
  - intros Hfull. rewrite limited_requests, Hfull. reflexivity.
  - intros Hmax Hold.
    assert (Hw : StruktosInterceptor.rateLimitWindow windowMs (run_state r) = []).
    { unfold StruktosInterceptor.rateLimitWindow.
      destruct (ms_requests (run_state r)
                  !! StruktosInterceptor.rateLimitKey (run_state r))
        as [stamps|] eqn:Hk; [|reflexivity].
      specialize (Hold stamps eq_refl). simpl. clear Hk.
      induction Hold as [|t l Ht Hl IH]; [reflexivity|].
      simpl. destruct (Z.gtb_spec t (ms_now (run_state r) - windowMs)); [lia|].
      exact IH. }
    assert (Hfull : StruktosInterceptor.rateLimitFull maxRequests windowMs
                      (run_state r) = false).
    { unfold StruktosInterceptor.rateLimitFull. rewrite Hw.
      match goal with
      | |- (?a >=? ?b) = false =>
          destruct (Z.geb_spec a b); [simpl in *; lia | reflexivity]
      end. }
    split; [exact Hfull|].
    rewrite limited_requests, Hfull, Hw. apply lookup_insert_eq.
Qed.

Lemma limiter_lets_through_again_witness :
  ms_requests
    (run_state (limited 2 10000
                  (runAt 1700000010000
                     {[ "127.0.0.1:12345" := [1700000000000; 1699999999000] ]})))
    !! "127.0.0.1:12345"
  = Some [1700000010000].
Proof.
  destruct (limiter_lets_through_again 2 10000
              (runAt 1700000010000
                 {[ "127.0.0.1:12345" := [1700000000000; 1699999999000] ]}))
    as (_ & _ & Hagain).
  destruct Hagain as [_ Hstore]; [lia | | exact Hstore].
  intros stamps Hk. vm_compute in Hk. injection Hk as <-.
  repeat constructor; vm_compute; discriminate.
Defined.

(** ** Wrapping a service *)

(** X25. [wrapService] keeps the entries of the implementation, names
    and order: an entry that is not a function passes through unchanged;
    a function is wrapped with the descriptor registered under its name,
    and with a synthesized unary descriptor of path
    [/<service>/<method>] when none is registered, so that a call to it
    gets a context with that path and call type unary. *)
Theorem wrapService_entries
    (service : string) (implementation : list (string * ImplEntry))
    (methodDefinitions : gmap string MethodDefinition) :
  let wrapped := StruktosInterceptorMore.wrapService service implementation
                   methodDefinitions in
  map fst wrapped = map fst implementation
  /\ (forall name value,
         In (name, ImplValue value) implementation ->
         In (name, WrappedValue value) wrapped)
  /\ (forall name method def,
         In (name, ImplFunction method) implementation ->
         methodDefinitions !! name = Some def ->
         In (name, WrappedFunction method def) wrapped)
  /\ (forall name method,
         In (name, ImplFunction method) implementation ->
         methodDefinitions !! name = None ->
         exists def,
           In (name, WrappedFunction method def) wrapped
           /\ md_path def = "/" ++ service ++ "/" ++ name
           /\ forall options now rnd1 rnd2 call,
               opt_metadataTransformer options = None ->
               let ctx := fst (ContextFactory.createContext options now rnd1
                                 rnd2 call def) in
               callType ctx = unary /\ isStreaming ctx = false
               /\ methodPath ctx = "/" ++ service ++ "/" ++ name
               /\ serviceName ctx = service
               /\ methodName ctx = name).
Proof.
  intros wrapped. subst wrapped. unfold StruktosInterceptorMore.wrapService.
  split; [|split; [|split]].
  - rewrite map_map. apply map_ext. intros [name [method|value]]; reflexivity.
  - intros name value Hin.
    apply in_map_iff. exists (name, ImplValue value). split; [reflexivity | exact Hin].
  - intros name method def Hin Hdef.
    apply in_map_iff. exists (name, ImplFunction method).
    split; [rewrite Hdef; reflexivity | exact Hin].
  - intros name method Hin Hdef. eexists. split; [|split].
    + apply in_map_iff. exists (name, ImplFunction method).
      split; [rewrite Hdef; reflexivity | exact Hin].
    + reflexivity.
    + intros options now rnd1 rnd2 call Hnone.
      unfold ContextFactory.createContext.
      destruct (ContextFactory.idOrGenerate
                  (ContextFactory.extractTraceId _) _ _ _ _) as [t a1].
      destruct (ContextFactory.idOrGenerate
                  (ContextFactory.extractRequestId _) _ _ _ _) as [q a2].
      rewrite Hnone.
      destruct (opt_extractUserId options); simpl; repeat split; reflexivity.
Qed.

Lemma wrapService_entries_witness :
  exists def,
    In ("SayGoodbye", WrappedFunction silentHandler def)
      (StruktosInterceptorMore.wrapService "example.Greeter"
         greeterImplementation {[ "SayHello" := sayHello ]})
    /\ md_path def = "/example.Greeter/SayGoodbye".
Proof.
  destruct (wrapService_entries "example.Greeter" greeterImplementation
              {[ "SayHello" := sayHello ]}) as (_ & _ & _ & Hnew).
  destruct (Hnew "SayGoodbye" silentHandler) as (def & Hin & Hpath & _).
  - simpl. auto.
  - vm_compute. reflexivity.
  - exists def. split; [exact Hin | exact Hpath].
Defined.

Example wrapService_sample :
  StruktosInterceptorMore.wrapService "example.Greeter" greeterImplementation
    {[ "SayHello" := sayHello ]}
  = [("SayHello", WrappedFunction echoHandler sayHello);
     ("version", WrappedValue "1.0");
     ("SayGoodbye",
      WrappedFunction silentHandler
        {| md_service := "example.Greeter"; md_method := "SayGoodbye";
           md_path := "/example.Greeter/SayGoodbye";
           md_requestStream := false; md_responseStream := false |})].
Proof. vm_compute. reflexivity. Qed.

(** ** The interceptor form of the pipeline *)

Section InterceptorFacts.

Import StruktosInterceptor StruktosInterceptorMore.

Lemma createInterceptor_finish (options : GrpcAdapterOptions)
    (middlewares : list IStruktosMiddleware) (methodDef : MethodDefinition)
    (now : Z) (rnd1 rnd2 : string) (requests : gmap string (list Z))
    (call : GrpcCall) (callback : bool) (next : Handler) :
  createInterceptor options middlewares methodDef now rnd1 rnd2 requests call
    callback next
  = afterChainDirect options next callback
      (chainResult options middlewares methodDef now rnd1 rnd2 requests call).
Proof. reflexivity. Qed.

Lemma afterChain_same_when_not_reached (options : GrpcAdapterOptions)
    (method : Handler) (call : GrpcCall) (callback : bool)
    (cr : Completion * Run) :
  ~ handlerReached cr ->
  afterChainDirect options method callback cr
  = afterChain options method call callback cr.
Proof.
  intros Hnot. destruct cr as [[|e|] r]; try reflexivity.
  unfold afterChainDirect, afterChain.
  destruct (resp_sent (ms_response (run_state r))) eqn:Hsent; [reflexivity|].
  destruct (isCancelled (ms_token (run_state r))) eqn:Hcan; [reflexivity|].
  exfalso. apply Hnot. repeat split; assumption.
Qed.

(** Whether [await next(call, callback)] comes to an end: it does not
    when [next] is async, its body runs through, and its promise never
    settles. *)
Lemma awaitNext_frame (options : GrpcAdapterOptions) (next : Handler)
    (callback : bool) :
  exists evs,
    (forall r,
        awaitNext options next callback r
        = (if match h_return next with
              | Async StaysPending =>
                  callback
                  || match h_calls next, h_later next with
                     | [], [] => true
                     | _, _ => false
                     end
              | _ => false
              end
           then Hung else Returned,
           addEvents (HandlerInvoked :: evs) r))
    /\ Forall (fun ev => isAftermath ev = true) evs.
Proof.
  unfold awaitNext.
  assert (Hdirect : forall calls,
            Forall (fun ev => isAftermath ev = true)
              (if callback then directEvents calls else [])).
  { intros calls. destruct callback;
      [apply directEvents_aftermath | constructor]. }
  destruct (h_calls next) as [|c calls] eqn:Hcalls.
  - (* the body makes no call before it returns *)
    destruct (h_return next) as [|e|fate] eqn:Hret.
    + destruct (laterCalls_frame options callback false (h_later next) None
                  Returned) as (o' & evs & Hf & Hall & Hkeep).
      rewrite (Hkeep ltac:(discriminate)) in Hf.
      exists (completion options callback Resolved ++ evs)%list. split.
      * intros r. cbn [callDirect]. rewrite complete_spec, Hf.
        rewrite emit_addEvents, !addEvents_add. reflexivity.
      * apply Forall_app. split; [apply completion_aftermath | exact Hall].
    + destruct (laterCalls_frame options callback false (h_later next) None
                  Returned) as (o' & evs & Hf & Hall & Hkeep).
      rewrite (Hkeep ltac:(discriminate)) in Hf.
      exists (report options callback e :: evs). split.
      * intros r. cbn [callDirect]. rewrite handleError_spec, Hf.
        rewrite emit_addEvents, !addEvents_add. reflexivity.
      * constructor; [apply report_aftermath | exact Hall].
    + destruct (h_later next) as [|c' later] eqn:Hlater.
      * exists (completion options callback
                  match fate with
                  | Fulfils => Resolved
                  | RejectsWith e => Rejected e
                  | StaysPending => Pending
                  end). split.
        -- intros r. cbn [callDirect]. rewrite complete_spec.
           rewrite emit_addEvents, !addEvents_add.
           destruct fate; rewrite ?orb_true_r; reflexivity.
        -- apply completion_aftermath.
      * destruct callback.
        -- exists (directEvents (c' :: later)
                   ++ completion options true
                        match fate with
                        | Fulfils => Resolved
                        | RejectsWith e => Rejected e
                        | StaysPending => Pending
                        end)%list. split.
           ++ intros r. rewrite !callDirect_spec. cbv iota beta.
              rewrite complete_spec, emit_addEvents, !addEvents_add.
              destruct fate; reflexivity.
           ++ apply Forall_app. split;
                [apply directEvents_aftermath | apply completion_aftermath].
        -- exists [report options false typeErrorNotFunction]. split.
           ++ intros r. cbn [callDirect negb]. rewrite handleError_spec.
              rewrite emit_addEvents, !addEvents_add.
              destruct fate; reflexivity.
           ++ repeat constructor.
  - (* the body calls back before it returns *)
    destruct callback.
    + destruct (h_return next) as [|e|fate] eqn:Hret.
      * destruct (laterCalls_frame options true false (h_later next) None
                    Returned) as (o' & evs & Hf & Hall & Hkeep).
        rewrite (Hkeep ltac:(discriminate)) in Hf.
        exists (directEvents (c :: calls)
                ++ completion options true Resolved ++ evs)%list. split.
        -- intros r. rewrite callDirect_spec, complete_spec, Hf.
           rewrite emit_addEvents, !addEvents_add.
           rewrite <- ?app_assoc. reflexivity.
        -- apply Forall_app. split; [apply directEvents_aftermath|].
           apply Forall_app. split; [apply completion_aftermath | exact Hall].
      * destruct (laterCalls_frame options true false (h_later next) None
                    Returned) as (o' & evs & Hf & Hall & Hkeep).
        rewrite (Hkeep ltac:(discriminate)) in Hf.
        exists (directEvents (c :: calls)
                ++ report options true e :: evs)%list. split.
        -- intros r. rewrite callDirect_spec, handleError_spec, Hf.
           rewrite emit_addEvents, !addEvents_add.
           rewrite <- ?app_assoc. reflexivity.
        -- apply Forall_app. split; [apply directEvents_aftermath|].
           constructor; [apply report_aftermath | exact Hall].
      * exists (directEvents (c :: calls)
                ++ directEvents (h_later next)
                ++ completion options true
                     match fate with
                     | Fulfils => Resolved
                     | RejectsWith e => Rejected e
                     | StaysPending => Pending
                     end)%list. split.
        -- intros r. rewrite !callDirect_spec.
           assert (Hnormal : match h_later next with
                             | [] => Normal
                             | _ :: _ => Normal
                             end = Normal) by (destruct (h_later next); reflexivity).
           rewrite Hnormal, complete_spec.
           rewrite emit_addEvents, !addEvents_add.
           rewrite <- ?app_assoc.
           destruct fate; reflexivity.
        -- apply Forall_app. split; [apply directEvents_aftermath|].
           apply Forall_app. split;
             [apply directEvents_aftermath | apply completion_aftermath].
    + exists [report options false typeErrorNotFunction]. split.
      * intros r. cbn [callDirect negb]. rewrite handleError_spec.
        rewrite emit_addEvents, !addEvents_add.
        destruct (h_return next) as [|e|[| |]]; reflexivity.
      * repeat constructor.
Qed.

Lemma sendErrorResponse_aftermath (options : GrpcAdapterOptions)
    (callback : bool) (r : Run) :
  exists evs,
    match sendErrorResponse callback (ms_response (run_state r)) r with
    | (Thrown e, r') => (Returned, handleError options e callback r')
    | (_, r') => (Returned, r')
    end = (Returned, addEvents evs r)
    /\ Forall (fun ev => isAftermath ev = true) evs.
Proof.
  destruct callback.
  - rewrite sendErrorResponse_spec by reflexivity.
    destruct (undeliverable (resp_body (ms_response (run_state r)))).
    + rewrite handleError_spec. eexists. split; [reflexivity|].
      constructor; [apply report_aftermath | constructor].
    + eexists [_]. split; [reflexivity | repeat constructor].
  - exists []. simpl. rewrite addEvents_nil. split; [reflexivity | constructor].
Qed.

(** A plain handler on a call where it is handed the caller's callback,
    as the wrapped method runs it. *)
Lemma wrapped_plain_handler (options : GrpcAdapterOptions) (method : Handler)
    (call : GrpcCall) (callback : bool) (r : Run) :
  call_isStream call = true \/ callback = false ->
  (forall fate, h_return method <> Async fate) ->
  (let '(p, r') := callOriginalMethod method call callback r in
   let '(o, r'') := complete options callback p r' in
   afterReturn options method call callback o r'')
  = awaitNext options method callback r.
Proof.
  intros Hshape Hplain.
  assert (Hcall : callOriginalMethod method call callback r
                  = match callDirect callback (h_calls method)
                            (emit HandlerInvoked r) with
                    | (Thrown e, r') => (Rejected e, r')
                    | (_, r') =>
                        match h_return method with
                        | Throws e => (Rejected e, r')
                        | _ => (Resolved, r')
                        end
                    end).
  { unfold callOriginalMethod.
    assert (Hd : (if call_isStream call then true else negb callback) = true)
      by (destruct Hshape as [-> | ->]; [|destruct (call_isStream call)];
          reflexivity).
    destruct (callDirect callback (h_calls method) (emit HandlerInvoked r))
      as [[|e|] r'] eqn:Hcd;
      destruct (h_return method) as [|e'|fate] eqn:Hret;
      try (exfalso; exact (Hplain fate eq_refl));
      destruct (call_isStream call); try reflexivity;
      destruct callback; try discriminate; reflexivity. }
  rewrite Hcall. unfold awaitNext, afterReturn.
  assert (Hwrapped : negb (call_isStream call) && callback = false)
    by (destruct Hshape as [-> | ->];
        [reflexivity | apply andb_false_r]).
  rewrite Hwrapped.
  rewrite callDirect_spec.
  destruct (h_calls method) as [|c calls].
  - destruct (h_return method) as [|e|fate] eqn:Hret;
      [| | exfalso; exact (Hplain fate eq_refl)].
    + destruct (complete options callback Resolved _) as [o r''] eqn:Hc.
      destruct callback; reflexivity.
    + unfold complete. destruct callback; reflexivity.
  - destruct callback.
    + destruct (h_return method) as [|e|fate] eqn:Hret;
        [| | exfalso; exact (Hplain fate eq_refl)].
      * destruct (complete options true Resolved _) as [o r''] eqn:Hc.
        reflexivity.
      * reflexivity.
    + unfold complete.
      destruct (h_return method) as [|e|fate] eqn:Hret;
        [| | exfalso; exact (Hplain fate eq_refl)]; reflexivity.
Qed.

End InterceptorFacts.

(** X26. The interceptor form and the wrapped-method form of the
    pipeline. They run the same chain and, whenever the chain does not
    let the handler be reached, end in the same way. The interceptor
    form sends no trailing metadata, so it does not depend on the
    identifiers. It awaits what [next] returns: it does not come to an
    end exactly when [next] is reached, is async, runs through, and its
    promise never settles; in every other case it returns. When a plain
    handler is reached on a stream-shaped call or without a callback and
    the identifiers can be put on metadata, the two forms differ only in
    that the wrapped method sends the trailing metadata first. *)
Theorem interceptor_agrees_with_wrapped_method
    (options : GrpcAdapterOptions) (middlewares : list IStruktosMiddleware)
    (method : Handler) (methodDef : MethodDefinition) (now : Z)
    (rnd1 rnd2 : string) (requests : gmap string (list Z)) (call : GrpcCall)
    (callback : bool) :
  let chain := chainResult options middlewares methodDef now rnd1 rnd2
                 requests call in
  let direct := StruktosInterceptorMore.createInterceptor options middlewares
                  methodDef now rnd1 rnd2 requests call callback method in
  let wrapped := StruktosInterceptor.wrapMethod options middlewares method
                   methodDef now rnd1 rnd2 requests call callback in
  (~ handlerReached chain -> direct = wrapped /\ fst direct = Returned)
  /\ (forall t q, ~ In (MetadataSent t q) (run_events (snd direct)))
  /\ (handlerReached chain ->
      fst direct
      = if match h_return method with
           | Async StaysPending =>
               callback
               || match h_calls method, h_later method with
                  | [], [] => true
                  | _, _ => false
                  end
           | _ => false
           end
        then Hung else Returned)
  /\ (handlerReached chain ->
      legalIds (context (ms_ctx (run_state (snd chain)))) = true ->
      call_isStream call = true \/ callback = false ->
      (forall fate, h_return method <> Async fate) ->
      fst wrapped = Returned
      /\ fst direct = Returned
      /\ exists traceId requestId rest,
          run_events (snd wrapped)
          = (run_events (snd chain) ++ MetadataSent traceId requestId :: rest)%list
          /\ run_events (snd direct) = (run_events (snd chain) ++ rest)%list).
Proof.
  intros chain direct wrapped. subst direct wrapped.
  rewrite createInterceptor_finish, wrapMethod_finish. fold chain.
  destruct (chain_events options methodDef now rnd1 rnd2 requests call
              middlewares) as (Hev & Hfuel & _).
  fold chain in Hev, Hfuel.
  destruct (awaitNext_frame options method callback) as (evs & Hnext & Hall).
  split; [|split; [|split]].
  - intros Hnot. split.
    + apply afterChain_same_when_not_reached. exact Hnot.
    + destruct chain as [[|e|] r]; [| reflexivity | contradiction].
      unfold afterChainDirect.
      destruct (resp_sent (ms_response (run_state r))) eqn:Hsent.
      * destruct (StruktosInterceptor.sendErrorResponse callback _ r)
          as [[|e|] r']; reflexivity.
      * destruct (isCancelled (ms_token (run_state r))) eqn:Hcan;
          [reflexivity|].
        exfalso. apply Hnot. repeat split; assumption.
  - intros t q Hin.
    assert (Hrest : exists rest,
              run_events (snd (afterChainDirect options method callback chain))
              = (run_events (snd chain) ++ rest)%list
              /\ forall t q, ~ In (MetadataSent t q) rest).
    { destruct chain as [[|e|] r]; cbn [fst snd] in *.
      - unfold afterChainDirect.
        destruct (resp_sent (ms_response (run_state r))).
        + destruct (sendErrorResponse_aftermath options callback r)
            as (evs' & -> & Hall').
          exists evs'. split; [reflexivity|].
          apply aftermath_not_invocation. exact Hall'.
        + destruct (isCancelled (ms_token (run_state r))).
          * unfold StruktosInterceptor.sendCancelledResponse.
            destruct callback; cbn [negb snd].
            -- eexists [_]. split; [apply events_emit|].
               intros t' q' [H|[]]; discriminate.
            -- exists []. rewrite app_nil_r. split; [reflexivity|].
               intros t' q' [].
          * rewrite Hnext. exists (HandlerInvoked :: evs).
            split; [reflexivity|].
            intros t' q' [H|H]; [discriminate|].
            revert H. apply aftermath_not_invocation. exact Hall.
      - exists [report options callback e]. split.
        + simpl. rewrite handleError_spec. reflexivity.
        + intros t' q' [H|[]]. revert H. unfold report.
          destruct callback; [destruct (transformed options e)|];
            discriminate.
      - exists []. rewrite app_nil_r. split; [reflexivity|].
        intros t' q' []. }
    destruct Hrest as (rest & Hrest & Hno).
    rewrite Hrest, Hev in Hin. apply in_app_or in Hin as [Hin|Hin].
    + unfold invocations in Hin. apply in_map_iff in Hin as (i & Hi & _).
      discriminate.
    + exact (Hno t q Hin).
  - intros (Hc & Hsent & Hcan). destruct chain as [c r].
    cbn [fst snd] in *. subst c.
    unfold afterChainDirect. rewrite Hsent, Hcan, Hnext. reflexivity.
  - intros (Hc & Hsent & Hcan) Hlegal Hshape Hplain. destruct chain as [c r].
    cbn [fst snd] in *. subst c.
    unfold afterChainDirect, afterChain. rewrite Hsent, Hcan.
    pose proof (createResponseMetadata_legalIds (context (ms_ctx (run_state r))))
      as Hmd.
    destruct (ResponseMetadata.createResponseMetadata
                (context (ms_ctx (run_state r)))) as [e|md]; [congruence|].
    cbv zeta.
    rewrite (wrapped_plain_handler options method call callback _ Hshape Hplain).
    rewrite !Hnext.
    assert (Hret : (if match h_return method with
                       | Async StaysPending =>
                           callback
                           || match h_calls method, h_later method with
                              | [], [] => true
                              | _, _ => false
                              end
                       | _ => false
                       end
                    then Hung else Returned) = Returned).
    { destruct (h_return method) as [|e|fate] eqn:Hr;
        [reflexivity | reflexivity | exfalso; exact (Hplain fate eq_refl)]. }
    rewrite Hret. split; [reflexivity|]. split; [reflexivity|].
    do 2 eexists. exists (HandlerInvoked :: evs).
    cbn [snd addEvents run_events emit]. rewrite <- ?app_assoc.
    split; reflexivity.
Qed.

Lemma interceptor_agrees_with_wrapped_method_witness :
  StruktosInterceptorMore.createInterceptor defaultOptions [throwsValidation]
    sayHello 1700000000000 "0.4fzyo82mvyr" "0.k2j5" ∅ plainCall true
    echoHandler
  = StruktosInterceptor.wrapMethod defaultOptions [throwsValidation] echoHandler
      sayHello 1700000000000 "0.4fzyo82mvyr" "0.k2j5" ∅ plainCall true
  /\ fst (StruktosInterceptorMore.createInterceptor defaultOptions
            [passThrough] sayHello 1700000000000 "0.4fzyo82mvyr" "0.k2j5" ∅
            plainCall true neverSettles)
     = Hung.
Proof.
  split.
  - apply (proj1 (interceptor_agrees_with_wrapped_method defaultOptions
                    [throwsValidation] echoHandler sayHello 1700000000000
                    "0.4fzyo82mvyr" "0.k2j5" ∅ plainCall true)).
    vm_compute. intros (H & _ & _). discriminate H.
  - apply (proj1 (proj2 (proj2 (interceptor_agrees_with_wrapped_method
                    defaultOptions [passThrough] neverSettles sayHello
                    1700000000000 "0.4fzyo82mvyr" "0.k2j5" ∅ plainCall true)))).
    vm_compute. auto.
Defined.

(** ** The adapter *)

Section AdapterFacts.

Import GrpcStruktosAdapter.

Lemma map_set_keys {A : Type} (key : string) (value : A)
    (entries : list (string * A)) (k : string) :
  In k (map fst (map_set key value entries))
  <-> k = key \/ In k (map fst entries).
Proof.
  induction entries as [|[k' v'] rest IH]; simpl.
  - intuition congruence.
  - destruct (String.eqb_spec k' key) as [->|Hne]; simpl.
    + intuition congruence.
    + rewrite IH. intuition congruence.
Qed.

Lemma map_set_NoDup {A : Type} (key : string) (value : A)
    (entries : list (string * A)) :
  List.NoDup (map fst entries) -> List.NoDup (map fst (map_set key value entries)).
Proof.
  induction entries as [|[k' v'] rest IH]; simpl; intros Hnd.
  - apply List.NoDup_cons; [intros []|apply List.NoDup_nil].
  - inversion Hnd as [|? ? Hnotin Hrest]; subst.
    destruct (String.eqb_spec k' key) as [->|Hne]; simpl.
    + apply List.NoDup_cons; assumption.
    + apply List.NoDup_cons; [|apply IH; assumption].
      rewrite map_set_keys. intros [H|H]; [congruence | contradiction].
Qed.

Lemma map_set_In {A : Type} (key : string) (value : A)
    (entries : list (string * A)) (k : string) (v : A) :
  List.NoDup (map fst entries) ->
  In (k, v) (map_set key value entries) ->
  (k = key /\ v = value) \/ (k <> key /\ In (k, v) entries).
Proof.
  induction entries as [|[k' v'] rest IH]; simpl; intros Hnd.
  - intros [H|[]]. inversion H. left. split; reflexivity.
  - inversion Hnd as [|? ? Hnotin Hrest]; subst.
    destruct (String.eqb_spec k' key) as [->|Hne]; simpl.
    + intros [H|H].
      * inversion H. left. split; reflexivity.
      * right. split; [|right; exact H].
        intros ->. apply Hnotin.
        apply (in_map fst) in H. exact H.
    + intros [H|H].
      * inversion H; subst. right. split; [exact Hne | left; reflexivity].
      * destruct (IH Hrest H) as [Hl|[Hk Hin]]; [left; exact Hl|].
        right. split; [exact Hk | right; exact Hin].
Qed.

Lemma new_consistent (opts : AdapterOptions) : adapterConsistent (new opts).
Proof.
  split; simpl.
  - apply List.NoDup_nil.
  - intros ? ? [].
  - intros ? [].
  - rewrite lookup_singleton_eq. eexists. reflexivity.
  - discriminate.
Qed.

Lemma adapterCall_consistent (a : Adapter) (c : AdapterCall) :
  adapterConsistent a -> adapterConsistent (adapterCall a c).
Proof.
  intros [Hkeys Hmethods Hhealth Hoverall Hrunning].
  destruct c as [middlewares | port host bind | | definition implementation now
                 | serviceName status]; simpl.
  - split; assumption.
  - unfold start. destruct (running a) eqn:Hrun.
    + simpl. split; auto.
    + assert (Hh : forall k,
                is_Some (healthStatus a !! k) ->
                is_Some (match ao_healthCheckEnabled (options a) with
                         | Some false => healthStatus a
                         | _ => addHealthCheckService (healthStatus a)
                         end !! k)).
      { intros k Hk. unfold addHealthCheckService.
        destruct (ao_healthCheckEnabled (options a)) as [[|]|]; try exact Hk;
          (destruct (decide ("__health_check_enabled__" = k)) as [<-|Hne];
           [rewrite lookup_insert_eq; eexists; reflexivity
           | rewrite lookup_insert_ne by exact Hne; exact Hk]). }
      destruct bind as [e | boundPort]; split; simpl; auto;
        try discriminate; intros _; eexists; reflexivity.
  - unfold stop. destruct (running a) eqn:Hrun;
      [|simpl; split; auto; intros; congruence].
    destruct (server a) eqn:Hsrv;
      [|simpl; split; auto; intros _; rewrite Hsrv; auto].
    split; simpl; auto. discriminate.
  - split; simpl.
    + apply map_set_NoDup. exact Hkeys.
    + intros serviceName service Hin.
      apply map_set_In in Hin; [|exact Hkeys].
      destruct Hin as [[-> ->] | [Hne Hin]].
      * rewrite lookup_insert_eq. reflexivity.
      * rewrite lookup_insert_ne by congruence. apply Hmethods. exact Hin.
    + intros serviceName Hin. apply map_set_keys in Hin.
      destruct (decide (extractServiceName definition now = serviceName))
        as [<-|Hne].
      * rewrite lookup_insert_eq. eexists. reflexivity.
      * rewrite lookup_insert_ne by exact Hne. apply Hhealth.
        destruct Hin as [->|Hin]; [contradiction Hne; reflexivity | exact Hin].
    + destruct (decide (extractServiceName definition now = "")) as [->|Hne].
      * rewrite lookup_insert_eq. eexists. reflexivity.
      * rewrite lookup_insert_ne by exact Hne. exact Hoverall.
    + exact Hrunning.
  - split; simpl; auto.
    + intros k Hin. destruct (decide (serviceName = k)) as [<-|Hne].
      * rewrite lookup_insert_eq. eexists. reflexivity.
      * rewrite lookup_insert_ne by exact Hne. apply Hhealth. exact Hin.
    + destruct (decide (serviceName = "")) as [->|Hne].
      * rewrite lookup_insert_eq. eexists. reflexivity.
      * rewrite lookup_insert_ne by exact Hne. exact Hoverall.
Qed.

End AdapterFacts.

(** X27. Whatever calls are made on a new adapter, in whatever order,
    its tables stay in step: no service is registered twice, every
    registered service has the method definitions extracted from its own
    definition (so [start] never hands [wrapService] a missing table)
    and a health status, the overall status is set, and a running
    adapter has a server. *)
Theorem adapter_tables_stay_consistent (opts : AdapterOptions)
    (calls : list AdapterCall) :
  adapterConsistent (adapterAfter opts calls).
Proof.
  unfold adapterAfter.
  generalize (new_consistent opts).
  generalize (GrpcStruktosAdapter.new opts).
  induction calls as [|c calls IH]; intros a Ha; simpl; [exact Ha|].
  apply IH. apply adapterCall_consistent. exact Ha.
Qed.

Section AdapterNames.

Import GrpcStruktosAdapter.

Lemma split_slash_nonempty (s : string) : split_slash s <> [].
Proof.
  induction s as [|c s IH]; simpl; [discriminate|].
  destruct (split_slash s); [contradiction|].
  destruct (Ascii.eqb c "/"); discriminate.
Qed.

Lemma split_slash_segment (s1 s2 : string) :
  slashless s1 = true ->
  split_slash (s1 ++ String "/" s2) = s1 :: split_slash s2.
Proof.
  induction s1 as [|c s1 IH]; intros Hs1.
  - simpl. destruct (split_slash s2) eqn:E; [|reflexivity].
    exfalso. exact (split_slash_nonempty _ E).
  - simpl in Hs1. apply andb_prop in Hs1 as [Hc Hs1].
    simpl. rewrite (IH Hs1).
    apply negb_true_iff in Hc. rewrite Hc. reflexivity.
Qed.

Lemma split_slash_slashless (s : string) :
  slashless s = true -> split_slash s = [s].
Proof.
  induction s as [|c s IH]; intros Hs; [reflexivity|].
  simpl in Hs. apply andb_prop in Hs as [Hc Hs].
  simpl. rewrite (IH Hs). apply negb_true_iff in Hc. rewrite Hc. reflexivity.
Qed.

Lemma split_slash_method_path (service method : string) :
  slashless service = true -> slashless method = true ->
  split_slash ("/" ++ service ++ "/" ++ method) = [""; service; method].
Proof.
  intros Hs Hm.
  change ("/" ++ service ++ "/" ++ method)
    with ("" ++ String "/" (service ++ String "/" method)).
  rewrite split_slash_segment by reflexivity.
  rewrite split_slash_segment by exact Hs.
  rewrite split_slash_slashless by exact Hm. reflexivity.
Qed.

Lemma js_or_str_self (s : string) : js_or_str (Some s) "" = s.
Proof. destruct s; reflexivity. Qed.

Lemma extractMethodDefinitions_fold (serviceName : string)
    (definition : ServiceDefinition) :
  forall (methods : gmap string MethodDefinition) methodName md,
    fold_left
      (fun (methods : gmap string MethodDefinition)
           (entry : string * MethodEntry) =>
         let '(methodName, method) := entry in
         <[ methodName := methodDefinitionOf serviceName methodName method ]>
           methods)
      definition methods !! methodName = Some md ->
    (exists method, In (methodName, method) definition
                    /\ md = methodDefinitionOf serviceName methodName method)
    \/ methods !! methodName = Some md.
Proof.
  induction definition as [|[k method] rest IH]; intros methods methodName md.
  - simpl. intros H. right. exact H.
  - simpl. intros H. apply IH in H. destruct H as [(m & Hin & Hmd) | H].
    + left. exists m. split; [right; exact Hin | exact Hmd].
    + destruct (decide (k = methodName)) as [->|Hne].
      * rewrite lookup_insert_eq in H. inversion H. left.
        exists method. split; [left; reflexivity | reflexivity].
      * rewrite lookup_insert_ne in H by exact Hne. right. exact H.
Qed.

Lemma extractMethodDefinitions_lookup (serviceName : string)
    (definition : ServiceDefinition) (methodName : string)
    (md : MethodDefinition) :
  extractMethodDefinitions serviceName definition !! methodName = Some md ->
  exists method, In (methodName, method) definition
                 /\ md = methodDefinitionOf serviceName methodName method.
Proof.
  intros H. apply extractMethodDefinitions_fold in H.
  destruct H as [H|H]; [exact H|].
  rewrite lookup_empty in H. discriminate.
Qed.

End AdapterNames.

(** X28. Service and method names survive the trip through a path. For
    a service name and a method name without a slash: the method
    definition stored for a method whose entry gives no path carries
    the path [/service/method]; [transformRequest] on a raw call with
    that path reads the same service and method back, giving the
    request the interceptor builds from the method definition; and
    [extractServiceName] on a definition whose first entry has that
    path gives the service name. *)
Theorem names_survive_the_path (service methodName : string)
    (definition : ServiceDefinition) (md : MethodDefinition) (call : GrpcCall)
    (ctx : ContextFactory.RequestContext) (entry : MethodEntry)
    (rest : ServiceDefinition) (now : Z) :
  slashless service = true ->
  slashless methodName = true ->
  GrpcStruktosAdapter.extractMethodDefinitions service definition !! methodName
  = Some md ->
  (forall method, In (methodName, method) definition -> me_path method = None) ->
  me_path entry = Some (md_path md) ->
  md = {| md_service := service; md_method := methodName;
          md_path := "/" ++ service ++ "/" ++ methodName;
          md_requestStream := md_requestStream md;
          md_responseStream := md_responseStream md |}
  /\ GrpcStruktosAdapter.transformRequest
       {| raw_call := call; raw_path := Some (md_path md) |}
     = request (StruktosInterceptor.createMiddlewareContext call md ctx)
  /\ GrpcStruktosAdapter.extractServiceName ((methodName, entry) :: rest) now
     = service.
Proof.
  intros Hs Hm Hlookup Hnopath Hentry.
  apply extractMethodDefinitions_lookup in Hlookup.
  destruct Hlookup as (method & Hin & ->).
  pose proof (Hnopath method Hin) as Hpath.
  unfold methodDefinitionOf in *. rewrite Hpath in *. cbn [js_or_str md_path] in *.
  split; [reflexivity|]. split.
  - unfold GrpcStruktosAdapter.transformRequest,
      StruktosInterceptor.createMiddlewareContext.
    cbn [raw_path raw_call request md_path md_service md_method].
    change (js_or_str (Some ("/" ++ service ++ "/" ++ methodName))
              "/unknown/method")
      with ("/" ++ service ++ "/" ++ methodName).
    rewrite (split_slash_method_path service methodName Hs Hm).
    cbn [nth_error]. rewrite !js_or_str_self. reflexivity.
  - cbn [GrpcStruktosAdapter.extractServiceName]. rewrite Hentry.
    rewrite (split_slash_method_path service methodName Hs Hm). reflexivity.
Qed.

Lemma names_survive_the_path_witness :
  GrpcStruktosAdapter.transformRequest
    {| raw_call := plainCall;
       raw_path := Some "/example.Greeter/SayGoodbye" |}
  = {| req_path := "/example.Greeter/SayGoodbye";
       req_service := "example.Greeter";
       req_method := "SayGoodbye";
       req_ip := call_peer plainCall |}.
Proof.
  pose proof (names_survive_the_path "example.Greeter" "SayGoodbye"
                greeterDefinition
                {| md_service := "example.Greeter"; md_method := "SayGoodbye";
                   md_path := "/example.Greeter/SayGoodbye";
                   md_requestStream := false; md_responseStream := false |}
                plainCall
                {| ContextFactory.rc_data :=
                     fst (ContextFactory.createContext defaultOptions 0
                            "0.4fzyo82mvyr" "0.k2j5" plainCall sayHello);
                   ContextFactory.rc_token := activeToken |}
                {| me_path := Some "/example.Greeter/SayGoodbye";
                   me_requestStream := None; me_responseStream := None |}
                [] 0) as H.
  destruct H as (_ & H & _).
  - reflexivity.
  - reflexivity.
  - vm_compute. reflexivity.
  - intros method [Heq | [Heq | []]].
    + inversion Heq.
    + inversion Heq. reflexivity.
  - reflexivity.
  - exact H.
Defined.

(** X29. How the health status answers. A new adapter reports SERVING
    for the overall status and SERVICE_UNKNOWN for every named service.
    [setHealthStatus] changes the answer for its service only.
    [addService] puts the service back to SERVING whatever was set
    before. [start] on an adapter with no registered service (so that
    the server is handed none it could refuse) makes the name
    [__health_check_enabled__] answer SERVING unless the health check is
    switched off, also when binding fails. [stop] changes no answer: a
    stopped adapter still reports what it reported while running. *)
Theorem health_status_answers (a : GrpcStruktosAdapter.Adapter) :
  (forall opts serviceName,
      GrpcStruktosAdapter.getHealthStatus serviceName
        (GrpcStruktosAdapter.new opts)
      = match serviceName with
        | None | Some EmptyString => SERVING
        | Some _ => SERVICE_UNKNOWN
        end)
  /\ (forall changed status asked,
        GrpcStruktosAdapter.getHealthStatus (Some asked)
          (GrpcStruktosAdapter.setHealthStatus changed status a)
        = if decide (changed = asked) then status
          else GrpcStruktosAdapter.getHealthStatus (Some asked) a)
  /\ (forall status definition implementation now,
        let serviceName :=
          GrpcStruktosAdapter.extractServiceName definition now in
        GrpcStruktosAdapter.getHealthStatus (Some serviceName)
          (GrpcStruktosAdapter.addService definition implementation now
             (GrpcStruktosAdapter.setHealthStatus serviceName status a))
        = SERVING)
  /\ (forall port host bind,
        GrpcStruktosAdapter.running a = false ->
        GrpcStruktosAdapter.services a = [] ->
        ao_healthCheckEnabled (GrpcStruktosAdapter.options a) <> Some false ->
        GrpcStruktosAdapter.getHealthStatus (Some "__health_check_enabled__")
          (snd (GrpcStruktosAdapter.start port host bind a))
        = SERVING)
  /\ (forall serviceName,
        GrpcStruktosAdapter.getHealthStatus serviceName
          (GrpcStruktosAdapter.stop a)
        = GrpcStruktosAdapter.getHealthStatus serviceName a).
Proof.
  unfold GrpcStruktosAdapter.getHealthStatus.
  split; [|split; [|split; [|split]]].
  - intros opts [[|c s]|]; cbn [GrpcStruktosAdapter.new
                               GrpcStruktosAdapter.healthStatus default].
    + rewrite lookup_singleton_eq. reflexivity.
    + rewrite lookup_singleton_ne by discriminate. reflexivity.
    + rewrite lookup_singleton_eq. reflexivity.
  - intros changed status asked. cbn [default].
    cbn [GrpcStruktosAdapter.setHealthStatus GrpcStruktosAdapter.healthStatus].
    destruct (decide (changed = asked)) as [->|Hne].
    + rewrite lookup_insert_eq. reflexivity.
    + rewrite lookup_insert_ne by exact Hne. reflexivity.
  - intros status definition implementation now. cbn [default].
    cbn [GrpcStruktosAdapter.addService GrpcStruktosAdapter.healthStatus].
    rewrite lookup_insert_eq. reflexivity.
  - intros port host bind Hrun _ Henabled. cbn [default].
    unfold GrpcStruktosAdapter.start. rewrite Hrun.
    destruct bind;
      (destruct (ao_healthCheckEnabled (GrpcStruktosAdapter.options a))
         as [[|]|]; [| congruence |]);
      cbv zeta; cbn [snd GrpcStruktosAdapter.healthStatus];
      unfold GrpcStruktosAdapter.addHealthCheckService;
      rewrite lookup_insert_eq; reflexivity.
  - intros serviceName. unfold GrpcStruktosAdapter.stop.
    destruct (GrpcStruktosAdapter.running a); [|reflexivity].
    destruct (GrpcStruktosAdapter.server a); reflexivity.
Qed.

Lemma health_status_answers_witness :
  GrpcStruktosAdapter.getHealthStatus (Some "__health_check_enabled__")
    (snd (GrpcStruktosAdapter.start None None (inl bindRefused)
            (GrpcStruktosAdapter.new defaultAdapterOptions)))
  = SERVING.
Proof.
  apply (proj1 (proj2 (proj2 (proj2
           (health_status_answers
              (GrpcStruktosAdapter.new defaultAdapterOptions)))))).
  - reflexivity.
  - reflexivity.
  - simpl. discriminate.
Defined.

(** X30. Starting and stopping. A running adapter refuses [start] with
    the error "gRPC server is already running" and is left as it was.
    Otherwise [start] builds a server; when binding succeeds the adapter
    is running and the result names the bound port (not the requested
    one), the host ([0.0.0.0] when none is given) and the registered
    services in registration order, and [stop] then clears the server
    and the running flag and keeps the services. When binding fails the
    error is passed on, the adapter is not running, the server it built
    stays, and [stop] leaves that adapter as it is. Stopping twice is
    stopping once. *)
Theorem start_and_stop (a : GrpcStruktosAdapter.Adapter) (port : option Z)
    (host : option string) :
  (GrpcStruktosAdapter.running a = true ->
   forall bind,
     GrpcStruktosAdapter.start port host bind a = (inl alreadyRunning, a))
  /\ (GrpcStruktosAdapter.running a = false ->
      forall boundPort,
        let started :=
          GrpcStruktosAdapter.start port host (inr boundPort) a in
        fst started
        = inr {| si_protocol := "grpc";
                 si_host := default "0.0.0.0" host;
                 si_port := boundPort;
                 si_url := "grpc://" ++ default "0.0.0.0" host ++ ":"
                           ++ toString10 boundPort;
                 si_services := map fst (GrpcStruktosAdapter.services a) |}
        /\ GrpcStruktosAdapter.isRunning (snd started) = true
        /\ GrpcStruktosAdapter.isRunning
             (GrpcStruktosAdapter.stop (snd started)) = false
        /\ GrpcStruktosAdapter.server
             (GrpcStruktosAdapter.stop (snd started)) = None
        /\ GrpcStruktosAdapter.services
             (GrpcStruktosAdapter.stop (snd started))
           = GrpcStruktosAdapter.services a)
  /\ (GrpcStruktosAdapter.running a = false ->
      forall error,
        let failed := GrpcStruktosAdapter.start port host (inl error) a in
        fst failed = inl error
        /\ GrpcStruktosAdapter.isRunning (snd failed) = false
        /\ is_Some (GrpcStruktosAdapter.server (snd failed))
        /\ GrpcStruktosAdapter.stop (snd failed) = snd failed)
  /\ GrpcStruktosAdapter.stop (GrpcStruktosAdapter.stop a)
     = GrpcStruktosAdapter.stop a.
Proof.
  split; [|split; [|split]].
  - intros Hrun bind. unfold GrpcStruktosAdapter.start. rewrite Hrun.
    reflexivity.
  - intros Hrun boundPort started. subst started.
    unfold GrpcStruktosAdapter.start. rewrite Hrun.
    repeat split; reflexivity.
  - intros Hrun error failed. subst failed.
    unfold GrpcStruktosAdapter.start. rewrite Hrun.
    repeat split; try reflexivity. eexists. reflexivity.
  - unfold GrpcStruktosAdapter.stop.
    destruct (GrpcStruktosAdapter.running a) eqn:Hrun;
      [|rewrite Hrun; reflexivity].
    destruct (GrpcStruktosAdapter.server a) eqn:Hsrv;
      [reflexivity | rewrite Hrun, Hsrv; reflexivity].
Qed.

Lemma start_and_stop_witness :
  GrpcStruktosAdapter.stop
    (snd (GrpcStruktosAdapter.start (Some 50052) None (inl bindRefused)
            (GrpcStruktosAdapter.new defaultAdapterOptions)))
  = snd (GrpcStruktosAdapter.start (Some 50052) None (inl bindRefused)
           (GrpcStruktosAdapter.new defaultAdapterOptions)).
Proof.
  apply (proj1 (proj2 (proj2
           (start_and_stop (GrpcStruktosAdapter.new defaultAdapterOptions)
              (Some 50052) None)))).
  reflexivity.
Defined.

Example start_and_stop_sample :
  let a := adapterAfter defaultAdapterOptions
             [CallAddService greeterDefinition greeterImplementation 0;
              CallInit [passThrough]] in
  fst (GrpcStruktosAdapter.start None None (inr 50052) a)
  = inr {| si_protocol := "grpc"; si_host := "0.0.0.0"; si_port := 50052;
           si_url := "grpc://0.0.0.0:50052";
           si_services := ["example.Greeter"] |}
  /\ GrpcStruktosAdapter.getHealthStatus (Some "example.Greeter") a = SERVING
  /\ GrpcStruktosAdapter.getHealthStatus (Some "other.Service") a
     = SERVICE_UNKNOWN
  /\ fst (GrpcStruktosAdapter.start None None (inr 50052)
            (snd (GrpcStruktosAdapter.start None None (inr 50052) a)))
     = inl alreadyRunning.
Proof. vm_compute. repeat split; reflexivity. Qed.

